(** * Verification of the invoice field extractor (extractor.py)

    A shallow embedding of the normalisers, the amount extractor, the
    field extractor, the text reader and the loop of [main] of
    [extractor.py], together with the parts of the
    Python runtime they rest on: [str] values as sequences of Unicode code
    points, the backtracking matcher behind [re.search] / [re.findall] /
    [re.sub], IEEE-754 binary64 numbers for [float], and dictionaries as
    finite maps. *)

From Stdlib Require Import ZArith List Bool Lia String Ascii.
From Stdlib Require Import Floats.SpecFloat.
From stdpp Require Import gmap strings list fin_maps.

(** ** Python strings *)

(** A Python [str] is a sequence of Unicode code points. *)
Definition codepoint := Z.
Definition pystr := list codepoint.

(** ASCII literals are written as Rocq strings and converted. *)
Definition py (s : string) : pystr :=
  List.map (fun a => Z.of_N (N_of_ascii a)) (list_ascii_of_string s).

(** ** Character classes of the Python 3.11 runtime (Unicode 14.0) *)

Module Unicode.

Definition in_ranges (t : list (Z * Z)) (c : codepoint) : bool :=
  existsb (fun r => (fst r <=? c)%Z && (c <=? snd r)%Z) t.

(** [str.isspace], which is also [\s] of [re] on [str] patterns. *)
Definition space_ranges : list (Z * Z) :=
  [
    (9, 13); (28, 32); (133, 133); (160, 160); (5760, 5760); (8192, 8202);
    (8232, 8233); (8239, 8239); (8287, 8287); (12288, 12288)
  ]%Z.

(** [str.isdecimal], which is also [\d] of [re]; [float] reads the same
    characters as digits. *)
Definition decimal_ranges : list (Z * Z) :=
  [
    (48, 57); (1632, 1641); (1776, 1785); (1984, 1993); (2406, 2415); (2534, 2543);
    (2662, 2671); (2790, 2799); (2918, 2927); (3046, 3055); (3174, 3183); (3302, 3311);
    (3430, 3439); (3558, 3567); (3664, 3673); (3792, 3801); (3872, 3881); (4160, 4169);
    (4240, 4249); (6112, 6121); (6160, 6169); (6470, 6479); (6608, 6617); (6784, 6793);
    (6800, 6809); (6992, 7001); (7088, 7097); (7232, 7241); (7248, 7257); (42528, 42537);
    (43216, 43225); (43264, 43273); (43472, 43481); (43504, 43513); (43600, 43609); (44016, 44025);
    (65296, 65305); (66720, 66729); (68912, 68921); (69734, 69743); (69872, 69881); (69942, 69951);
    (70096, 70105); (70384, 70393); (70736, 70745); (70864, 70873); (71248, 71257); (71360, 71369);
    (71472, 71481); (71904, 71913); (72016, 72025); (72784, 72793); (73040, 73049); (73120, 73129);
    (92768, 92777); (92864, 92873); (93008, 93017); (120782, 120831); (123200, 123209); (123632, 123641);
    (125264, 125273); (130032, 130041)
  ]%Z.

(** [\w] of [re]: [str.isalnum] or the underscore. *)
Definition word_ranges : list (Z * Z) :=
  [
    (48, 57); (65, 90); (95, 95); (97, 122); (170, 170); (178, 179);
    (181, 181); (185, 186); (188, 190); (192, 214); (216, 246); (248, 705);
    (710, 721); (736, 740); (748, 748); (750, 750); (880, 884); (886, 887);
    (890, 893); (895, 895); (902, 902); (904, 906); (908, 908); (910, 929);
    (931, 1013); (1015, 1153); (1162, 1327); (1329, 1366); (1369, 1369); (1376, 1416);
    (1488, 1514); (1519, 1522); (1568, 1610); (1632, 1641); (1646, 1647); (1649, 1747);
    (1749, 1749); (1765, 1766); (1774, 1788); (1791, 1791); (1808, 1808); (1810, 1839);
    (1869, 1957); (1969, 1969); (1984, 2026); (2036, 2037); (2042, 2042); (2048, 2069);
    (2074, 2074); (2084, 2084); (2088, 2088); (2112, 2136); (2144, 2154); (2160, 2183);
    (2185, 2190); (2208, 2249); (2308, 2361); (2365, 2365); (2384, 2384); (2392, 2401);
    (2406, 2415); (2417, 2432); (2437, 2444); (2447, 2448); (2451, 2472); (2474, 2480);
    (2482, 2482); (2486, 2489); (2493, 2493); (2510, 2510); (2524, 2525); (2527, 2529);
    (2534, 2545); (2548, 2553); (2556, 2556); (2565, 2570); (2575, 2576); (2579, 2600);
    (2602, 2608); (2610, 2611); (2613, 2614); (2616, 2617); (2649, 2652); (2654, 2654);
    (2662, 2671); (2674, 2676); (2693, 2701); (2703, 2705); (2707, 2728); (2730, 2736);
    (2738, 2739); (2741, 2745); (2749, 2749); (2768, 2768); (2784, 2785); (2790, 2799);
    (2809, 2809); (2821, 2828); (2831, 2832); (2835, 2856); (2858, 2864); (2866, 2867);
    (2869, 2873); (2877, 2877); (2908, 2909); (2911, 2913); (2918, 2927); (2929, 2935);
    (2947, 2947); (2949, 2954); (2958, 2960); (2962, 2965); (2969, 2970); (2972, 2972);
    (2974, 2975); (2979, 2980); (2984, 2986); (2990, 3001); (3024, 3024); (3046, 3058);
    (3077, 3084); (3086, 3088); (3090, 3112); (3114, 3129); (3133, 3133); (3160, 3162);
    (3165, 3165); (3168, 3169); (3174, 3183); (3192, 3198); (3200, 3200); (3205, 3212);
    (3214, 3216); (3218, 3240); (3242, 3251); (3253, 3257); (3261, 3261); (3293, 3294);
    (3296, 3297); (3302, 3311); (3313, 3314); (3332, 3340); (3342, 3344); (3346, 3386);
    (3389, 3389); (3406, 3406); (3412, 3414); (3416, 3425); (3430, 3448); (3450, 3455);
    (3461, 3478); (3482, 3505); (3507, 3515); (3517, 3517); (3520, 3526); (3558, 3567);
    (3585, 3632); (3634, 3635); (3648, 3654); (3664, 3673); (3713, 3714); (3716, 3716);
    (3718, 3722); (3724, 3747); (3749, 3749); (3751, 3760); (3762, 3763); (3773, 3773);
    (3776, 3780); (3782, 3782); (3792, 3801); (3804, 3807); (3840, 3840); (3872, 3891);
    (3904, 3911); (3913, 3948); (3976, 3980); (4096, 4138); (4159, 4169); (4176, 4181);
    (4186, 4189); (4193, 4193); (4197, 4198); (4206, 4208); (4213, 4225); (4238, 4238);
    (4240, 4249); (4256, 4293); (4295, 4295); (4301, 4301); (4304, 4346); (4348, 4680);
    (4682, 4685); (4688, 4694); (4696, 4696); (4698, 4701); (4704, 4744); (4746, 4749);
    (4752, 4784); (4786, 4789); (4792, 4798); (4800, 4800); (4802, 4805); (4808, 4822);
    (4824, 4880); (4882, 4885); (4888, 4954); (4969, 4988); (4992, 5007); (5024, 5109);
    (5112, 5117); (5121, 5740); (5743, 5759); (5761, 5786); (5792, 5866); (5870, 5880);
    (5888, 5905); (5919, 5937); (5952, 5969); (5984, 5996); (5998, 6000); (6016, 6067);
    (6103, 6103); (6108, 6108); (6112, 6121); (6128, 6137); (6160, 6169); (6176, 6264);
    (6272, 6276); (6279, 6312); (6314, 6314); (6320, 6389); (6400, 6430); (6470, 6509);
    (6512, 6516); (6528, 6571); (6576, 6601); (6608, 6618); (6656, 6678); (6688, 6740);
    (6784, 6793); (6800, 6809); (6823, 6823); (6917, 6963); (6981, 6988); (6992, 7001);
    (7043, 7072); (7086, 7141); (7168, 7203); (7232, 7241); (7245, 7293); (7296, 7304);
    (7312, 7354); (7357, 7359); (7401, 7404); (7406, 7411); (7413, 7414); (7418, 7418);
    (7424, 7615); (7680, 7957); (7960, 7965); (7968, 8005); (8008, 8013); (8016, 8023);
    (8025, 8025); (8027, 8027); (8029, 8029); (8031, 8061); (8064, 8116); (8118, 8124);
    (8126, 8126); (8130, 8132); (8134, 8140); (8144, 8147); (8150, 8155); (8160, 8172);
    (8178, 8180); (8182, 8188); (8304, 8305); (8308, 8313); (8319, 8329); (8336, 8348);
    (8450, 8450); (8455, 8455); (8458, 8467); (8469, 8469); (8473, 8477); (8484, 8484);
    (8486, 8486); (8488, 8488); (8490, 8493); (8495, 8505); (8508, 8511); (8517, 8521);
    (8526, 8526); (8528, 8585); (9312, 9371); (9450, 9471); (10102, 10131); (11264, 11492);
    (11499, 11502); (11506, 11507); (11517, 11517); (11520, 11557); (11559, 11559); (11565, 11565);
    (11568, 11623); (11631, 11631); (11648, 11670); (11680, 11686); (11688, 11694); (11696, 11702);
    (11704, 11710); (11712, 11718); (11720, 11726); (11728, 11734); (11736, 11742); (11823, 11823);
    (12293, 12295); (12321, 12329); (12337, 12341); (12344, 12348); (12353, 12438); (12445, 12447);
    (12449, 12538); (12540, 12543); (12549, 12591); (12593, 12686); (12690, 12693); (12704, 12735);
    (12784, 12799); (12832, 12841); (12872, 12879); (12881, 12895); (12928, 12937); (12977, 12991);
    (13312, 19903); (19968, 42124); (42192, 42237); (42240, 42508); (42512, 42539); (42560, 42606);
    (42623, 42653); (42656, 42735); (42775, 42783); (42786, 42888); (42891, 42954); (42960, 42961);
    (42963, 42963); (42965, 42969); (42994, 43009); (43011, 43013); (43015, 43018); (43020, 43042);
    (43056, 43061); (43072, 43123); (43138, 43187); (43216, 43225); (43250, 43255); (43259, 43259);
    (43261, 43262); (43264, 43301); (43312, 43334); (43360, 43388); (43396, 43442); (43471, 43481);
    (43488, 43492); (43494, 43518); (43520, 43560); (43584, 43586); (43588, 43595); (43600, 43609);
    (43616, 43638); (43642, 43642); (43646, 43695); (43697, 43697); (43701, 43702); (43705, 43709);
    (43712, 43712); (43714, 43714); (43739, 43741); (43744, 43754); (43762, 43764); (43777, 43782);
    (43785, 43790); (43793, 43798); (43808, 43814); (43816, 43822); (43824, 43866); (43868, 43881);
    (43888, 44002); (44016, 44025); (44032, 55203); (55216, 55238); (55243, 55291); (63744, 64109);
    (64112, 64217); (64256, 64262); (64275, 64279); (64285, 64285); (64287, 64296); (64298, 64310);
    (64312, 64316); (64318, 64318); (64320, 64321); (64323, 64324); (64326, 64433); (64467, 64829);
    (64848, 64911); (64914, 64967); (65008, 65019); (65136, 65140); (65142, 65276); (65296, 65305);
    (65313, 65338); (65345, 65370); (65382, 65470); (65474, 65479); (65482, 65487); (65490, 65495);
    (65498, 65500); (65536, 65547); (65549, 65574); (65576, 65594); (65596, 65597); (65599, 65613);
    (65616, 65629); (65664, 65786); (65799, 65843); (65856, 65912); (65930, 65931); (66176, 66204);
    (66208, 66256); (66273, 66299); (66304, 66339); (66349, 66378); (66384, 66421); (66432, 66461);
    (66464, 66499); (66504, 66511); (66513, 66517); (66560, 66717); (66720, 66729); (66736, 66771);
    (66776, 66811); (66816, 66855); (66864, 66915); (66928, 66938); (66940, 66954); (66956, 66962);
    (66964, 66965); (66967, 66977); (66979, 66993); (66995, 67001); (67003, 67004); (67072, 67382);
    (67392, 67413); (67424, 67431); (67456, 67461); (67463, 67504); (67506, 67514); (67584, 67589);
    (67592, 67592); (67594, 67637); (67639, 67640); (67644, 67644); (67647, 67669); (67672, 67702);
    (67705, 67742); (67751, 67759); (67808, 67826); (67828, 67829); (67835, 67867); (67872, 67897);
    (67968, 68023); (68028, 68047); (68050, 68096); (68112, 68115); (68117, 68119); (68121, 68149);
    (68160, 68168); (68192, 68222); (68224, 68255); (68288, 68295); (68297, 68324); (68331, 68335);
    (68352, 68405); (68416, 68437); (68440, 68466); (68472, 68497); (68521, 68527); (68608, 68680);
    (68736, 68786); (68800, 68850); (68858, 68899); (68912, 68921); (69216, 69246); (69248, 69289);
    (69296, 69297); (69376, 69415); (69424, 69445); (69457, 69460); (69488, 69505); (69552, 69579);
    (69600, 69622); (69635, 69687); (69714, 69743); (69745, 69746); (69749, 69749); (69763, 69807);
    (69840, 69864); (69872, 69881); (69891, 69926); (69942, 69951); (69956, 69956); (69959, 69959);
    (69968, 70002); (70006, 70006); (70019, 70066); (70081, 70084); (70096, 70106); (70108, 70108);
    (70113, 70132); (70144, 70161); (70163, 70187); (70272, 70278); (70280, 70280); (70282, 70285);
    (70287, 70301); (70303, 70312); (70320, 70366); (70384, 70393); (70405, 70412); (70415, 70416);
    (70419, 70440); (70442, 70448); (70450, 70451); (70453, 70457); (70461, 70461); (70480, 70480);
    (70493, 70497); (70656, 70708); (70727, 70730); (70736, 70745); (70751, 70753); (70784, 70831);
    (70852, 70853); (70855, 70855); (70864, 70873); (71040, 71086); (71128, 71131); (71168, 71215);
    (71236, 71236); (71248, 71257); (71296, 71338); (71352, 71352); (71360, 71369); (71424, 71450);
    (71472, 71483); (71488, 71494); (71680, 71723); (71840, 71922); (71935, 71942); (71945, 71945);
    (71948, 71955); (71957, 71958); (71960, 71983); (71999, 71999); (72001, 72001); (72016, 72025);
    (72096, 72103); (72106, 72144); (72161, 72161); (72163, 72163); (72192, 72192); (72203, 72242);
    (72250, 72250); (72272, 72272); (72284, 72329); (72349, 72349); (72368, 72440); (72704, 72712);
    (72714, 72750); (72768, 72768); (72784, 72812); (72818, 72847); (72960, 72966); (72968, 72969);
    (72971, 73008); (73030, 73030); (73040, 73049); (73056, 73061); (73063, 73064); (73066, 73097);
    (73112, 73112); (73120, 73129); (73440, 73458); (73648, 73648); (73664, 73684); (73728, 74649);
    (74752, 74862); (74880, 75075); (77712, 77808); (77824, 78894); (82944, 83526); (92160, 92728);
    (92736, 92766); (92768, 92777); (92784, 92862); (92864, 92873); (92880, 92909); (92928, 92975);
    (92992, 92995); (93008, 93017); (93019, 93025); (93027, 93047); (93053, 93071); (93760, 93846);
    (93952, 94026); (94032, 94032); (94099, 94111); (94176, 94177); (94179, 94179); (94208, 100343);
    (100352, 101589); (101632, 101640); (110576, 110579); (110581, 110587); (110589, 110590); (110592, 110882);
    (110928, 110930); (110948, 110951); (110960, 111355); (113664, 113770); (113776, 113788); (113792, 113800);
    (113808, 113817); (119520, 119539); (119648, 119672); (119808, 119892); (119894, 119964); (119966, 119967);
    (119970, 119970); (119973, 119974); (119977, 119980); (119982, 119993); (119995, 119995); (119997, 120003);
    (120005, 120069); (120071, 120074); (120077, 120084); (120086, 120092); (120094, 120121); (120123, 120126);
    (120128, 120132); (120134, 120134); (120138, 120144); (120146, 120485); (120488, 120512); (120514, 120538);
    (120540, 120570); (120572, 120596); (120598, 120628); (120630, 120654); (120656, 120686); (120688, 120712);
    (120714, 120744); (120746, 120770); (120772, 120779); (120782, 120831); (122624, 122654); (123136, 123180);
    (123191, 123197); (123200, 123209); (123214, 123214); (123536, 123565); (123584, 123627); (123632, 123641);
    (124896, 124902); (124904, 124907); (124909, 124910); (124912, 124926); (124928, 125124); (125127, 125135);
    (125184, 125251); (125259, 125259); (125264, 125273); (126065, 126123); (126125, 126127); (126129, 126132);
    (126209, 126253); (126255, 126269); (126464, 126467); (126469, 126495); (126497, 126498); (126500, 126500);
    (126503, 126503); (126505, 126514); (126516, 126519); (126521, 126521); (126523, 126523); (126530, 126530);
    (126535, 126535); (126537, 126537); (126539, 126539); (126541, 126543); (126545, 126546); (126548, 126548);
    (126551, 126551); (126553, 126553); (126555, 126555); (126557, 126557); (126559, 126559); (126561, 126562);
    (126564, 126564); (126567, 126570); (126572, 126578); (126580, 126583); (126585, 126588); (126590, 126590);
    (126592, 126601); (126603, 126619); (126625, 126627); (126629, 126633); (126635, 126651); (127232, 127244);
    (130032, 130041); (131072, 173791); (173824, 177976); (177984, 178205); (178208, 183969); (183984, 191456);
    (194560, 195101); (196608, 201546)
  ]%Z.


Definition is_space (c : codepoint) : bool := in_ranges space_ranges c.
Definition is_decimal (c : codepoint) : bool := in_ranges decimal_ranges c.
Definition is_word (c : codepoint) : bool := in_ranges word_ranges c.

(** Decimal value of a decimal digit: every block of [decimal_ranges]
    starts at a zero digit and runs through whole decades. *)
Definition decimal_value (c : codepoint) : Z :=
  match List.find (fun r => (fst r <=? c)%Z && (c <=? snd r)%Z) decimal_ranges with
  | Some r => ((c - fst r) mod 10)%Z
  | None => 0%Z
  end.

(** Case-insensitive matching ([re.IGNORECASE] on a [str] pattern) of the
    ASCII letters: the other code points that match an ASCII letter are
    U+0130 and U+0131 for [i], U+017F for [s] and U+212A for [k]. *)
Definition ascii_variants (c : codepoint) : list codepoint :=
  (if (65 <=? c) && (c <=? 90) then [c + 32]
   else if (97 <=? c) && (c <=? 122) then [c - 32]
   else if (c =? 304) || (c =? 305) then [105; 73]
   else if c =? 383 then [115; 83]
   else if c =? 8490 then [107; 75]
   else [])%Z.

Definition same_char_ignorecase (x c : codepoint) : bool :=
  existsb (Z.eqb x) (c :: ascii_variants c).

End Unicode.

(** ** String methods *)

Module Str.

Fixpoint lstrip (s : pystr) : pystr :=
  match s with
  | c :: s' => if Unicode.is_space c then lstrip s' else s
  | [] => []
  end.

Definition rstrip (s : pystr) : pystr := rev (lstrip (rev s)).

(** [s.strip()] *)
Definition strip (s : pystr) : pystr := rstrip (lstrip s).

Fixpoint startswith (p s : pystr) : bool :=
  match p, s with
  | [], _ => true
  | a :: p', b :: s' => (a =? b)%Z && startswith p' s'
  | _ :: _, [] => false
  end.

(** [s.replace(old, new)] for a non-empty [old]: the occurrences are
    found from the left and do not overlap; [skip] counts the characters
    of the occurrence just replaced that are still to be passed over. *)
Fixpoint replace_from (old new s : pystr) (skip : nat) : pystr :=
  match s with
  | [] => []
  | c :: s' =>
      match skip with
      | S n => replace_from old new s' n
      | O => if startswith old s
             then new ++ replace_from old new s' (Nat.pred (length old))
             else c :: replace_from old new s' 0
      end
  end.

(** With an empty [old] Python puts [new] before every character and at
    the end. *)
Definition replace (old new s : pystr) : pystr :=
  match old with
  | [] => flat_map (fun c => new ++ [c]) s ++ new
  | _ :: _ => replace_from old new s 0
  end.

(** [s[-n:]] for [n > 0]: the start index [len(s) - n] is clamped at 0. *)
Definition slice_last (n : nat) (s : pystr) : pystr := drop (length s - n) s.

(** [s[:n]] *)
Definition slice_first (n : nat) (s : pystr) : pystr := take n s.

End Str.

(** ** The [re] module *)

Module Re.

(** Members of a bracketed set. *)
Inductive item :=
| IChar (c : codepoint)
| IRange (lo hi : codepoint)
| IDigit                        (* \d *)
| ISpace                        (* \s *)
| IWord.                        (* \w *)

(** Patterns that consume exactly one character. *)
Inductive atom :=
| Lit (c : codepoint)
| Dot
| Set_ (negated : bool) (items : list item).

(** The fragment of the pattern language used by extractor.py: every
    repetition ([*], [+], [{m,n}], [*?]) is applied to a one-character
    pattern, [?] to arbitrary patterns, and a pattern has at most one
    capturing group. *)
Inductive regex :=
| Empty
| Atom (a : atom)
| Cat (r1 r2 : regex)
| Alt (r1 r2 : regex)
| Opt (r : regex)
| Rep (a : atom) (lo : nat) (hi : option nat) (greedy : bool)
| Grp (r : regex).

Record flags := { IGNORECASE : bool; DOTALL : bool }.

Definition no_flags : flags := {| IGNORECASE := false; DOTALL := false |}.

(** A match object: the text matched, group 1 (None when the group took
    no part in the match) and the text after the match. *)
Record mobj := { group0 : pystr; group1 : option pystr; rest : pystr }.

Section Matcher.
Variable fl : flags.

Definition item_match (c : codepoint) (i : item) : bool :=
  match i with
  | IChar x => if IGNORECASE fl then Unicode.same_char_ignorecase x c else (x =? c)%Z
  | IRange lo hi =>
      if IGNORECASE fl
      then existsb (fun x => (lo <=? x)%Z && (x <=? hi)%Z) (c :: Unicode.ascii_variants c)
      else (lo <=? c)%Z && (c <=? hi)%Z
  | IDigit => Unicode.is_decimal c
  | ISpace => Unicode.is_space c
  | IWord => Unicode.is_word c
  end.

Definition atom_match (a : atom) (c : codepoint) : bool :=
  match a with
  | Lit x => if IGNORECASE fl then Unicode.same_char_ignorecase x c else (x =? c)%Z
  | Dot => DOTALL fl || negb (c =? 10)%Z
  | Set_ neg items => xorb neg (existsb (item_match c) items)
  end.

Definition may_repeat (hi : option nat) : bool :=
  match hi with Some O => false | _ => true end.

(** Greedy repetition of a one-character pattern: take as many
    characters as allowed, then give them back one at a time until the
    rest of the pattern ([k]) succeeds. [n] counts the characters
    consumed since the start of the match. *)
Fixpoint rep_greedy (a : atom) (lo : nat) (hi : option nat) (s : pystr) (n : nat)
    (k : pystr -> nat -> option mobj) {struct s} : option mobj :=
  let stop := match lo with O => k s n | S _ => None end in
  match s with
  | c :: s' =>
      if atom_match a c && may_repeat hi then
        match rep_greedy a (Nat.pred lo) (Nat.pred <$> hi) s' (S n) k with
        | Some m => Some m
        | None => stop
        end
      else stop
  | [] => stop
  end.

(** Lazy repetition: try the rest of the pattern first, take one more
    character only when that fails. *)
Fixpoint rep_lazy (a : atom) (lo : nat) (hi : option nat) (s : pystr) (n : nat)
    (k : pystr -> nat -> option mobj) {struct s} : option mobj :=
  let more :=
    match s with
    | c :: s' =>
        if atom_match a c && may_repeat hi
        then rep_lazy a (Nat.pred lo) (Nat.pred <$> hi) s' (S n) k
        else None
    | [] => None
    end in
  match lo with
  | O => match k s n with Some m => Some m | None => more end
  | S _ => more
  end.

(** The backtracking matcher, in continuation-passing style:
    [run r s n g k] matches [r] at the start of [s], [n] characters into
    the match and with group 1 currently [g], and hands the remaining
    text, the new position and the group to [k]; alternatives are tried
    in the order of the pattern, the first overall success wins. *)
Fixpoint run (r : regex) (s : pystr) (n : nat) (g : option pystr)
    (k : pystr -> nat -> option pystr -> option mobj) : option mobj :=
  match r with
  | Empty => k s n g
  | Atom a =>
      match s with
      | c :: s' => if atom_match a c then k s' (S n) g else None
      | [] => None
      end
  | Cat r1 r2 => run r1 s n g (fun s' n' g' => run r2 s' n' g' k)
  | Alt r1 r2 =>
      match run r1 s n g k with
      | Some m => Some m
      | None => run r2 s n g k
      end
  | Opt r1 =>
      match run r1 s n g k with
      | Some m => Some m
      | None => k s n g
      end
  | Rep a lo hi true => rep_greedy a lo hi s n (fun s' n' => k s' n' g)
  | Rep a lo hi false => rep_lazy a lo hi s n (fun s' n' => k s' n' g)
  | Grp r1 => run r1 s n g (fun s' n' _ => k s' n' (Some (take (n' - n) s)))
  end.

(** [pattern.match]: a match anchored at the start of [s]. *)
Definition match_at (r : regex) (s : pystr) : option mobj :=
  run r s 0 None
    (fun s' n g => Some {| group0 := take n s; group1 := g; rest := s' |}).

(** [re.search]: the match at the leftmost position that has one. *)
Fixpoint search (r : regex) (s : pystr) : option mobj :=
  match match_at r s with
  | Some m => Some m
  | None => match s with
            | [] => None
            | _ :: s' => search r s'
            end
  end.

(** [re.findall] for a pattern without capturing groups: the texts of
    the successive non-overlapping matches, from the left. [skip] counts
    the characters of the last match still to be passed over. *)
Fixpoint findall_from (r : regex) (s : pystr) (skip : nat) : list pystr :=
  match skip with
  | S n => match s with
           | [] => []
           | _ :: s' => findall_from r s' n
           end
  | O =>
      match match_at r s with
      | Some m =>
          group0 m ::
            match s with
            | [] => []
            | _ :: s' => findall_from r s' (Nat.pred (length (group0 m)))
            end
      | None =>
          match s with
          | [] => []
          | _ :: s' => findall_from r s' 0
          end
      end
  end.

Definition findall (r : regex) (s : pystr) : list pystr := findall_from r s 0.

(** [re.sub(p, repl, s)] for a one-character pattern [p]: every
    character that matches is replaced by [repl]. *)
Definition sub (a : atom) (repl s : pystr) : pystr :=
  flat_map (fun c => if atom_match a c then repl else [c]) s.

End Matcher.

(** *** Pattern syntax helpers *)

Fixpoint cat (rs : list regex) : regex :=
  match rs with
  | [] => Empty
  | [r] => r
  | r :: rs' => Cat r (cat rs')
  end.

Fixpoint alt (rs : list regex) : regex :=
  match rs with
  | [] => Empty
  | [r] => r
  | r :: rs' => Alt r (alt rs')
  end.

(** A literal run of characters. *)
Definition lit (s : string) : regex := cat (List.map (fun c => Atom (Lit c)) (py s)).

Definition chr (c : string) : codepoint := List.hd 0%Z (py c).

Definition star (a : atom) : regex := Rep a 0 None true.
Definition plus (a : atom) : regex := Rep a 1 None true.
Definition star_lazy (a : atom) : regex := Rep a 0 None false.
Definition times (a : atom) (lo hi : nat) : regex := Rep a lo (Some hi) true.
Definition at_least (a : atom) (lo : nat) : regex := Rep a lo None true.

Definition d : atom := Set_ false [IDigit].      (* \d *)
Definition sp : atom := Set_ false [ISpace].     (* \s *)
Definition w : atom := Set_ false [IWord].       (* \w *)

(** *** What a pattern matches

    The relation the backtracking matcher is sound for (see [run_sound]). *)

Section Semantics.
Variable fl : flags.

Definition within (hi : option nat) (n : nat) : Prop :=
  match hi with Some h => n <= h | None => True end.

(** [matches r g t g']: the pattern [r] can consume exactly [t], turning
    group 1 from [g] into [g']. *)
Inductive matches : regex -> option pystr -> pystr -> option pystr -> Prop :=
| M_Empty g : matches Empty g [] g
| M_Atom a c g : atom_match fl a c = true -> matches (Atom a) g [c] g
| M_Cat r1 r2 g g1 g2 t1 t2 :
    matches r1 g t1 g1 -> matches r2 g1 t2 g2 -> matches (Cat r1 r2) g (t1 ++ t2) g2
| M_Alt_l r1 r2 g t g' : matches r1 g t g' -> matches (Alt r1 r2) g t g'
| M_Alt_r r1 r2 g t g' : matches r2 g t g' -> matches (Alt r1 r2) g t g'
| M_Opt_some r g t g' : matches r g t g' -> matches (Opt r) g t g'
| M_Opt_none r g : matches (Opt r) g [] g
| M_Rep a lo hi greedy t g :
    Forall (fun c => atom_match fl a c = true) t -> lo <= length t -> within hi (length t) ->
    matches (Rep a lo hi greedy) g t g
| M_Grp r g t g' : matches r g t g' -> matches (Grp r) g t (Some t).

(** Patterns whose last component is the capturing group, which then
    holds a text satisfying [P]. *)
Inductive ends_in_group (P : pystr -> Prop) : regex -> Prop :=
| E_Grp r : (forall g t g', matches r g t g' -> P t) -> ends_in_group P (Grp r)
| E_Cat r1 r2 : ends_in_group P r2 -> ends_in_group P (Cat r1 r2).

End Semantics.

End Re.

(** ** Exceptions *)

Inductive exn := ValueError | KeyError | TypeError | AttributeError.

(** The outcome of evaluating a Python expression: a value, or a raised
    exception. *)
Inductive res (A : Type) :=
| Ok (a : A)
| Raise (e : exn).

Arguments Ok {A} a.
Arguments Raise {A} e.

#[global] Instance res_ret : MRet res := fun A a => Ok a.

#[global] Instance res_bind : MBind res := fun A B f m =>
  match m with
  | Ok a => f a
  | Raise e => Raise e
  end.

(** [try: body  except: handler] with a bare [except]. *)
Definition try_except {A : Type} (body : res A) (handler : res A) : res A :=
  match body with
  | Ok a => Ok a
  | Raise _ => handler
  end.

(** ** [float]: IEEE-754 binary64 *)

Module Float.

Local Open Scope Z_scope.

Definition prec : Z := 53.
Definition emax : Z := 1024.

Definition float := spec_float.

Definition mul : float -> float -> float := SFmul prec emax.
Definition leb : float -> float -> bool := SFleb.

(** [bool(x)] for a float: [x != 0.0]. *)
Definition nonzero (x : float) : bool :=
  match x with
  | S754_zero _ => false
  | _ => true
  end.

(** Identity of representations. *)
Definition same (x y : float) : bool :=
  match x, y with
  | S754_zero a, S754_zero b => Bool.eqb a b
  | S754_infinity a, S754_infinity b => Bool.eqb a b
  | S754_nan, S754_nan => true
  | S754_finite a m e, S754_finite b m' e' => Bool.eqb a b && (m =? m')%positive && (e =? e')
  | _, _ => false
  end.

(** The binary64 number nearest to [n / d] (ties to even), for
    non-negative [n] and positive [d]. *)
Definition of_ratio (n d : Z) : float :=
  match n, d with
  | Zpos n', Zpos d' => SFdiv prec emax (S754_finite false n' 0) (S754_finite false d' 0)
  | _, _ => S754_zero false
  end.

(** *** [float(s)] on strings of decimal digits and dots

    [normalizar_importe] only ever hands such strings to [float]
    (see [limpiar_chars] below).  On them [float] accepts
    [digits], [digits.], [.digits] and [digits.digits], and the result is
    the correctly rounded value of the decimal numeral; anything else is a
    [ValueError]. *)

Definition digits_value (ds : pystr) : Z :=
  fold_left (fun acc c => 10 * acc + Unicode.decimal_value c) ds 0.

Fixpoint split_dot (s : pystr) : pystr * option pystr :=
  match s with
  | [] => ([], None)
  | c :: s' =>
      if c =? 46 then ([], Some s')
      else let '(a, b) := split_dot s' in (c :: a, b)
  end.

Definition of_decimal (ip fp : pystr) : float :=
  of_ratio (digits_value (ip ++ fp)) (10 ^ Z.of_nat (length fp)).

Definition of_str (s : pystr) : res float :=
  let '(ip, fp) := split_dot s in
  let fp := default [] fp in
  if forallb Unicode.is_decimal ip && forallb Unicode.is_decimal fp
     && negb (Nat.eqb (length (ip ++ fp)) 0)
  then Ok (of_decimal ip fp)
  else Raise ValueError.

(** Float literals of the source. *)
Definition lit_0_7 : float := of_ratio 7 10.
Definition lit_0_95 : float := of_ratio 95 100.

(** *** [str(x)] / [repr(x)]

    CPython prints the shortest decimal numeral that reads back as [x]
    (the closest to [x] among those of that length, and of two equally
    close ones the one with an even last digit), in positional
    notation when the position [decpt] of the decimal point satisfies
    [-4 < decpt <= 16] and in exponent notation otherwise. *)

(** Decimal digits of a natural number, least significant first. *)
Fixpoint digits_rev (fuel : nat) (z : Z) : list Z :=
  match fuel with
  | O => []
  | S fuel' => if z <? 10 then [z] else (z mod 10) :: digits_rev fuel' (z / 10)
  end.

Fixpoint drop_zeros (ds : list Z) : list Z :=
  match ds with
  | 0 :: ds' => drop_zeros ds'
  | _ => ds
  end.

Definition digit_chars (ds : list Z) : pystr := List.map (fun v => 48 + v) ds.

Definition uses_exponent (decpt : Z) : bool := (decpt <=? -4) || (16 <? decpt).

(** A numeral is given by its significant digits [ds], most significant
    first, and the position [decpt] of the decimal point: its value is
    [0.ds * 10^decpt]. *)
Definition format_positional (ds : list Z) (decpt : Z) : pystr :=
  let nd := Z.of_nat (length ds) in
  if decpt <=? 0 then
    [48; 46] ++ digit_chars (repeat 0 (Z.to_nat (- decpt))) ++ digit_chars ds
  else if nd <=? decpt then
    digit_chars ds ++ digit_chars (repeat 0 (Z.to_nat (decpt - nd))) ++ [46; 48]
  else
    digit_chars (take (Z.to_nat decpt) ds) ++ [46] ++ digit_chars (drop (Z.to_nat decpt) ds).

Definition format_exponent (ds : list Z) (decpt : Z) : pystr :=
  let ex := decpt - 1 in
  let eds := rev (digits_rev (S (Z.to_nat (Z.log2 (Z.abs ex)))) (Z.abs ex)) in
  let eds := if (length eds <? 2)%nat then 0 :: eds else eds in
  digit_chars (take 1 ds)
  ++ (match drop 1 ds with [] => [] | tl => 46 :: digit_chars tl end)
  ++ [101] ++ [if ex <? 0 then 45 else 43] ++ digit_chars eds.

(** A finite positive value [m * 2^e] as a fraction. *)
Definition numer (m : positive) (e : Z) : Z := if 0 <=? e then Zpos m * 2 ^ e else Zpos m.
Definition denom (e : Z) : Z := if 0 <=? e then 1 else 2 ^ (- e).

(** [n / d < 10^k] *)
Definition below_pow10 (n d k : Z) : bool :=
  if 0 <=? k then n <? d * 10 ^ k else n * 10 ^ (- k) <? d.

(** The least [k >= k0] with [n / d < 10^k]. *)
Fixpoint find_decpt (n d k0 : Z) (fuel : nat) : Z :=
  match fuel with
  | O => k0
  | S fuel' => if below_pow10 n d k0 then k0 else find_decpt n d (k0 + 1) fuel'
  end.

(** A starting point for that search: with [x = log2 n - log2 d - 1] the
    value is at least [2^x], and [2^x >= 10^(3x/10)] for [x >= 0],
    [2^x >= 10^(31x/100)] for [x < 0]. *)
Definition decpt_lower_bound (n d : Z) : Z :=
  let x := Z.log2 n - Z.log2 d - 1 in
  Z.min (3 * x / 10) (31 * x / 100) - 1.

(** The numeral with the [nd]-digit integer [D] as digits and the decimal
    point at [k]; trailing zeros are dropped, and a [D] that has grown to
    [nd + 1] digits moves the decimal point. *)
Definition numeral (D nd k : Z) : list Z * Z :=
  let ds := digits_rev (S (Z.to_nat (Z.log2 D))) D in
  (rev (drop_zeros ds), k + (Z.of_nat (length ds) - nd)).

(** [float] of the numeral, written out in positional notation, is [x]. *)
Definition reads_back (x : float) (num : list Z * Z) : bool :=
  match of_str (format_positional (fst num) (snd num)) with
  | Ok y => same y x
  | Raise _ => false
  end.

(** The two [nd]-digit integers next to [n / d * 10^(nd - k)], the closer
    one first; when the value lies half way between them, the even one
    first. *)
Definition neighbours (n d k nd : Z) : Z * Z :=
  let j := nd - k in
  let a := n * 10 ^ Z.max j 0 in
  let b := d * 10 ^ Z.max (- j) 0 in
  let q := a / b in
  let r := a mod b in
  if 2 * r <? b then (q, q + 1)
  else if (2 * r =? b) && Z.even q then (q, q + 1)
  else (q + 1, q).

(** The [nd]-digit numeral for [x = n / d], if one reads back as [x]. *)
Definition candidate (x : float) (n d k nd : Z) : option (list Z * Z) :=
  let '(c1, c2) := neighbours n d k nd in
  if reads_back x (numeral c1 nd k) then Some (numeral c1 nd k)
  else if reads_back x (numeral c2 nd k) then Some (numeral c2 nd k)
  else None.

Fixpoint shortest_from (x : float) (n d k nd : Z) (fuel : nat) : list Z * Z :=
  match fuel with
  | O => numeral (fst (neighbours n d k nd)) nd k
  | S fuel' =>
      match candidate x n d k nd with
      | Some num => num
      | None => shortest_from x n d k (nd + 1) fuel'
      end
  end.

(** CPython never needs more than 17 digits; the search is bounded here
    by the length of the exact decimal expansion of [m * 2^e], at which
    the numeral is the value itself. *)
Definition digits_bound (k e : Z) : nat := Z.to_nat (Z.max 17 (k + Z.max 0 (- e))).

(** Digits and decimal point position of the shortest numeral for the
    finite positive float [x = m * 2^e]. *)
Definition shortest_digits (x : float) (m : positive) (e : Z) : list Z * Z :=
  let n := numer m e in
  let d := denom e in
  let k := find_decpt n d (decpt_lower_bound n d) 40 in
  shortest_from x n d k 1 (digits_bound k e).

Definition sign_chars (s : bool) : pystr := if s then [45] else [].

(** [str(x)] *)
Definition to_str (x : float) : pystr :=
  match x with
  | S754_nan => py "nan"
  | S754_infinity s => sign_chars s ++ py "inf"
  | S754_zero s => sign_chars s ++ py "0.0"
  | S754_finite s m e =>
      let '(ds, decpt) := shortest_digits (S754_finite false m e) m e in
      sign_chars s ++
        (if uses_exponent decpt then format_exponent ds decpt
         else format_positional ds decpt)
  end.

(** [str(x)] is written without exponent, sign or letters. *)
Definition positional (x : float) : bool :=
  match x with
  | S754_zero false => true
  | S754_finite false m e => negb (uses_exponent (snd (shortest_digits x m e)))
  | _ => false
  end.

End Float.

(** ** extractor.py *)

Module Extractor.

Import Re.

(** Values stored in the dictionaries of the program. *)
Inductive pyval :=
| VNone
| VStr (s : pystr)
| VFloat (x : Float.float).

(** Truth value of an object in a condition. *)
Definition truthy (v : pyval) : bool :=
  match v with
  | VNone => false
  | VStr s => negb (Nat.eqb (length s) 0)
  | VFloat x => Float.nonzero x
  end.

Definition of_opt_str (o : option pystr) : pyval :=
  match o with Some s => VStr s | None => VNone end.

Definition of_opt_float (o : option Float.float) : pyval :=
  match o with Some x => VFloat x | None => VNone end.

(** [str(o)] for a string or [None]. *)
Definition str_of (o : option pystr) : pystr :=
  match o with Some s => s | None => py "None" end.

(** [re.sub(p, repl, o)]: a [TypeError] when [o] is [None]. *)
Definition re_sub (a : atom) (repl : pystr) (o : option pystr) : res pystr :=
  match o with
  | Some s => Ok (Re.sub no_flags a repl s)
  | None => Raise TypeError
  end.

(** [d[k]] *)
Definition getitem (d : gmap string pyval) (k : string) : res pyval :=
  match d !! k with
  | Some v => Ok v
  | None => Raise KeyError
  end.

(** [c * v] for a float [c]. *)
Definition mul_float (c : Float.float) (v : pyval) : res Float.float :=
  match v with
  | VFloat x => Ok (Float.mul c x)
  | _ => Raise TypeError
  end.

(** [for a in l: s = f(s, a)] *)
Fixpoint for_each {A S : Type} (f : S -> A -> res S) (l : list A) (s : S) : res S :=
  match l with
  | [] => Ok s
  | a :: l' => s' ← f s a; for_each f l' s'
  end.

(** *** Normalisers *)

(** [re.sub(r'[^\w\-]', '', str(numero).strip()) if numero else ""] *)
Definition normalizar_numero (numero : option pystr) : res pystr :=
  if truthy (of_opt_str numero)
  then re_sub (Set_ true [IWord; IChar (chr "-")]) []
              (Some (Str.strip (str_of numero)))
  else Ok [].

(** [re.sub(r'[^\d/.-]', '', fecha)[:10]], or [""] when [not fecha]. *)
Definition normalizar_fecha (fecha : option pystr) : res pystr :=
  if negb (truthy (of_opt_str fecha)) then Ok []
  else
    fecha ← re_sub (Set_ true [IDigit; IChar (chr "/"); IChar (chr "."); IChar (chr "-")])
                   [] fecha;
    Ok (Str.slice_first 10 fecha).

(** The two substitutions of [normalizar_importe]: drop the characters of
    [[€EUR\s€]] from the stripped text, turn commas into dots, drop what is
    neither a digit, a dot nor a comma. *)
Definition limpiar (importe : option pystr) : res pystr :=
  importe ← re_sub (Set_ false [IChar 8364%Z; IChar (chr "E"); IChar (chr "U");
                                 IChar (chr "R"); ISpace; IChar 8364%Z])
                   [] (Some (Str.strip (str_of importe)));
  re_sub (Set_ true [IDigit; IChar (chr "."); IChar (chr ",")]) []
         (Some (Str.replace (py ",") (py ".") importe)).

Definition normalizar_importe (importe : option pystr) : res (option Float.float) :=
  if negb (truthy (of_opt_str importe)) then Ok None
  else
    importe ← limpiar importe;
    try_except (x ← Float.of_str importe; Ok (Some x)) (Ok None).

(** *** extraer_importes_universal *)

Definition I_S : flags := {| IGNORECASE := true; DOTALL := true |}.

Definition set_punct : atom :=            (* [:\-\(\)] *)
  Set_ false [IChar (chr ":"); IChar (chr "-"); IChar (chr "("); IChar (chr ")")].

Definition set_num : atom :=              (* [\d.,] *)
  Set_ false [IDigit; IChar (chr "."); IChar (chr ",")].

(** [\s*[:\-\(\)]*\s*([\d.,]+)], the common tail of the labelled patterns. *)
Definition valor_tras_etiqueta : regex :=
  cat [star sp; star set_punct; star sp; Grp (plus set_num)].

(** [.*?([\d.,]+)] *)
Definition valor_mas_adelante : regex :=
  cat [star_lazy Dot; Grp (plus set_num)].

(** [[\d.,]{3,}(?:[.,]\d{2})?] *)
Definition patron_importes : regex :=
  cat [at_least set_num 3;
       Opt (cat [Atom (Set_ false [IChar (chr "."); IChar (chr ",")]); times d 2 2])].

Definition patrones_universal : list (regex * string) :=
  [ (* (?:Total\s*(?:factura|a pagar|final|en EUR)?|TOTAL|Importe total)
       \s*[:\-\(\)]*\s*([\d.,]+) *)
    (cat [alt [cat [lit "Total"; star sp;
                    Opt (alt [lit "factura"; lit "a pagar"; lit "final"; lit "en EUR"])];
               lit "TOTAL";
               lit "Importe total"];
          valor_tras_etiqueta], "total");
    (* TOTAL\s*[:\-\(\)]*\s*([\d.,]+) *)
    (cat [lit "TOTAL"; valor_tras_etiqueta], "total");
    (* (?:Base\s*(?:imponible|imp\.?)|Subtotal|Neto?|IMPORTE\s*\(base imponible\))
       \s*[:\-\(\)]*\s*([\d.,]+) *)
    (cat [alt [cat [lit "Base"; star sp;
                    alt [lit "imponible"; cat [lit "imp"; Opt (lit ".")]]];
               lit "Subtotal";
               cat [lit "Net"; Opt (lit "o")];
               cat [lit "IMPORTE"; star sp; lit "(base imponible)"]];
          valor_tras_etiqueta], "base_imponible");
    (* base imponible\).*?([\d.,]+) *)
    (cat [lit "base imponible)"; valor_mas_adelante], "base_imponible");
    (* (?:IVA?|I\.V\.A\.?|IMPUESTOS\s*\(21|Impuesto|Cuota IVA)
       \s*[:\-\(\)]*\s*([\d.,]+) *)
    (cat [alt [cat [lit "IV"; Opt (lit "A")];
               cat [lit "I.V.A"; Opt (lit ".")];
               cat [lit "IMPUESTOS"; star sp; lit "(21"];
               lit "Impuesto";
               lit "Cuota IVA"];
          valor_tras_etiqueta], "iva");
    (* \(21(?:\.00)?%?\s*IVA?\).*?([\d.,]+) *)
    (cat [lit "(21"; Opt (lit ".00"); Opt (lit "%"); star sp;
          lit "IV"; Opt (lit "A"); lit ")"; valor_mas_adelante], "iva");
    (* I\.V\.A\..*?([\d.,]+) *)
    (cat [lit "I.V.A."; valor_mas_adelante], "iva")
  ].

(** [[normalizar_importe(x) for x in todos_importes if normalizar_importe(x)]] *)
Fixpoint normalizar_todos (todos_importes : list pystr) : res (list Float.float) :=
  match todos_importes with
  | [] => Ok []
  | x :: xs =>
      cond ← normalizar_importe (Some x);
      if truthy (of_opt_float cond) then
        v ← normalizar_importe (Some x);
        vs ← normalizar_todos xs;
        Ok (match v with Some imp => imp :: vs | None => vs end)
      else normalizar_todos xs
  end.

(** The body of the loop over [patrones_universal]. *)
Definition paso (zona_resumen : pystr) (resultado : gmap string pyval)
    (pc : regex * string) : res (gmap string pyval) :=
  let '(patron, campo) := pc in
  match Re.search I_S patron zona_resumen with
  | None => Ok resultado
  | Some m =>
      actual ← getitem resultado campo;
      if negb (truthy actual) then
        valor ← normalizar_importe (group1 m);
        if truthy (of_opt_float valor)
        then Ok (<[campo := of_opt_float valor]> resultado)
        else Ok resultado
      else Ok resultado
  end.

Definition resultado_inicial : gmap string pyval :=
  <["total" := VNone]> (<["base_imponible" := VNone]> (<["iva" := VNone]> ∅)).

Definition aplicar_patrones (zona_resumen : pystr) : res (gmap string pyval) :=
  for_each (paso zona_resumen) patrones_universal resultado_inicial.

(** [0.7 * resultado['total'] <= imp <= 0.95 * resultado['total']] *)
Definition en_banda (resultado : gmap string pyval) (imp : Float.float) : res bool :=
  total ← getitem resultado "total";
  lo ← mul_float Float.lit_0_7 total;
  if Float.leb lo imp then
    total ← getitem resultado "total";
    hi ← mul_float Float.lit_0_95 total;
    Ok (Float.leb imp hi)
  else Ok false.

(** [for imp in importes_normalizados: if ...: resultado[...] = imp; break] *)
Fixpoint buscar_base (importes : list Float.float) (resultado : gmap string pyval)
    : res (gmap string pyval) :=
  match importes with
  | [] => Ok resultado
  | imp :: rest =>
      b ← en_banda resultado imp;
      if b : bool then Ok (<["base_imponible" := VFloat imp]> resultado)
      else buscar_base rest resultado
  end.

Definition fallback (importes_normalizados : list Float.float)
    (resultado : gmap string pyval) : res (gmap string pyval) :=
  total ← getitem resultado "total";
  if truthy total then
    base ← getitem resultado "base_imponible";
    if negb (truthy base) then buscar_base importes_normalizados resultado
    else Ok resultado
  else Ok resultado.

Definition zona_resumen (texto : pystr) : pystr := Str.slice_last 3000 texto.

Definition importes_normalizados (texto : pystr) : res (list Float.float) :=
  normalizar_todos (Re.findall no_flags patron_importes (zona_resumen texto)).

Definition extraer_importes_universal (texto : pystr) : res (gmap string pyval) :=
  importes ← importes_normalizados texto;
  resultado ← aplicar_patrones (zona_resumen texto);
  fallback importes resultado.

(** *** extraer_datos_factura_completo *)

Definition set_sep : atom := Set_ false [IChar (chr ":"); IChar (chr "-")].   (* [:\-] *)

(** [N(?:\.°|º)?\s*de?\s*factura\s*[:\-]?\s*(\w+)] *)
Definition patron_numero_1 : regex :=
  cat [lit "N"; Opt (alt [cat [lit "."; Atom (Lit 176%Z)]; Atom (Lit 186%Z)]); star sp;
       lit "d"; Opt (lit "e"); star sp; lit "factura"; star sp;
       Opt (Atom set_sep); star sp; Grp (plus w)].

(** [Número\s*[:\-]?\s*(\w+)] *)
Definition patron_numero_2 : regex :=
  cat [lit "N"; Atom (Lit 250%Z); lit "mero"; star sp; Opt (Atom set_sep); star sp;
       Grp (plus w)].

(** [Factura[:\-]?\s*(\w+)] *)
Definition patron_numero_3 : regex :=
  cat [lit "Factura"; Opt (Atom set_sep); star sp; Grp (plus w)].

(** [Fecha\s+de?\s*(?:factura|facturación|emisión)\s*[:\-]?\s*([\d/\.-]{8,10})] *)
Definition patron_fecha : regex :=
  cat [lit "Fecha"; plus sp; lit "d"; Opt (lit "e"); star sp;
       alt [lit "factura";
            cat [lit "facturaci"; Atom (Lit 243%Z); lit "n"];
            cat [lit "emisi"; Atom (Lit 243%Z); lit "n"]];
       star sp; Opt (Atom set_sep); star sp;
       Grp (times (Set_ false [IDigit; IChar (chr "/"); IChar (chr "."); IChar (chr "-")])
                  8 10)].

(** The non-capturing alternation of [CIF], [NIF] and [IVA:\s*], followed by
    the group [([A-Z]\d{8}[A-Z]?)]. *)
Definition patron_nif : regex :=
  cat [alt [lit "CIF"; lit "NIF"; cat [lit "IVA:"; star sp]];
       Grp (cat [Atom (Set_ false [IRange (chr "A") (chr "Z")]); times d 8 8;
                 Opt (Atom (Set_ false [IRange (chr "A") (chr "Z")]))])].

Definition I_only : flags := {| IGNORECASE := true; DOTALL := false |}.

(** [a or b] on match objects (a match object is always true). *)
Definition or_else (a b : option mobj) : option mobj :=
  match a with Some m => Some m | None => b end.

Definition numero_match (texto : pystr) : option mobj :=
  or_else (Re.search no_flags patron_numero_1 texto)
    (or_else (Re.search no_flags patron_numero_2 texto)
             (Re.search no_flags patron_numero_3 texto)).

(** [x[:50]]: a [TypeError] when [x] is [None]. *)
Definition slice_first_opt (n : nat) (o : option pystr) : res pystr :=
  match o with
  | Some s => Ok (Str.slice_first n s)
  | None => Raise TypeError
  end.

Definition datos_inicial (nombre_fichero : pystr) : gmap string pyval :=
  <["numero_factura" := VStr []]> (<["fecha_factura" := VStr []]>
  (<["proveedor" := VStr []]> (<["cliente" := VStr []]>
  (<["base_imponible" := VNone]> (<["iva" := VNone]> (<["total" := VNone]>
  (<["nombre_fichero" := VStr nombre_fichero]> ∅))))))).

Definition extraer_datos_factura_completo (texto nombre_fichero : pystr)
    : res (gmap string pyval) :=
  let datos := datos_inicial nombre_fichero in
  numero ←
    match numero_match texto with
    | Some m => normalizar_numero (group1 m)
    | None => Ok (Str.replace (py ".pdf") [] nombre_fichero)
    end;
  let datos := <["numero_factura" := VStr numero]> datos in
  fecha ←
    match Re.search no_flags patron_fecha texto with
    | Some m => normalizar_fecha (group1 m)
    | None => Ok []
    end;
  let datos := <["fecha_factura" := VStr fecha]> datos in
  importes ← extraer_importes_universal texto;
  let datos := importes ∪ datos in          (* datos.update(importes) *)
  proveedor ←
    match Re.search I_only patron_nif texto with
    | Some m => slice_first_opt 50 (group1 m)
    | None => Ok []
    end;
  let datos := <["proveedor" := VStr proveedor]> datos in
  Ok datos.

(** *** extraer_texto_completo

    PyMuPDF is not part of the program, so what it makes of a file is
    given: [fitz.open] raises or returns a document; going through the
    document gives its pages, [get_text] of a page raises or returns a
    text, and [close] raises or returns. *)
Record documento := { paginas : list (res pystr); close : res unit }.

(** [for page in doc: texto += page.get_text() + "\n"] *)
Fixpoint leer (paginas : list (res pystr)) (texto : pystr) : res pystr :=
  match paginas with
  | [] => Ok texto
  | get_text :: resto => t ← get_text; leer resto (texto ++ t ++ [10%Z])
  end.

Definition extraer_texto_completo (PYMUPDF_AVAILABLE : bool) (fitz_open : res documento)
    : res pystr :=
  if negb PYMUPDF_AVAILABLE then Ok []
  else
    try_except
      (doc ← fitz_open;
       texto ← leer (paginas doc) [];
       _ ← close doc;
       Ok texto)
      (Ok []).

(** *** main

    What lies outside the program is given as an environment: whether
    PyMuPDF was imported, what [parse_args] makes of the command line, the
    console behind [print], the folder and pandas. The exceptions that
    come from there are not told apart: [Raise e] stands for whatever is
    raised.

    [parse_args] returns the arguments or raises (SystemExit when the
    folder argument is missing, or on [--help]). The console takes a text or raises, for
    instance UnicodeEncodeError, a ValueError, on a file name or an emoji it
    cannot encode; what it does may depend on what was printed before.
    [carpeta.glob] gives the files of the folder in the order of the
    iterator, each with its name and what PyMuPDF makes of it, or raises.
    What the program does with the rows from the table on (the CSV file, the
    statistics and the two messages about them) is [exportar]. *)
Record pdf_path := { name : pystr; fitz_open : res documento }.

Record argumentos := { carpeta_pdf : pystr; output : option pystr }.

Record entorno := {
  PYMUPDF_AVAILABLE : bool;
  parse_args : res argumentos;
  consola : list pystr -> pystr -> res unit;
  glob : pystr -> res (list pdf_path);
  exportar : argumentos -> list (gmap string pyval) -> nat -> list pystr -> res unit
}.

(** [print(texto)], after the texts [impreso]. *)
Definition print (e : entorno) (impreso : list pystr) (texto : pystr) : res (list pystr) :=
  _ ← consola e impreso texto; Ok (impreso ++ [texto]).

(** The texts of the messages, with the line break or the blank that ends
    them. *)
Definition mensaje_inicio : pystr :=
  128640%Z :: py " Extractor v5.0 - UNIVERSAL (DIGI/GOOGLE/IONOS)" ++ [10%Z].

Definition mensaje_fichero (nombre : pystr) : pystr :=
  py "  " ++ [128196%Z; 32%Z] ++ nombre ++ [32%Z].

Definition mensaje_vacio : pystr := [10060%Z; 10%Z].

Definition mensaje_leido : pystr := [9989%Z; 10%Z].

Definition mensaje_sin_validos : pystr :=
  10060%Z :: py " No PDFs v" ++ [225%Z] ++ py "lidos" ++ [10%Z].

(** One turn of the loop, on [(filas, procesados)] and the texts printed. *)
Definition vuelta (e : entorno) (estado : list (gmap string pyval) * nat * list pystr)
    (pdf : pdf_path) : res (list (gmap string pyval) * nat * list pystr) :=
  let '(filas, procesados, impreso) := estado in
  impreso ← print e impreso (mensaje_fichero (name pdf));
  let procesados := procesados + 1 in
  texto ← extraer_texto_completo (PYMUPDF_AVAILABLE e) (fitz_open pdf);
  if negb (truthy (VStr (Str.strip texto))) then
    impreso ← print e impreso mensaje_vacio;
    Ok (filas, procesados, impreso)
  else
    impreso ← print e impreso mensaje_leido;
    datos ← extraer_datos_factura_completo texto (name pdf);
    Ok (filas ++ [datos], procesados, impreso).

Definition main (e : entorno) : res Z :=
  args ← parse_args e;
  impreso ← print e [] mensaje_inicio;
  pdfs ← glob e (carpeta_pdf args);
  estado ← for_each (vuelta e) pdfs ([], 0, impreso);
  let '(filas, procesados, impreso) := estado in
  match filas with
  | [] => _ ← print e impreso mensaje_sin_validos; Ok 1%Z
  | _ :: _ => _ ← exportar e args filas procesados impreso; Ok 0%Z
  end.

End Extractor.

(** * Vocabulary of the properties *)

Import Re Extractor.

(** The value [normalizar_importe] returns ([None] should it raise). *)
Definition valor_de (o : option pystr) : option Float.float :=
  match normalizar_importe o with
  | Ok v => v
  | Raise _ => None
  end.

(** What a token contributes to the list of candidate amounts. *)
Definition es_importe (o : option Float.float) : list Float.float :=
  match o with
  | Some x => if Float.nonzero x then [x] else []
  | None => []
  end.

(** The keys of the amounts dictionary. *)
Definition claves : gset string := {[ "total"; "base_imponible"; "iva" ]}.

(** A stored amount is [None] or a non-zero float. *)
Definition importe_valido (v : pyval) : Prop :=
  v = VNone \/ exists x, v = VFloat x /\ Float.nonzero x = true.

Definition bien_formado (r : gmap string pyval) : Prop :=
  dom r = claves /\ forall k v, r !! k = Some v -> importe_valido v.

Definition campos_validos (l : list (regex * string)) : Prop :=
  Forall (fun pc => snd pc ∈ claves) l.

(** [0.7 * t <= imp <= 0.95 * t] *)
Definition banda (t imp : Float.float) : bool :=
  Float.leb (Float.mul Float.lit_0_7 t) imp && Float.leb imp (Float.mul Float.lit_0_95 t).

(** A non-empty run of word characters. *)
Definition palabra (u : pystr) : Prop :=
  Forall (fun c => Unicode.is_word c = true) u /\ 1 <= length u.

(** The expression assigned to [datos['numero_factura']]. *)
Definition numero_de (texto nombre_fichero : pystr) : res pystr :=
  match numero_match texto with
  | Some m => normalizar_numero (group1 m)
  | None => Ok (Str.replace (py ".pdf") [] nombre_fichero)
  end.

(** ** Numbers *)

Section NumberVocabulary.
Local Open Scope Z_scope.

(** The exponent of the last binary digit of a binary64 number with [x]
    digits before the binary point. *)
Definition fexp64 (x : Z) : Z := SpecFloat.fexp Float.prec Float.emax x.

(** A float is well formed when it is a zero, an infinity, or a finite
    number with a canonical mantissa and an exponent in range. *)
Definition valid64 (sx : bool) (x : Float.float) : Prop :=
  match x with
  | S754_finite s m e => s = sx /\ SpecFloat.bounded Float.prec Float.emax m e = true
  | S754_nan => False
  | _ => True
  end.

(** Value of a list of digits, least significant first. *)
Definition val_rev (ds : list Z) : Z := fold_right (fun v acc => v + 10 * acc) 0 ds.

(** A decimal digit. *)
Definition digito (v : Z) : Prop := 0 <= v <= 9.

(** Value of a list of digits, most significant first. *)
Definition val (ds : list Z) : Z := fold_left (fun acc v => 10 * acc + v) ds 0.

End NumberVocabulary.

(** Characters of a numeral: decimal digits and the dot. *)
Definition cifra (c : codepoint) : Prop := Unicode.is_decimal c = true \/ c = 46%Z.

(** ** Scenarios of the specification *)

Definition nl : pystr := [10%Z].

(** One field of a returned dictionary. *)
Definition campo (k : string) (r : res (gmap string pyval)) : res (option pyval) :=
  d ← r; Ok (d !! k).

(** The float written [n / 10^k] in decimal. *)
Definition dec (n : Z) (k : nat) : Float.float := Float.of_ratio n (10 ^ Z.of_nat k).

Definition texto_escenario : pystr :=
  py "Factura: A123" ++ nl ++ py "Fecha de factura: 01/02/2024" ++ nl
  ++ py "Base imponible: 80,00" ++ nl ++ py "IVA: 16,80" ++ nl ++ py "Total: 96,80" ++ nl
  ++ py "CIF: B12345678".

Definition texto_total_85 : pystr := py "Total: 100,00" ++ nl ++ py "85,00".
Definition texto_total_50 : pystr := py "Total: 100,00" ++ nl ++ py "50,00".
Definition texto_dos_totales : pystr := py "Total: 100,00" ++ nl ++ py "TOTAL: 200,00".
Definition texto_total_cero : pystr := py "Total factura: 0,00" ++ nl ++ py "Total: 5,00".
Definition texto_sin_etiquetas : pystr := py "sin etiquetas".

(** A labelled total and a bare amount followed by 3000 blanks, and the
    same with 2980 blanks. *)
Definition texto_fuera_de_zona : pystr := py "Total: 100,00 85,00" ++ repeat 32%Z 3000.
Definition texto_dentro_de_zona : pystr := py "Total: 100,00 85,00" ++ repeat 32%Z 2980.

(** The keys of the record. *)
Definition claves_datos : gset string :=
  {[ "numero_factura"; "fecha_factura"; "proveedor"; "cliente";
     "base_imponible"; "iva"; "total"; "nombre_fichero" ]}.

(** A number or [None]. *)
Definition numero_o_none (v : pyval) : Prop :=
  match v with
  | VNone | VFloat _ => True
  | VStr _ => False
  end.

(** The specification's words for the fallback identifier: the filename
    with its extension removed, the extension being the last dot of the
    name and what follows it (a name that only starts with a dot has no
    extension). *)
Fixpoint tras_punto (s : pystr) : option pystr :=
  match s with
  | [] => None
  | c :: s' => if (c =? 46)%Z then Some s' else tras_punto s'
  end.

Definition sin_extension (nombre : pystr) : pystr :=
  match tras_punto (rev nombre) with
  | Some (c :: r) => rev (c :: r)
  | _ => nombre
  end.

(** ** Vocabulary of the further properties *)

(** What the clean-up of [normalizar_importe] keeps of one character: a
    comma becomes a dot, digits and dots stay, the rest goes. *)
Definition guarda (c : codepoint) : pystr :=
  if (c =? 44)%Z then [46%Z]
  else if Unicode.is_decimal c || (c =? 46)%Z then [c]
  else [].

Definition limpio (s : pystr) : pystr := flat_map guarda s.

(** Number of dots and commas of a text. *)
Definition separadores (s : pystr) : nat :=
  length (List.filter (fun c => (c =? 44)%Z || (c =? 46)%Z) s).

(** Characters that [normalizar_numero] keeps. *)
Definition de_numero (c : codepoint) : Prop := Unicode.is_word c = true \/ c = 45%Z.

(** Characters that [normalizar_fecha] keeps. *)
Definition de_fecha (c : codepoint) : Prop :=
  Unicode.is_decimal c = true \/ c = 47%Z \/ c = 46%Z \/ c = 45%Z.

(** [u] is a contiguous piece of [s]. *)
Definition trozo (u s : pystr) : Prop := exists a b, s = a ++ u ++ b.

(** Characters of the amounts the patterns capture. *)
Definition de_importe (c : codepoint) : Prop :=
  Unicode.is_decimal c = true \/ c = 46%Z \/ c = 44%Z.

(** A non-zero amount read by [normalizar_importe] from a run of digits,
    dots and commas of [zona]. *)
Definition leido_de (zona : pystr) (x : Float.float) : Prop :=
  Float.nonzero x = true
  /\ exists u : pystr, trozo u zona /\ Forall de_importe u
       /\ normalizar_importe (Some u) = Ok (Some x).

Definition leidos (zona : pystr) (r : gmap string pyval) : Prop :=
  forall k x, r !! k = Some (VFloat x) -> leido_de zona x.

(** Between 8 and 10 characters of a date. *)
Definition forma_fecha (u : pystr) : Prop :=
  8 <= length u <= 10 /\ Forall de_fecha u.

(** A letter, eight decimal digits and at most one more character. *)
Definition forma_nif (u : pystr) : Prop :=
  exists c ds cola, u = c :: ds ++ cola /\ length ds = 8
    /\ Forall (fun x => Unicode.is_decimal x = true) ds /\ length cola <= 1.

(** The text [main] gets for a file, and whether the file gives a row. *)
Definition texto_de (disponible : bool) (pdf : pdf_path) : pystr :=
  match extraer_texto_completo disponible (fitz_open pdf) with
  | Ok texto => texto
  | Raise _ => []
  end.

Definition con_texto (disponible : bool) (pdf : pdf_path) : bool :=
  truthy (VStr (Str.strip (texto_de disponible pdf))).

(** The row of a file. *)
Definition fila_de (disponible : bool) (pdf : pdf_path) (d : gmap string pyval) : Prop :=
  extraer_datos_factura_completo (texto_de disponible pdf) (name pdf) = Ok d
  /\ d !! "nombre_fichero" = Some (VStr (name pdf)).

Definition en_blanco (t : pystr) : Prop := Forall (fun c => Unicode.is_space c = true) t.

(** The record of a file (empty should the extraction raise). *)
Definition registro (disponible : bool) (pdf : pdf_path) : gmap string pyval :=
  match extraer_datos_factura_completo (texto_de disponible pdf) (name pdf) with
  | Ok d => d
  | Raise _ => ∅
  end.

(** The rows of a folder: the records of the files with text, in order. *)
Definition filas_de (disponible : bool) (pdfs : list pdf_path) : list (gmap string pyval) :=
  List.map (registro disponible) (List.filter (con_texto disponible) pdfs).

(** The messages of the loop: for each file its name, then its mark. *)
Definition mensajes (disponible : bool) (pdfs : list pdf_path) : list pystr :=
  flat_map (fun pdf => [mensaje_fichero (name pdf);
                        if con_texto disponible pdf then mensaje_leido else mensaje_vacio])
           pdfs.

(** A console that takes every text. *)
Definition admite_todo (e : entorno) : Prop :=
  forall impreso texto, consola e impreso texto = Ok tt.

(** * Properties *)

(** ** The normalisers always return *)


Lemma limpiar_ok o : exists s, limpiar o = Ok s.
Proof. unfold limpiar. simpl. eauto. Qed.

Lemma normalizar_importe_ok o : normalizar_importe o = Ok (valor_de o).
Proof.
  unfold valor_de, normalizar_importe.
  destruct (negb (truthy (of_opt_str o))); [reflexivity|].
  destruct (limpiar_ok o) as [s ->]. simpl.
  destruct (Float.of_str s); reflexivity.
Qed.

Lemma normalizar_numero_ok o : exists s, normalizar_numero o = Ok s.
Proof. unfold normalizar_numero. destruct (truthy _); simpl; eauto. Qed.

Lemma normalizar_fecha_ok o : exists s, normalizar_fecha o = Ok s.
Proof.
  unfold normalizar_fecha. destruct o as [s|]; simpl; [|eauto].
  destruct (negb _); simpl; eauto.
Qed.

(** ** The list of candidate amounts *)


Lemma normalizar_todos_ok xs :
  normalizar_todos xs = Ok (flat_map (fun x => es_importe (valor_de (Some x))) xs).
Proof.
  induction xs as [|x xs IH]; [reflexivity|].
  cbn [normalizar_todos flat_map].
  rewrite normalizar_importe_ok. cbn [mbind res_bind].
  destruct (valor_de (Some x)) as [v|]; cbn [of_opt_float truthy es_importe].
  - destruct (Float.nonzero v); rewrite IH; reflexivity.
  - rewrite IH. reflexivity.
Qed.


(** ** Invariant of the result dictionary *)




Lemma resultado_inicial_bien_formado : bien_formado resultado_inicial.
Proof.
  split.
  - unfold resultado_inicial, claves. rewrite !dom_insert_L, dom_empty_L. set_solver.
  - intros k v. unfold resultado_inicial.
    rewrite !lookup_insert. repeat case_decide; rewrite ?lookup_empty;
      intros [= <-] || discriminate; left; reflexivity.
Qed.

Lemma getitem_ok r k : bien_formado r -> k ∈ claves ->
  exists v, r !! k = Some v /\ getitem r k = Ok v /\ importe_valido v.
Proof.
  intros [Hd Hv] Hk. rewrite <- Hd in Hk. apply elem_of_dom in Hk as [v Hl].
  exists v. unfold getitem. rewrite Hl. eauto.
Qed.

Lemma bien_formado_insert r k x :
  bien_formado r -> k ∈ claves -> Float.nonzero x = true ->
  bien_formado (<[k := VFloat x]> r).
Proof.
  intros [Hd Hv] Hk Hx. split.
  - rewrite dom_insert_L, Hd.
    apply subseteq_union_1_L, singleton_subseteq_l, Hk.
  - intros k' v. rewrite lookup_insert. case_decide.
    + intros [= <-]. right. eauto.
    + apply Hv.
Qed.

Lemma truthy_importe_valido v :
  importe_valido v -> truthy v = true -> exists x, v = VFloat x /\ Float.nonzero x = true.
Proof. intros [-> | (x & -> & Hx)]; [discriminate | eauto]. Qed.

Lemma falsy_importe_valido v : importe_valido v -> truthy v = false -> v = VNone.
Proof. intros [-> | (x & -> & Hx)]; [reflexivity | simpl; congruence]. Qed.

(** One turn of the loop keeps the invariant, never replaces an amount
    already present, and touches no other field than its own. *)
Lemma paso_ok zona r patron campo :
  bien_formado r -> campo ∈ claves ->
  exists r', paso zona r (patron, campo) = Ok r' /\ bien_formado r'
    /\ (forall k x, r !! k = Some (VFloat x) -> r' !! k = Some (VFloat x))
    /\ (forall k, k <> campo -> r' !! k = r !! k).
Proof.
  intros Hr Hc. unfold paso.
  destruct (Re.search I_S patron zona) as [m|]; [|eauto 10].
  destruct (getitem_ok r campo Hr Hc) as (v & Hl & -> & Hv). cbn [mbind res_bind].
  destruct (truthy v) eqn:Ht; cbn [negb]; [eauto 10|].
  rewrite normalizar_importe_ok. cbn [mbind res_bind].
  destruct (truthy (of_opt_float (valor_de (group1 m)))) eqn:Hval; [|eauto 10].
  destruct (valor_de (group1 m)) as [x|]; [|discriminate]. simpl in Hval.
  eexists; split; [reflexivity|]. split; [|split].
  - apply bien_formado_insert; assumption.
  - intros k y Hk. rewrite lookup_insert. case_decide as Heq; [|assumption].
    subst k. rewrite Hl in Hk. injection Hk as ->.
    discriminate (falsy_importe_valido _ Hv Ht).
  - intros k Hk. rewrite lookup_insert_ne; [reflexivity | congruence].
Qed.


Lemma for_each_paso_ok zona l r :
  bien_formado r -> campos_validos l ->
  exists r', for_each (paso zona) l r = Ok r' /\ bien_formado r'
    /\ (forall k x, r !! k = Some (VFloat x) -> r' !! k = Some (VFloat x))
    /\ (forall k, Forall (fun pc => snd pc <> k) l -> r' !! k = r !! k).
Proof.
  intros Hr Hl. revert r Hr.
  induction Hl as [|[patron campo] l Hc Hl IH]; intros r Hr.
  - exists r. simpl. eauto.
  - destruct (paso_ok zona r patron campo Hr Hc) as (r1 & E1 & Hr1 & Hk1 & Ho1).
    destruct (IH r1 Hr1) as (r2 & E2 & Hr2 & Hk2 & Ho2).
    exists r2. cbn [for_each]. rewrite E1. cbn [mbind res_bind].
    split; [assumption|]. split; [assumption|]. split.
    + intros k x Hk. apply Hk2, Hk1, Hk.
    + intros k Hk. inversion Hk; subst.
      rewrite Ho2 by assumption. apply Ho1. simpl in *. congruence.
Qed.

Lemma for_each_app {A S : Type} (f : S -> A -> res S) l1 l2 s :
  for_each f (l1 ++ l2) s = (s' ← for_each f l1 s; for_each f l2 s').
Proof.
  revert s. induction l1 as [|a l1 IH]; intros s; [reflexivity|].
  cbn [for_each app]. destruct (f s a); cbn [mbind res_bind]; [apply IH | reflexivity].
Qed.

Lemma patrones_universal_validos : campos_validos patrones_universal.
Proof. unfold campos_validos, patrones_universal, claves. repeat constructor; set_solver. Qed.

Lemma aplicar_patrones_ok zona :
  exists r, aplicar_patrones zona = Ok r /\ bien_formado r.
Proof.
  destruct (for_each_paso_ok zona patrones_universal resultado_inicial
              resultado_inicial_bien_formado patrones_universal_validos)
    as (r & E & Hr & _).
  eauto.
Qed.


(** ** The coherence fallback *)


Lemma en_banda_ok r t imp :
  r !! "total" = Some (VFloat t) -> en_banda r imp = Ok (banda t imp).
Proof.
  intros Ht. unfold en_banda, getitem, banda. rewrite Ht. cbn [mbind res_bind mul_float].
  destruct (Float.leb _ imp); reflexivity.
Qed.

Lemma buscar_base_ok imps r t :
  r !! "total" = Some (VFloat t) ->
  buscar_base imps r =
    Ok (match List.find (banda t) imps with
        | Some v => <["base_imponible" := VFloat v]> r
        | None => r
        end).
Proof.
  intros Ht. induction imps as [|imp imps IH]; [reflexivity|].
  cbn [buscar_base List.find]. rewrite (en_banda_ok r t imp Ht). cbn [mbind res_bind].
  destruct (banda t imp); [reflexivity | apply IH].
Qed.

Lemma claves_total : "total" ∈ claves.
Proof. unfold claves. set_solver. Qed.

Lemma claves_base : "base_imponible" ∈ claves.
Proof. unfold claves. set_solver. Qed.

Lemma claves_iva : "iva" ∈ claves.
Proof. unfold claves. set_solver. Qed.

(** When the patterns left a total and no base, the base becomes the first
    candidate inside the band. *)
Lemma fallback_base imps r t :
  bien_formado r ->
  r !! "total" = Some (VFloat t) -> r !! "base_imponible" = Some VNone ->
  fallback imps r =
    Ok (match List.find (banda t) imps with
        | Some v => <["base_imponible" := VFloat v]> r
        | None => r
        end).
Proof.
  intros [_ Hv] Ht Hb. unfold fallback, getitem. rewrite Ht. cbn [mbind res_bind].
  destruct (Hv _ _ Ht) as [? | (x & [= <-] & Hx)]; [discriminate|].
  cbn [truthy]. rewrite Hx, Hb. cbn [mbind res_bind truthy negb].
  apply buscar_base_ok, Ht.
Qed.

(** In every case the fallback returns, keeps the three keys, keeps the
    amounts already found and can only change [base_imponible]. *)
Lemma fallback_ok imps r :
  bien_formado r ->
  exists d, fallback imps r = Ok d /\ dom d = claves
    /\ (forall k v, d !! k = Some v -> v = VNone \/ exists x, v = VFloat x)
    /\ (forall k x, r !! k = Some (VFloat x) -> d !! k = Some (VFloat x))
    /\ (forall k, k <> "base_imponible" -> d !! k = r !! k).
Proof.
  intros Hr.
  assert (Hsame : dom r = claves
    /\ (forall k v, r !! k = Some v -> v = VNone \/ exists x, v = VFloat x)
    /\ (forall k x, r !! k = Some (VFloat x) -> r !! k = Some (VFloat x))
    /\ (forall k, k <> "base_imponible" -> r !! k = r !! k)).
  { destruct Hr as [Hd Hv]. repeat split; auto.
    intros k v Hk. destruct (Hv k v Hk) as [-> | (x & -> & _)]; eauto. }
  destruct (getitem_ok r "total" Hr claves_total) as (vt & Ht & Et & Hvt).
  destruct (getitem_ok r "base_imponible" Hr claves_base) as (vb & Hb & Eb & Hvb).
  unfold fallback. rewrite Et. cbn [mbind res_bind].
  destruct (truthy vt) eqn:Htt; [|eauto].
  rewrite Eb. cbn [mbind res_bind].
  destruct (truthy vb) eqn:Htb; cbn [negb]; [eauto|].
  destruct (truthy_importe_valido _ Hvt Htt) as (t & -> & Hnz).
  rewrite (buscar_base_ok imps r t Ht).
  destruct (List.find (banda t) imps) as [v|]; [|eauto].
  eexists; split; [reflexivity|]. destruct Hsame as (Hd & Hty & _). split; [|split; [|split]].
  - rewrite dom_insert_L, Hd. apply subseteq_union_1_L, singleton_subseteq_l, claves_base.
  - intros k w. rewrite lookup_insert. case_decide; [intros [= <-]; eauto | apply Hty].
  - intros k x Hk. rewrite lookup_insert. case_decide as Heq; [|assumption].
    subst k. rewrite Hb in Hk. injection Hk as ->.
    discriminate (falsy_importe_valido _ Hvb Htb).
  - intros k Hk. rewrite lookup_insert_ne; [reflexivity | congruence].
Qed.

Lemma importes_normalizados_ok texto :
  importes_normalizados texto =
    Ok (flat_map (fun x => es_importe (valor_de (Some x)))
          (Re.findall no_flags patron_importes (zona_resumen texto))).
Proof. apply normalizar_todos_ok. Qed.

(** [extraer_importes_universal] as the composition of its three stages. *)
Lemma extraer_importes_universal_eq texto imps r :
  importes_normalizados texto = Ok imps ->
  aplicar_patrones (zona_resumen texto) = Ok r ->
  extraer_importes_universal texto = fallback imps r.
Proof.
  intros E1 E2. unfold extraer_importes_universal. rewrite E1, E2. reflexivity.
Qed.

Lemma extraer_importes_universal_ok texto :
  exists d, extraer_importes_universal texto = Ok d /\ dom d = claves
    /\ (forall k v, d !! k = Some v -> v = VNone \/ exists x, v = VFloat x).
Proof.
  destruct (aplicar_patrones_ok (zona_resumen texto)) as (r & Er & Hr).
  destruct (fallback_ok (flat_map (fun x => es_importe (valor_de (Some x)))
          (Re.findall no_flags patron_importes (zona_resumen texto))) r Hr)
    as (d & Ed & Hd & Hty & _).
  exists d. rewrite (extraer_importes_universal_eq _ _ _ (importes_normalizados_ok texto) Er).
  auto.
Qed.


(** ** Soundness of the matcher *)

Section MatcherSound.
Variable fl : flags.

Lemma rep_greedy_sound a s : forall lo hi n k m,
  rep_greedy fl a lo hi s n k = Some m ->
  exists t s', s = t ++ s' /\ Forall (fun c => atom_match fl a c = true) t
    /\ lo <= length t /\ within hi (length t) /\ k s' (n + length t) = Some m.
Proof.
  induction s as [|c s IH]; intros lo hi n k m H; cbn [rep_greedy] in H.
  - destruct lo; [|discriminate].
    exists [], []. rewrite Nat.add_0_r. repeat split; auto.
    destruct hi; simpl; lia.
  - assert (Hstop : match lo with O => k (c :: s) n | S _ => None end = Some m ->
      exists t s', c :: s = t ++ s' /\ Forall (fun c => atom_match fl a c = true) t
        /\ lo <= length t /\ within hi (length t) /\ k s' (n + length t) = Some m).
    { destruct lo; [|discriminate]. intros Hk.
      exists [], (c :: s). rewrite Nat.add_0_r. repeat split; auto.
      destruct hi; simpl; lia. }
    destruct (atom_match fl a c && may_repeat hi) eqn:Hc; [|auto].
    apply andb_prop in Hc as [Hc Hhi].
    destruct (rep_greedy fl a (Nat.pred lo) (Nat.pred <$> hi) s (S n) k) as [m'|] eqn:Hrec; [|auto].
    injection H as ->.
    apply IH in Hrec as (t & s' & -> & Ht & Hlo & Hw & Hk).
    exists (c :: t), s'. cbn [length]. repeat split; auto.
    + lia.
    + destruct hi as [[|h]|]; simpl in *; try discriminate; lia.
    + rewrite <- Hk. f_equal. lia.
Qed.

Lemma rep_lazy_sound a s : forall lo hi n k m,
  rep_lazy fl a lo hi s n k = Some m ->
  exists t s', s = t ++ s' /\ Forall (fun c => atom_match fl a c = true) t
    /\ lo <= length t /\ within hi (length t) /\ k s' (n + length t) = Some m.
Proof.
  induction s as [|c s IH]; intros lo hi n k m H; cbn [rep_lazy] in H.
  - destruct lo; [|discriminate].
    destruct (k [] n) eqn:Hk; [|discriminate]. injection H as ->.
    exists [], []. rewrite Nat.add_0_r. repeat split; auto.
    destruct hi; simpl; lia.
  - assert (Hmore : (if atom_match fl a c && may_repeat hi
                     then rep_lazy fl a (Nat.pred lo) (Nat.pred <$> hi) s (S n) k
                     else None) = Some m ->
      exists t s', c :: s = t ++ s' /\ Forall (fun c => atom_match fl a c = true) t
        /\ lo <= length t /\ within hi (length t) /\ k s' (n + length t) = Some m).
    { destruct (atom_match fl a c && may_repeat hi) eqn:Hc; [|discriminate].
      apply andb_prop in Hc as [Hc Hhi]. intros Hrec.
      apply IH in Hrec as (t & s' & -> & Ht & Hlo & Hw & Hk).
      exists (c :: t), s'. cbn [length]. repeat split; auto.
      + lia.
      + destruct hi as [[|h]|]; simpl in *; try discriminate; lia.
      + rewrite <- Hk. f_equal. lia. }
    destruct lo; [|auto].
    destruct (k (c :: s) n) eqn:Hk; [|auto]. injection H as ->.
    exists [], (c :: s). rewrite Nat.add_0_r. repeat split; auto.
    destruct hi; simpl; lia.
Qed.

(** Whatever [run] returns was returned by its continuation, after a
    text that the pattern matches. *)
Lemma run_sound r : forall s n g k m,
  run fl r s n g k = Some m ->
  exists t s' g', s = t ++ s' /\ matches fl r g t g' /\ k s' (n + length t) g' = Some m.
Proof.
  induction r as [|a|r1 IH1 r2 IH2|r1 IH1 r2 IH2|r1 IH1|a lo hi greedy|r1 IH1];
    intros s n g k m H; cbn [run] in H.
  - exists [], s, g. rewrite Nat.add_0_r. repeat split; auto. constructor.
  - destruct s as [|c s]; [discriminate|].
    destruct (atom_match fl a c) eqn:Hc; [|discriminate].
    exists [c], s, g. repeat split; auto; [constructor; assumption|].
    rewrite <- H. f_equal. simpl. lia.
  - apply IH1 in H as (t1 & s1 & g1 & -> & M1 & H).
    apply IH2 in H as (t2 & s2 & g2 & -> & M2 & H).
    exists (t1 ++ t2), s2, g2. rewrite <- app_assoc. repeat split; auto.
    + econstructor; eassumption.
    + rewrite <- H. f_equal. rewrite length_app. lia.
  - destruct (run fl r1 s n g k) as [m'|] eqn:H1.
    + injection H as ->. apply IH1 in H1 as (t & s' & g' & -> & M & H).
      exists t, s', g'. repeat split; auto. apply M_Alt_l, M.
    + apply IH2 in H as (t & s' & g' & -> & M & H).
      exists t, s', g'. repeat split; auto. apply M_Alt_r, M.
  - destruct (run fl r1 s n g k) as [m'|] eqn:H1.
    + injection H as ->. apply IH1 in H1 as (t & s' & g' & -> & M & H).
      exists t, s', g'. repeat split; auto. apply M_Opt_some, M.
    + exists [], s, g. rewrite Nat.add_0_r. repeat split; auto. apply M_Opt_none.
  - destruct greedy.
    + apply rep_greedy_sound in H as (t & s' & -> & Ht & Hlo & Hw & H).
      exists t, s', g. repeat split; auto. constructor; assumption.
    + apply rep_lazy_sound in H as (t & s' & -> & Ht & Hlo & Hw & H).
      exists t, s', g. repeat split; auto. constructor; assumption.
  - apply IH1 in H as (t & s' & g' & -> & M & H).
    exists t, s', (Some t). repeat split; auto; [econstructor; eassumption|].
    rewrite <- H. do 2 f_equal.
    replace (n + length t - n) with (length t) by lia.
    rewrite take_app_length. reflexivity.
Qed.

Lemma match_at_sound r s m :
  match_at fl r s = Some m ->
  exists g, matches fl r None (group0 m) g /\ group1 m = g /\ s = group0 m ++ rest m.
Proof.
  unfold match_at. intros H.
  apply run_sound in H as (t & s' & g' & -> & M & H).
  injection H as <-. cbn [group0 group1 rest].
  rewrite take_app_length. eauto.
Qed.

Lemma search_sound r s m :
  search fl r s = Some m ->
  exists pre g, matches fl r None (group0 m) g /\ group1 m = g
    /\ s = pre ++ group0 m ++ rest m.
Proof.
  induction s as [|c s IH]; cbn [search]; intros H.
  - destruct (match_at fl r []) eqn:Hm; [|discriminate]. injection H as ->.
    apply match_at_sound in Hm as (g & M & Hg & Hs). exists [], g. auto.
  - destruct (match_at fl r (c :: s)) eqn:Hm.
    + injection H as ->.
      apply match_at_sound in Hm as (g & M & Hg & Hs). exists [], g. auto.
    + apply IH in H as (pre & g & M & Hg & ->). exists (c :: pre), g. auto.
Qed.

Lemma ends_in_group_matches P r g t g' :
  ends_in_group fl P r -> matches fl r g t g' -> exists u, g' = Some u /\ P u.
Proof.
  intros E. revert g t g'. induction E as [r Hr | r1 r2 E IH]; intros g t g' M.
  - inversion M; subst. eauto.
  - inversion M; subst. eauto.
Qed.

Lemma search_group P r s m :
  ends_in_group fl P r -> search fl r s = Some m -> exists u, group1 m = Some u /\ P u.
Proof.
  intros E H. apply search_sound in H as (pre & g & M & Hg & _).
  rewrite Hg. eapply ends_in_group_matches; eassumption.
Qed.

End MatcherSound.


(** ** String facts *)

Lemma space_not_word c : Unicode.is_space c = true -> Unicode.is_word c = false.
Proof.
  unfold Unicode.is_space, Unicode.in_ranges, Unicode.space_ranges.
  cbn [existsb fst snd]. intros H.
  assert (Hc : (9 <= c <= 13 \/ 28 <= c <= 32 \/ c = 133 \/ c = 160 \/ c = 5760
                \/ 8192 <= c <= 8202 \/ 8232 <= c <= 8233 \/ c = 8239 \/ c = 8287
                \/ c = 12288)%Z) by lia.
  clear H.
  assert (Hv : In c [9; 10; 11; 12; 13; 28; 29; 30; 31; 32; 133; 160; 5760; 8192; 8193;
                     8194; 8195; 8196; 8197; 8198; 8199; 8200; 8201; 8202; 8232; 8233;
                     8239; 8287; 12288]%Z) by (cbn [In]; lia).
  clear Hc. cbn [In] in Hv.
  repeat (destruct Hv as [<- | Hv]; [vm_compute; reflexivity|]). destruct Hv.
Qed.

Lemma lstrip_id s :
  Forall (fun c => Unicode.is_space c = false) s -> Str.lstrip s = s.
Proof. intros [|c s' Hc _]; [reflexivity|]. cbn [Str.lstrip]. rewrite Hc. reflexivity. Qed.

Lemma strip_id s :
  Forall (fun c => Unicode.is_space c = false) s -> Str.strip s = s.
Proof.
  intros H. unfold Str.strip, Str.rstrip. rewrite (lstrip_id s H).
  rewrite lstrip_id by (apply Forall_rev, H). apply rev_involutive.
Qed.

Lemma sub_id fl a s :
  Forall (fun c => atom_match fl a c = false) s -> Re.sub fl a [] s = s.
Proof.
  unfold Re.sub. induction 1 as [|c s Hc _ IH]; [reflexivity|].
  cbn [flat_map]. rewrite Hc, IH. reflexivity.
Qed.

(** An identifier made of word characters is left as it is. *)
Lemma normalizar_numero_word (u : pystr) :
  Forall (fun c => Unicode.is_word c = true) u -> 1 <= length u ->
  normalizar_numero (Some u) = Ok u.
Proof.
  intros Hw Hl. unfold normalizar_numero. cbn [of_opt_str truthy str_of].
  destruct u as [|c u]; [simpl in Hl; lia|]. cbn [length Nat.eqb negb re_sub].
  rewrite strip_id.
  - rewrite sub_id; [reflexivity|].
    eapply Forall_impl; [exact Hw|]. intros x Hx.
    cbn [atom_match existsb item_match]. rewrite Hx. reflexivity.
  - eapply Forall_impl; [exact Hw|]. intros x Hx.
    destruct (Unicode.is_space x) eqn:Hs; [|reflexivity].
    apply space_not_word in Hs. congruence.
Qed.


Lemma grupo_palabra fl g t g' :
  matches fl (plus w) g t g' -> palabra t.
Proof.
  intros M. inversion M; subst. split; [|assumption].
  eapply Forall_impl; [eassumption|]. intros x Hx.
  unfold w in Hx. cbn [atom_match existsb item_match] in Hx.
  destruct (Unicode.is_word x); [reflexivity | exact Hx].
Qed.

Lemma patron_numero_1_grupo : ends_in_group no_flags palabra patron_numero_1.
Proof. repeat apply E_Cat. apply E_Grp. intros g t g'. apply grupo_palabra. Qed.

Lemma patron_numero_2_grupo : ends_in_group no_flags palabra patron_numero_2.
Proof. repeat apply E_Cat. apply E_Grp. intros g t g'. apply grupo_palabra. Qed.

Lemma patron_numero_3_grupo : ends_in_group no_flags palabra patron_numero_3.
Proof. repeat apply E_Cat. apply E_Grp. intros g t g'. apply grupo_palabra. Qed.

Lemma numero_match_grupo texto m :
  numero_match texto = Some m -> exists u, group1 m = Some u /\ palabra u.
Proof.
  unfold numero_match, or_else. intros H.
  destruct (Re.search no_flags patron_numero_1 texto) eqn:H1.
  { injection H as ->. eapply search_group; [apply patron_numero_1_grupo | eassumption]. }
  destruct (Re.search no_flags patron_numero_2 texto) eqn:H2.
  { injection H as ->. eapply search_group; [apply patron_numero_2_grupo | eassumption]. }
  eapply search_group; [apply patron_numero_3_grupo | eassumption].
Qed.

Lemma patron_nif_grupo : ends_in_group I_only (fun _ => True) patron_nif.
Proof. repeat apply E_Cat. apply E_Grp. auto. Qed.

(** ** The field extractor always returns *)


Lemma extraer_datos_factura_completo_ok texto nombre_fichero :
  exists numero fecha importes proveedor,
    numero_de texto nombre_fichero = Ok numero
    /\ extraer_importes_universal texto = Ok importes
    /\ dom importes = claves
    /\ extraer_datos_factura_completo texto nombre_fichero =
         Ok (<["proveedor" := VStr proveedor]>
               (importes ∪ <["fecha_factura" := VStr fecha]>
                             (<["numero_factura" := VStr numero]>
                                (datos_inicial nombre_fichero)))).
Proof.
  unfold extraer_datos_factura_completo, numero_de.
  assert (Hn : exists numero,
    match numero_match texto with
    | Some m => normalizar_numero (group1 m)
    | None => Ok (Str.replace (py ".pdf") [] nombre_fichero)
    end = Ok numero).
  { destruct (numero_match texto); [apply normalizar_numero_ok | eauto]. }
  destruct Hn as [numero ->]. cbn [mbind res_bind].
  assert (Hf : exists fecha,
    match Re.search no_flags patron_fecha texto with
    | Some m => normalizar_fecha (group1 m)
    | None => Ok []
    end = Ok fecha).
  { destruct (Re.search no_flags patron_fecha texto); [apply normalizar_fecha_ok | eauto]. }
  destruct Hf as [fecha ->]. cbn [mbind res_bind].
  destruct (extraer_importes_universal_ok texto) as (importes & -> & Hd & _).
  cbn [mbind res_bind].
  assert (Hp : exists proveedor,
    match Re.search I_only patron_nif texto with
    | Some m => slice_first_opt 50 (group1 m)
    | None => Ok []
    end = Ok proveedor).
  { destruct (Re.search I_only patron_nif texto) as [m|] eqn:Hs; [|eauto].
    destruct (search_group _ _ _ _ _ patron_nif_grupo Hs) as (u & -> & _).
    simpl. eauto. }
  destruct Hp as [proveedor ->]. cbn [mbind res_bind].
  exists numero, fecha, importes, proveedor. auto.
Qed.


Lemma no_es_clave k : bool_decide (k ∈ claves) = false -> k ∉ claves.
Proof. apply bool_decide_eq_false. Qed.

(** Without a label match the identifier comes from the filename. *)
Lemma numero_de_sin_patron texto nombre_fichero :
  numero_match texto = None ->
  numero_de texto nombre_fichero = Ok (Str.replace (py ".pdf") [] nombre_fichero).
Proof. intros H. unfold numero_de. rewrite H. reflexivity. Qed.

(** ** [normalizar_importe] on the output of [str] *)

Lemma space_not_decimal c : Unicode.is_space c = true -> Unicode.is_decimal c = false.
Proof.
  unfold Unicode.is_space, Unicode.in_ranges, Unicode.space_ranges.
  cbn [existsb fst snd]. intros H.
  assert (Hv : In c [9; 10; 11; 12; 13; 28; 29; 30; 31; 32; 133; 160; 5760; 8192; 8193;
                     8194; 8195; 8196; 8197; 8198; 8199; 8200; 8201; 8202; 8232; 8233;
                     8239; 8287; 12288]%Z) by (cbn [In]; lia).
  clear H. cbn [In] in Hv.
  repeat (destruct Hv as [<- | Hv]; [vm_compute; reflexivity|]). destruct Hv.
Qed.

Lemma cifra_not_space c : cifra c -> Unicode.is_space c = false.
Proof.
  intros [Hd | ->]; [|vm_compute; reflexivity].
  destruct (Unicode.is_space c) eqn:Hs; [|reflexivity].
  apply space_not_decimal in Hs. congruence.
Qed.

Lemma cifra_neq c x : cifra c -> Unicode.is_decimal x = false -> x <> 46%Z -> (x =? c)%Z = false.
Proof.
  intros Hc Hx H46. apply Z.eqb_neq. intros ->. destruct Hc; congruence.
Qed.

Lemma split_dot_cifras s ip fp :
  Float.split_dot s = (ip, fp) ->
  Forall (fun c => Unicode.is_decimal c = true) ip ->
  Forall (fun c => Unicode.is_decimal c = true) (default [] fp) ->
  Forall cifra s.
Proof.
  revert ip fp. induction s as [|c s IH]; intros ip fp Hs Hip Hfp; [constructor|].
  cbn [Float.split_dot] in Hs. destruct (c =? 46)%Z eqn:Hc.
  - injection Hs as <- <-. apply Z.eqb_eq in Hc as ->.
    constructor; [right; reflexivity|].
    simpl in Hfp. eapply Forall_impl; [exact Hfp|]. intros x Hx. left. exact Hx.
  - destruct (Float.split_dot s) as [a b]. injection Hs as <- <-.
    inversion Hip; subst. constructor; [left; assumption|].
    eapply IH; [reflexivity | assumption | assumption].
Qed.

Lemma forallb_Forall_true {A : Type} (f : A -> bool) l :
  forallb f l = true -> Forall (fun c => f c = true) l.
Proof.
  induction l as [|a l IH]; [constructor|]. cbn [forallb]. intros H.
  apply andb_prop in H as [Ha Hl]. constructor; auto.
Qed.

(** [float] only accepts, in this model, non-empty numerals. *)
Lemma of_str_ok_cifras (s : pystr) y :
  Float.of_str s = Ok y -> Forall cifra s /\ s <> [].
Proof.
  unfold Float.of_str. destruct (Float.split_dot s) as [ip fp] eqn:Hs.
  destruct (forallb Unicode.is_decimal ip && forallb Unicode.is_decimal (default [] fp)
            && negb (Nat.eqb (length (ip ++ default [] fp)) 0)) eqn:Hc; [|discriminate].
  intros _. apply andb_prop in Hc as [Hc Hne]. apply andb_prop in Hc as [Hip Hfp].
  split.
  - eapply split_dot_cifras; [exact Hs | |]; apply forallb_Forall_true; assumption.
  - intros ->. cbn in Hs. injection Hs as <- <-. discriminate.
Qed.

Lemma replace_from_id a new s :
  Forall (fun c => (a =? c)%Z = false) s -> Str.replace_from [a] new s 0 = s.
Proof.
  induction 1 as [|c s Hc _ IH]; [reflexivity|].
  cbn [Str.replace_from Str.startswith]. rewrite Hc, IH. reflexivity.
Qed.

(** On a numeral the clean-up of [normalizar_importe] changes nothing. *)
Lemma limpiar_cifras (s : pystr) : Forall cifra s -> limpiar (Some s) = Ok s.
Proof.
  intros Hs. unfold limpiar. cbn [str_of re_sub mbind res_bind].
  rewrite strip_id by (eapply Forall_impl; [exact Hs | apply cifra_not_space]).
  rewrite (sub_id _ (Set_ false _) s).
  2:{ eapply Forall_impl; [exact Hs|]. intros c Hc.
      cbn [atom_match existsb item_match no_flags IGNORECASE xorb].
      rewrite (cifra_not_space c Hc).
      rewrite !(cifra_neq c _ Hc) by (vm_compute; congruence). reflexivity. }
  unfold Str.replace. cbn [py list_ascii_of_string List.map].
  rewrite replace_from_id.
  2:{ eapply Forall_impl; [exact Hs|]. intros c Hc.
      apply (cifra_neq c _ Hc); vm_compute; congruence. }
  rewrite sub_id; [reflexivity|].
  eapply Forall_impl; [exact Hs|]. intros c [Hc | ->].
  - cbn [atom_match existsb item_match]. rewrite Hc. reflexivity.
  - vm_compute. reflexivity.
Qed.

Lemma normalizar_importe_cifras (s : pystr) y :
  Float.of_str s = Ok y -> normalizar_importe (Some s) = Ok (Some y).
Proof.
  intros Hy. destruct (of_str_ok_cifras s y Hy) as [Hs Hne].
  unfold normalizar_importe. cbn [of_opt_str truthy].
  destruct s as [|c s]; [congruence|]. cbn [length Nat.eqb negb].
  rewrite (limpiar_cifras _ Hs). cbn [mbind res_bind]. rewrite Hy. reflexivity.
Qed.

Section Binary64.
Local Open Scope Z_scope.

(** ** Binary64 arithmetic: the quotient is a well-formed float *)


Lemma fexp64_eq x : fexp64 x = Z.max (x - 53) (-1074).
Proof. reflexivity. Qed.

Lemma digits2_pos_size p : digits2_pos p = Pos.size p.
Proof. induction p as [p IH|p IH|]; simpl; congruence. Qed.

Lemma Zdigits2_log2 z : 0 < z -> Zdigits2 z = Z.log2 z + 1.
Proof.
  destruct z as [|p|p]; try lia. intros _. cbn [Zdigits2].
  rewrite digits2_pos_size. destruct p; simpl; lia.
Qed.

Lemma Zdigits2_bounds z : 0 < z -> 2 ^ (Zdigits2 z - 1) <= z < 2 ^ Zdigits2 z.
Proof.
  intros Hz. rewrite (Zdigits2_log2 z Hz).
  replace (Z.log2 z + 1 - 1) with (Z.log2 z) by lia.
  replace (Z.log2 z + 1) with (Z.succ (Z.log2 z)) by lia.
  apply Z.log2_spec, Hz.
Qed.

Lemma Zdigits2_nonneg z : 0 <= Zdigits2 z.
Proof. destruct z; simpl; lia. Qed.

Lemma Zdigits2_pos z : 0 < z -> 0 < Zdigits2 z.
Proof. intros Hz. rewrite Zdigits2_log2 by assumption. pose proof (Z.log2_nonneg z). lia. Qed.

(** Digits of a quotient by a power of two. *)
Lemma Zdigits2_div_pow2 z n :
  0 < z -> 0 <= n -> Zdigits2 (z / 2 ^ n) = Z.max (Zdigits2 z - n) 0.
Proof.
  intros Hz Hn. rewrite <- Z.shiftr_div_pow2 by assumption.
  destruct (Z.eq_dec (Z.shiftr z n) 0) as [H0 | H0].
  - rewrite H0. cbn [Zdigits2].
    apply Z.shiftr_eq_0_iff in H0 as [-> | [_ Hl]]; [lia|].
    rewrite Zdigits2_log2 by assumption. lia.
  - assert (Hpos : 0 < Z.shiftr z n).
    { pose proof (Z.shiftr_nonneg z n). lia. }
    rewrite (Zdigits2_log2 _ Hpos), (Zdigits2_log2 z Hz).
    rewrite Z.log2_shiftr by assumption.
    assert (n <= Z.log2 z).
    { destruct (Z.le_gt_cases n (Z.log2 z)) as [|Hgt]; [assumption|].
      exfalso. apply H0. apply Z.shiftr_eq_0; assumption || lia. }
    lia.
Qed.

Lemma Zdigits2_mono a b : 0 <= a <= b -> Zdigits2 a <= Zdigits2 b.
Proof.
  intros [Ha Hab]. destruct (Z.eq_dec a 0) as [-> | Hne].
  - apply Zdigits2_nonneg.
  - rewrite !Zdigits2_log2 by lia. pose proof (Z.log2_le_mono a b Hab). lia.
Qed.

Lemma fexp64_mono a b : a <= b -> fexp64 a <= fexp64 b.
Proof. rewrite !fexp64_eq. lia. Qed.

(** Right shifts of a mantissa record. *)
Lemma iter_pos_nat {A : Type} (f : A -> A) p x :
  SpecFloat.iter_pos f p x = Nat.iter (Pos.to_nat p) f x.
Proof.
  revert x. induction p as [p IH|p IH|]; intros x; cbn [SpecFloat.iter_pos].
  - rewrite !IH, Pos2Nat.inj_xI.
    replace (S (2 * Pos.to_nat p)) with (Pos.to_nat p + S (Pos.to_nat p))%nat by lia.
    rewrite Nat.iter_add. f_equal. rewrite Nat.iter_succ_r. reflexivity.
  - rewrite !IH, Pos2Nat.inj_xO.
    replace (2 * Pos.to_nat p)%nat with (Pos.to_nat p + Pos.to_nat p)%nat by lia.
    rewrite Nat.iter_add. reflexivity.
  - reflexivity.
Qed.

Lemma shr_1_m mrs : 0 <= shr_m mrs -> shr_m (shr_1 mrs) = shr_m mrs / 2.
Proof.
  destruct mrs as [m r s]. cbn [shr_m shr_1]. intros Hm.
  destruct m as [|[p|p|]|p]; cbn [shr_m]; try lia; rewrite <- Z.div2_div; reflexivity.
Qed.

Lemma shr_iter_m n mrs :
  0 <= shr_m mrs -> shr_m (Nat.iter n shr_1 mrs) = shr_m mrs / 2 ^ Z.of_nat n.
Proof.
  intros Hm. induction n as [|n IH].
  - simpl. rewrite Z.div_1_r. reflexivity.
  - rewrite Nat.iter_succ, shr_1_m.
    + rewrite IH, Nat2Z.inj_succ, Z.pow_succ_r by lia.
      rewrite Z.div_div by lia. f_equal. lia.
    + rewrite IH. apply Z.div_pos; lia.
Qed.

Lemma shr_iter_exact n m :
  0 <= m -> Nat.iter n shr_1 (Build_shr_record (m * 2 ^ Z.of_nat n) false false)
            = Build_shr_record m false false.
Proof.
  intros Hm. induction n as [|n IH].
  - simpl. f_equal. lia.
  - rewrite Nat.iter_succ_r.
    replace (shr_1 (Build_shr_record (m * 2 ^ Z.of_nat (S n)) false false))
      with (Build_shr_record (m * 2 ^ Z.of_nat n) false false); [exact IH|].
    rewrite Nat2Z.inj_succ, Z.pow_succ_r by lia.
    assert (Hk : 0 <= m * 2 ^ Z.of_nat n) by (apply Z.mul_nonneg_nonneg; lia).
    replace (m * (2 * 2 ^ Z.of_nat n)) with (2 * (m * 2 ^ Z.of_nat n)) by lia.
    destruct (m * 2 ^ Z.of_nat n) as [|p|p]; [reflexivity | reflexivity | lia].
Qed.

(** What [shr_fexp] does to a non-negative mantissa that has to lose
    digits: the exponent becomes canonical, the mantissa is divided. *)
Lemma shr_fexp_spec m e l :
  0 <= m -> e <= fexp64 (Zdigits2 m + e) ->
  let '(mrs, e') := shr_fexp Float.prec Float.emax m e l in
  e' = fexp64 (Zdigits2 m + e) /\ shr_m mrs = m / 2 ^ (e' - e).
Proof.
  intros Hm He. unfold shr_fexp, shr. fold (fexp64 (Zdigits2 m + e)).
  destruct (fexp64 (Zdigits2 m + e) - e) as [|p|p] eqn:Hp; try lia.
  - split; [lia|]. replace (e - e) with 0 by lia. rewrite Z.div_1_r.
    destruct l as [|[]]; reflexivity.
  - rewrite iter_pos_nat. split; [lia|].
    rewrite shr_iter_m by (destruct l as [|[]]; exact Hm).
    rewrite positive_nat_Z. replace (e + Z.pos p - e) with (Z.pos p) by lia.
    destruct l as [|[]]; reflexivity.
Qed.

Lemma shr_fexp_canonical m e l :
  0 <= m -> e <= fexp64 (Zdigits2 m + e) ->
  let '(mrs, e') := shr_fexp Float.prec Float.emax m e l in
  0 <= shr_m mrs /\ e <= e'
  /\ (shr_m mrs = 0 -> e' = -1074)
  /\ (0 < shr_m mrs -> fexp64 (Zdigits2 (shr_m mrs) + e') = e').
Proof.
  intros Hm He. pose proof (shr_fexp_spec m e l Hm He) as H.
  destruct (shr_fexp Float.prec Float.emax m e l) as [mrs e'].
  destruct H as [He' Hmrs]. rewrite Hmrs.
  assert (Hp : 0 <= e' - e) by lia.
  assert (H2 : 0 < 2 ^ (e' - e)) by (apply Z.pow_pos_nonneg; lia).
  split; [apply Z.div_pos; lia|]. split; [lia|]. split.
  - intros H0. destruct (Z.eq_dec m 0) as [-> | Hne].
    + cbn [Zdigits2] in *. rewrite fexp64_eq in *. lia.
    + assert (Hd : Zdigits2 (m / 2 ^ (e' - e)) = 0) by (rewrite H0; reflexivity).
      rewrite Zdigits2_div_pow2 in Hd by lia.
      rewrite fexp64_eq in He'. lia.
  - intros Hpos.
    assert (Hm0 : 0 < m).
    { destruct (Z.eq_dec m 0); [subst; rewrite Z.div_0_l in Hpos; lia | lia]. }
    assert (Hd : 0 < Zdigits2 (m / 2 ^ (e' - e))) by (apply Zdigits2_pos, Hpos).
    rewrite Zdigits2_div_pow2 in Hd by lia.
    rewrite Zdigits2_div_pow2 by lia.
    replace (Z.max (Zdigits2 m - (e' - e)) 0 + e') with (Zdigits2 m + e) by lia.
    lia.
Qed.

Lemma round_nearest_even_bounds m l :
  m <= round_nearest_even m l <= m + 1.
Proof.
  unfold round_nearest_even. destruct l as [|[]]; try lia.
  destruct (Z.even m); lia.
Qed.


Lemma binary_round_aux_valid sx mx ex lx :
  0 <= mx -> ex <= fexp64 (Zdigits2 mx + ex) ->
  valid64 sx (binary_round_aux Float.prec Float.emax sx mx ex lx).
Proof.
  intros Hm He. unfold binary_round_aux.
  pose proof (shr_fexp_canonical mx ex lx Hm He) as H1.
  destruct (shr_fexp Float.prec Float.emax mx ex lx) as [mrs1 e1].
  destruct H1 as (Hm1 & _ & Hz1 & Hc1).
  set (m2 := round_nearest_even (shr_m mrs1) (loc_of_shr_record mrs1)).
  pose proof (round_nearest_even_bounds (shr_m mrs1) (loc_of_shr_record mrs1)) as Hb.
  fold m2 in Hb.
  assert (He2 : e1 <= fexp64 (Zdigits2 m2 + e1)).
  { destruct (Z.eq_dec (shr_m mrs1) 0) as [H0 | H0].
    - rewrite (Hz1 H0), fexp64_eq. lia.
    - rewrite <- (Hc1 ltac:(lia)) at 1. apply fexp64_mono.
      pose proof (Zdigits2_mono (shr_m mrs1) m2). lia. }
  pose proof (shr_fexp_canonical m2 e1 loc_Exact ltac:(lia) He2) as H2.
  destruct (shr_fexp Float.prec Float.emax m2 e1 loc_Exact) as [mrs2 e2].
  destruct H2 as (Hm2 & _ & _ & Hc2).
  destruct (shr_m mrs2) as [|p|p] eqn:Hp; cbn [valid64]; [exact I | | lia].
  destruct (e2 <=? Float.emax - Float.prec) eqn:Hle; cbn [valid64]; [|exact I].
  split; [reflexivity|].
  unfold SpecFloat.bounded, canonical_mantissa. rewrite Hle, andb_true_r.
  apply Z.eqb_eq. specialize (Hc2 ltac:(lia)). cbn [Zdigits2] in Hc2. exact Hc2.
Qed.

Lemma div_eucl_eq a b : Z.div_eucl a b = (a / b, a mod b).
Proof. unfold Z.div, Z.modulo. destruct (Z.div_eucl a b). reflexivity. Qed.

(** The quotient handed to the rounding step has enough digits. *)
Lemma SFdiv_core_precondition (n d : positive) :
  let '(q, e', _) := SFdiv_core_binary Float.prec Float.emax (Zpos n) 0 (Zpos d) 0 in
  0 <= q /\ e' <= fexp64 (Zdigits2 q + e').
Proof.
  unfold SFdiv_core_binary.
  set (d1 := Zdigits2 (Z.pos n)). set (d2 := Zdigits2 (Z.pos d)).
  fold (fexp64 (d1 + 0 - (d2 + 0))).
  set (e' := Z.min (fexp64 (d1 + 0 - (d2 + 0))) (0 - 0)).
  set (s := 0 - 0 - e').
  assert (Hs : 0 <= s) by (unfold s, e'; lia).
  set (m' := match s with Z.pos _ => Z.shiftl (Z.pos n) s | 0 => Z.pos n | Z.neg _ => 0 end).
  assert (Hm' : m' = Z.pos n * 2 ^ s).
  { unfold m'. destruct s as [|p|p] eqn:Hsp; [lia | | lia].
    rewrite Z.shiftl_mul_pow2 by lia. reflexivity. }
  rewrite div_eucl_eq.
  assert (H2s : 0 < 2 ^ s) by (apply Z.pow_pos_nonneg; lia).
  assert (Hq : 0 <= m' / Z.pos d) by (apply Z.div_pos; lia).
  split; [exact Hq|].
  destruct (Z.le_gt_cases e' (-1074)) as [Hlow | Hhigh].
  { rewrite fexp64_eq. lia. }
  assert (He' : e' <= d1 - d2 - 53).
  { unfold e' in *. rewrite fexp64_eq in *. lia. }
  pose proof (Zdigits2_bounds (Z.pos n) ltac:(lia)) as [Hn1 _]. fold d1 in Hn1.
  pose proof (Zdigits2_bounds (Z.pos d) ltac:(lia)) as [_ Hd2]. fold d2 in Hd2.
  pose proof (Zdigits2_pos (Z.pos n) ltac:(lia)) as Hd1pos. fold d1 in Hd1pos.
  pose proof (Zdigits2_pos (Z.pos d) ltac:(lia)) as Hd2pos. fold d2 in Hd2pos.
  assert (Hbig : 2 ^ 52 <= m' / Z.pos d).
  { apply Z.div_le_lower_bound; [lia|].
    rewrite Hm'.
    assert (2 ^ (52 + d2) <= 2 ^ (d1 - 1 + s)).
    { apply Z.pow_le_mono_r; [lia|]. unfold s. lia. }
    rewrite Z.pow_add_r in H by lia.
    replace (2 ^ (d1 - 1 + s)) with (2 ^ (d1 - 1) * 2 ^ s) in H
      by (rewrite <- Z.pow_add_r by lia; reflexivity).
    assert (Z.pos d * 2 ^ 52 <= 2 ^ d2 * 2 ^ 52) by (apply Z.mul_le_mono_nonneg_r; lia).
    assert (2 ^ (d1 - 1) * 2 ^ s <= Z.pos n * 2 ^ s) by (apply Z.mul_le_mono_nonneg_r; lia).
    lia. }
  assert (Hdig : 53 <= Zdigits2 (m' / Z.pos d)).
  { rewrite Zdigits2_log2 by lia.
    pose proof (Z.log2_le_mono _ _ Hbig) as Hl.
    rewrite Z.log2_pow2 in Hl by lia. lia. }
  rewrite fexp64_eq. lia.
Qed.

(** [of_ratio] returns a zero, an infinity or a well-formed positive
    float. *)
Lemma of_ratio_valid n d : valid64 false (Float.of_ratio n d).
Proof.
  unfold Float.of_ratio. destruct n as [|n|n]; [exact I | | exact I].
  destruct d as [|d|d]; [exact I | | exact I].
  cbn [SFdiv].
  pose proof (SFdiv_core_precondition n d) as H.
  destruct (SFdiv_core_binary Float.prec Float.emax (Z.pos n) 0 (Z.pos d) 0) as [[q e'] l].
  destruct H as [Hq He]. cbn [xorb].
  apply binary_round_aux_valid; assumption.
Qed.

(** ** Binary64 arithmetic: a quotient that is a float is returned as it is *)

Lemma new_location_exact d : new_location d 0 = loc_Exact.
Proof. unfold new_location. destruct (Z.even d); reflexivity. Qed.

Lemma Zdigits2_mul_pow2 m p :
  0 < m -> 0 <= p -> Zdigits2 (m * 2 ^ p) = Zdigits2 m + p.
Proof.
  intros Hm Hp.
  assert (0 < 2 ^ p) by (apply Z.pow_pos_nonneg; lia).
  rewrite !Zdigits2_log2 by nia.
  rewrite Z.log2_mul_pow2 by lia. lia.
Qed.

Lemma shr_exact m e p :
  0 <= m -> 0 <= p ->
  shr (Build_shr_record (m * 2 ^ p) false false) e p
  = (Build_shr_record m false false, e + p).
Proof.
  intros Hm Hp. unfold shr. destruct p as [|pp|pp]; [|  | lia].
  - rewrite Z.pow_0_r, Z.mul_1_r, Z.add_0_r. reflexivity.
  - rewrite iter_pos_nat. rewrite <- (positive_nat_Z pp) at 1.
    rewrite shr_iter_exact by assumption. reflexivity.
Qed.

Lemma of_ratio_exact N D m e :
  0 < N -> 0 < D ->
  SpecFloat.bounded Float.prec Float.emax m e = true ->
  N * Float.denom e = Float.numer m e * D ->
  Float.of_ratio N D = S754_finite false m e.
Proof.
  intros HN HD Hb Heq.
  destruct N as [|n|n]; try lia. destruct D as [|d|d]; try lia.
  unfold SpecFloat.bounded, canonical_mantissa in Hb.
  apply andb_prop in Hb as [Hcan Hmax]. apply Z.eqb_eq in Hcan.
  fold (fexp64 (Z.pos (digits2_pos m) + e)) in Hcan.
  change (Z.pos (digits2_pos m)) with (Zdigits2 (Z.pos m)) in Hcan.
  unfold Float.of_ratio. cbn [SFdiv]. unfold SFdiv_core_binary.
  set (d1 := Zdigits2 (Z.pos n)). set (d2 := Zdigits2 (Z.pos d)).
  fold (fexp64 (d1 + 0 - (d2 + 0))).
  set (e' := Z.min (fexp64 (d1 + 0 - (d2 + 0))) (0 - 0)).
  set (s := 0 - 0 - e').
  assert (Hs : 0 <= s) by (unfold s, e'; lia).
  pose proof (Zdigits2_bounds (Z.pos n) ltac:(lia)) as [Hn1 _]. fold d1 in Hn1.
  pose proof (Zdigits2_bounds (Z.pos d) ltac:(lia)) as [_ Hd2]. fold d2 in Hd2.
  pose proof (Zdigits2_bounds (Z.pos m) ltac:(lia)) as [_ Hm2].
  pose proof (Zdigits2_pos (Z.pos n) ltac:(lia)) as Hd1pos. fold d1 in Hd1pos.
  pose proof (Zdigits2_pos (Z.pos d) ltac:(lia)) as Hd2pos. fold d2 in Hd2pos.
  pose proof (Zdigits2_pos (Z.pos m) ltac:(lia)) as Hdmpos.
  assert (Hle : e' <= e).
  { destruct (Z.le_gt_cases 0 e) as [Hpos | Hneg]; [unfold e'; lia|].
    assert (Hdig : d1 - d2 <= Zdigits2 (Z.pos m) + e).
    { unfold Float.denom, Float.numer in Heq.
      destruct (0 <=? e) eqn:H0; [apply Z.leb_le in H0; lia|].
      assert (Hlt : 2 ^ (d1 - 1 - e) < 2 ^ (Zdigits2 (Z.pos m) + d2)).
      { rewrite Z.pow_add_r by lia.
        replace (d1 - 1 - e) with (d1 - 1 + - e) by lia.
        rewrite Z.pow_add_r by lia.
        assert (0 < 2 ^ (- e)) by (apply Z.pow_pos_nonneg; lia).
        assert (2 ^ (d1 - 1) * 2 ^ (- e) <= Z.pos n * 2 ^ (- e))
          by (apply Z.mul_le_mono_nonneg_r; lia).
        assert (Z.pos m * Z.pos d < 2 ^ Zdigits2 (Z.pos m) * 2 ^ d2)
          by (apply Z.mul_lt_mono_nonneg; lia).
        lia. }
      apply Z.pow_lt_mono_r_iff in Hlt; lia. }
    apply fexp64_mono in Hdig.
    assert (He'def : e' = Z.min (fexp64 (d1 - d2)) 0)
      by (unfold e'; f_equal; f_equal; lia).
    lia. }
  set (p := e - e'). assert (Hp : 0 <= p) by (unfold p; lia).
  assert (H2p : 0 < 2 ^ p) by (apply Z.pow_pos_nonneg; lia).
  set (m' := match s with Z.pos _ => Z.shiftl (Z.pos n) s | 0 => Z.pos n | Z.neg _ => 0 end).
  assert (Hm' : m' = (Z.pos m * 2 ^ p) * Z.pos d).
  { assert (Hm0 : m' = Z.pos n * 2 ^ s).
    { unfold m'. destruct s as [|sp|sp] eqn:Hsp; [lia | | lia].
      rewrite Z.shiftl_mul_pow2 by lia. reflexivity. }
    rewrite Hm0. unfold Float.denom, Float.numer in Heq.
    destruct (0 <=? e) eqn:H0.
    - apply Z.leb_le in H0. rewrite Z.mul_1_r in Heq. rewrite Heq.
      replace p with (e + s) by (unfold p, s; lia).
      rewrite Z.pow_add_r by lia. lia.
    - apply Z.leb_gt in H0.
      replace s with (- e + p) by (unfold p, s; lia).
      rewrite Z.pow_add_r by lia.
      replace (Z.pos n * (2 ^ (- e) * 2 ^ p)) with ((Z.pos n * 2 ^ (- e)) * 2 ^ p) by lia.
      rewrite Heq. lia. }
  rewrite div_eucl_eq, Hm'.
  rewrite Z.div_mul, Z.mod_mul by lia.
  rewrite new_location_exact. cbn [xorb].
  unfold binary_round_aux, shr_fexp. cbn [shr_record_of_loc].
  rewrite Zdigits2_mul_pow2 by lia.
  fold (fexp64 (Zdigits2 (Z.pos m) + p + e')).
  replace (Zdigits2 (Z.pos m) + p + e') with (Zdigits2 (Z.pos m) + e) by (unfold p; lia).
  rewrite Hcan. fold p.
  rewrite shr_exact by lia.
  cbn [shr_m loc_of_shr_record round_nearest_even shr_record_of_loc].
  replace (e' + p) with e by (unfold p; lia).
  fold (fexp64 (Zdigits2 (Z.pos m) + e)). rewrite Hcan.
  replace (e - e) with 0 by lia. cbn [shr shr_m].
  rewrite Hmax. reflexivity.
Qed.

(** ** Decimal numerals *)



Lemma digits_rev_val fuel z :
  0 <= z < 10 ^ Z.of_nat fuel -> val_rev (Float.digits_rev fuel z) = z.
Proof.
  revert z. induction fuel as [|fuel IH]; intros z Hz.
  - simpl in *. lia.
  - cbn [Float.digits_rev]. destruct (z <? 10) eqn:Hlt.
    + simpl. lia.
    + apply Z.ltb_ge in Hlt. cbn [val_rev fold_right]. fold (val_rev (Float.digits_rev fuel (z / 10))).
      rewrite IH.
      * pose proof (Z.div_mod z 10 ltac:(lia)). lia.
      * rewrite Nat2Z.inj_succ, Z.pow_succ_r in Hz by lia.
        split; [apply Z.div_pos; lia|].
        apply Z.div_lt_upper_bound; lia.
Qed.

Lemma digits_rev_digitos fuel z : 0 <= z -> Forall digito (Float.digits_rev fuel z).
Proof.
  revert z. induction fuel as [|fuel IH]; intros z Hz; [constructor|].
  cbn [Float.digits_rev]. destruct (z <? 10) eqn:Hlt.
  - apply Z.ltb_lt in Hlt. repeat constructor; lia.
  - constructor.
    + pose proof (Z.mod_pos_bound z 10 ltac:(lia)). unfold digito. lia.
    + apply IH, Z.div_pos; lia.
Qed.

Lemma lt_pow10_log2 z : 0 <= z -> z < 10 ^ Z.of_nat (S (Z.to_nat (Z.log2 z))).
Proof.
  intros Hz. destruct (Z.eq_dec z 0) as [-> | Hne]; [simpl; lia|].
  pose proof (Z.log2_spec z ltac:(lia)) as [_ Hup].
  pose proof (Z.log2_nonneg z) as Hl.
  rewrite Nat2Z.inj_succ, Z2Nat.id by lia.
  eapply Z.lt_le_trans; [exact Hup|].
  apply Z.pow_le_mono_l. lia.
Qed.

Lemma drop_zeros_val ds :
  val_rev ds = val_rev (Float.drop_zeros ds)
               * 10 ^ (Z.of_nat (length ds) - Z.of_nat (length (Float.drop_zeros ds)))
  /\ (length (Float.drop_zeros ds) <= length ds)%nat.
Proof.
  induction ds as [|v ds [IHv IHl]].
  - simpl. lia.
  - destruct (Z.eq_dec v 0) as [-> | Hv].
    + cbn [Float.drop_zeros]. split; [|simpl; lia].
      cbn [val_rev fold_right length]. fold (val_rev ds). rewrite IHv.
      replace (Z.of_nat (S (length ds)) - Z.of_nat (length (Float.drop_zeros ds)))
        with (Z.succ (Z.of_nat (length ds) - Z.of_nat (length (Float.drop_zeros ds)))) by lia.
      rewrite Z.pow_succ_r by lia. lia.
    + replace (Float.drop_zeros (v :: ds)) with (v :: ds)
        by (destruct v; [lia | reflexivity | reflexivity]).
      rewrite Z.sub_diag, Z.pow_0_r. lia.
Qed.

Lemma drop_zeros_digitos ds : Forall digito ds -> Forall digito (Float.drop_zeros ds).
Proof.
  induction 1 as [|v ds Hv Hds IH]; [constructor|].
  destruct v; [exact IH | constructor; assumption | constructor; assumption].
Qed.

(** Reading digit characters. *)
Lemma decimal_value_digit v : digito v -> Unicode.decimal_value (48 + v) = v.
Proof.
  intros Hv. assert (H : In v [0; 1; 2; 3; 4; 5; 6; 7; 8; 9]) by (unfold digito in Hv; simpl; lia).
  cbn [In] in H.
  repeat (destruct H as [<- | H]; [vm_compute; reflexivity|]). destruct H.
Qed.

Lemma is_decimal_digit v : digito v -> Unicode.is_decimal (48 + v) = true.
Proof.
  intros Hv. assert (H : In v [0; 1; 2; 3; 4; 5; 6; 7; 8; 9]) by (unfold digito in Hv; simpl; lia).
  cbn [In] in H.
  repeat (destruct H as [<- | H]; [vm_compute; reflexivity|]). destruct H.
Qed.


Lemma fold_val_acc ds acc :
  fold_left (fun a v => 10 * a + v) ds acc
  = acc * 10 ^ Z.of_nat (length ds) + val ds.
Proof.
  unfold val. revert acc. induction ds as [|v ds IH]; intros acc.
  - simpl. lia.
  - cbn [fold_left length]. rewrite IH, (IH (10 * 0 + v)).
    rewrite Nat2Z.inj_succ, Z.pow_succ_r by lia. lia.
Qed.

Lemma val_app a b : val (a ++ b) = val a * 10 ^ Z.of_nat (length b) + val b.
Proof. unfold val at 1. rewrite fold_left_app. apply fold_val_acc. Qed.

Lemma val_rev_rev ds : val (rev ds) = val_rev ds.
Proof.
  induction ds as [|v ds IH]; [reflexivity|].
  cbn [rev val_rev fold_right]. fold (val_rev ds). rewrite val_app, IH.
  unfold val. simpl. lia.
Qed.

Lemma val_zeros n : val (repeat 0 n) = 0.
Proof.
  induction n as [|n IH]; [reflexivity|].
  cbn [repeat]. change (0 :: repeat 0 n) with ([0] ++ repeat 0 n).
  rewrite val_app, IH. reflexivity.
Qed.

Lemma digits_value_chars ds :
  Forall digito ds -> Float.digits_value (Float.digit_chars ds) = val ds.
Proof.
  unfold Float.digits_value, val, Float.digit_chars. intros H.
  generalize 0. induction H as [|v ds Hv _ IH]; intros acc; [reflexivity|].
  cbn [List.map fold_left]. rewrite decimal_value_digit by assumption. apply IH.
Qed.

Lemma digit_chars_decimal ds :
  Forall digito ds -> forallb Unicode.is_decimal (Float.digit_chars ds) = true.
Proof.
  induction 1 as [|v ds Hv _ IH]; [reflexivity|].
  cbn [Float.digit_chars List.map forallb]. rewrite is_decimal_digit by assumption. exact IH.
Qed.

Lemma digit_chars_app a b :
  Float.digit_chars (a ++ b) = Float.digit_chars a ++ Float.digit_chars b.
Proof. apply List.map_app. Qed.

Lemma digit_chars_length ds : length (Float.digit_chars ds) = length ds.
Proof. apply List.length_map. Qed.

Lemma split_dot_digits a b :
  Forall digito a ->
  Float.split_dot (Float.digit_chars a ++ 46 :: b) = (Float.digit_chars a, Some b).
Proof.
  induction 1 as [|v a Hv _ IH]; [reflexivity|].
  cbn [Float.digit_chars List.map app Float.split_dot].
  fold (Float.digit_chars a).
  replace (48 + v =? 46) with false by (unfold digito in Hv; lia).
  rewrite IH. reflexivity.
Qed.

Lemma zeros_digitos n : Forall digito (repeat 0 n).
Proof. induction n; constructor; [unfold digito; lia | assumption]. Qed.

(** [float] of the numeral [a.b]. *)
Lemma of_str_digits a b :
  Forall digito a -> Forall digito b -> (0 < length (a ++ b))%nat ->
  Float.of_str (Float.digit_chars a ++ 46 :: Float.digit_chars b)
  = Ok (Float.of_ratio (val (a ++ b)) (10 ^ Z.of_nat (length b))).
Proof.
  intros Ha Hb Hlen. unfold Float.of_str.
  rewrite split_dot_digits by assumption. cbn [default from_option id].
  rewrite !digit_chars_decimal by assumption.
  rewrite <- digit_chars_app, digit_chars_length.
  destruct (length (a ++ b)) eqn:Hl; [lia|]. cbn [Nat.eqb negb andb].
  unfold Float.of_decimal.
  rewrite <- digit_chars_app, digits_value_chars, digit_chars_length
    by (apply Forall_app; split; assumption).
  reflexivity.
Qed.

(** [float] of a numeral printed in positional notation: with [t] the
    exponent of its last digit, the value is [val ds * 10^t]. *)
Lemma format_positional_reads ds dp :
  Forall digito ds ->
  let t := dp - Z.of_nat (length ds) in
  exists N f,
    Float.of_str (Float.format_positional ds dp) = Ok (Float.of_ratio N (10 ^ f))
    /\ 0 <= f /\ 0 <= t + f /\ N = val ds * 10 ^ (t + f).
Proof.
  intros Hds t. unfold Float.format_positional.
  destruct (dp <=? 0) eqn:H0; [|destruct (Z.of_nat (length ds) <=? dp) eqn:H1].
  - apply Z.leb_le in H0.
    exists (val ds), (Z.of_nat (length ds) - dp).
    change [48; 46] with (Float.digit_chars [0] ++ [46]).
    rewrite <- app_assoc, <- digit_chars_app. cbn [app].
    rewrite of_str_digits.
    + rewrite !val_app, val_zeros, !length_app, repeat_length.
      replace (t + (Z.of_nat (length ds) - dp)) with 0 by (unfold t; lia).
      rewrite Nat2Z.inj_add, Z2Nat.id by lia.
      replace (- dp + Z.of_nat (length ds)) with (Z.of_nat (length ds) - dp) by lia.
      split; [|lia]. f_equal; f_equal; unfold val; simpl; lia.
    + repeat constructor; unfold digito; lia.
    + apply Forall_app. split; [apply zeros_digitos | assumption].
    + simpl. lia.
  - apply Z.leb_gt in H0. apply Z.leb_le in H1.
    exists (val ds * 10 ^ (t + 1)), 1.
    change [46; 48] with (46 :: Float.digit_chars [0]).
    rewrite app_assoc, <- digit_chars_app.
    rewrite of_str_digits.
    + split; [|lia]. cbn [length Z.of_nat]. f_equal.
      change (Z.pos (Pos.of_succ_nat 0)) with 1.
      rewrite !val_app, val_zeros, repeat_length. cbn [length Z.of_nat].
      change (Z.pos (Pos.of_succ_nat 0)) with 1.
      rewrite Z2Nat.id by lia. fold t.
      f_equal. change (Z.of_nat 1) with 1. change (val [0]) with 0.
      rewrite Z.pow_add_r, Z.pow_1_r by (unfold t; lia). lia.
    + apply Forall_app. split; [assumption | apply zeros_digitos].
    + repeat constructor; unfold digito; lia.
    + rewrite length_app. simpl. lia.
  - apply Z.leb_gt in H0. apply Z.leb_gt in H1.
    exists (val ds), (Z.of_nat (length ds) - dp).
    cbn [app]. rewrite of_str_digits.
    + rewrite take_drop, length_drop.
      replace (t + (Z.of_nat (length ds) - dp)) with 0 by (unfold t; lia).
      replace (Z.of_nat (length ds - Z.to_nat dp)) with (Z.of_nat (length ds) - dp) by lia.
      split; [reflexivity | lia].
    + apply Forall_take, Hds.
    + apply Forall_drop, Hds.
    + rewrite take_drop. lia.
Qed.

Lemma same_refl x : Float.same x x = true.
Proof.
  destruct x as [s|s| |s m e]; cbn [Float.same]; try reflexivity;
    rewrite ?eqb_reflx, ?Pos.eqb_refl, ?Z.eqb_refl; reflexivity.
Qed.

Lemma same_eq x y : Float.same x y = true -> x = y.
Proof.
  destruct x as [a|a| |a m e], y as [b|b| |b m' e']; cbn [Float.same];
    try discriminate; try reflexivity.
  - intros H. apply eqb_prop in H. congruence.
  - intros H. apply eqb_prop in H. congruence.
  - intros H. apply andb_prop in H as [H He]. apply andb_prop in H as [Hs Hm].
    apply eqb_prop in Hs. apply Pos.eqb_eq in Hm. apply Z.eqb_eq in He. congruence.
Qed.

(** A numeral whose value is exactly the float reads back as it. *)
Lemma numeral_reads_back_exact m e q nd k :
  SpecFloat.bounded Float.prec Float.emax m e = true ->
  0 < q -> 0 <= nd - k ->
  q * Float.denom e = Float.numer m e * 10 ^ (nd - k) ->
  Float.reads_back (S754_finite false m e) (Float.numeral q nd k) = true.
Proof.
  intros Hb Hq Hj Heq. unfold Float.reads_back, Float.numeral. cbn [fst snd].
  set (ds := Float.digits_rev (S (Z.to_nat (Z.log2 q))) q).
  assert (Hval : val_rev ds = q).
  { apply digits_rev_val. split; [lia | apply lt_pow10_log2; lia]. }
  assert (Hdig : Forall digito ds) by (apply digits_rev_digitos; lia).
  destruct (drop_zeros_val ds) as [Hz Hlen].
  set (DS := rev (Float.drop_zeros ds)).
  assert (HDS : Forall digito DS) by (apply Forall_rev, drop_zeros_digitos, Hdig).
  assert (HvDS : val DS = val_rev (Float.drop_zeros ds)) by apply val_rev_rev.
  assert (HlDS : length DS = length (Float.drop_zeros ds)) by apply length_rev.
  destruct (format_positional_reads DS (k + (Z.of_nat (length ds) - nd)) HDS)
    as (N & f & -> & Hf & Htf & HN).
  rewrite HlDS in Htf, HN.
  set (z := Z.of_nat (length ds) - Z.of_nat (length (Float.drop_zeros ds))) in *.
  assert (Hz0 : 0 <= z) by (unfold z; lia).
  set (j := nd - k) in *.
  replace (k + (Z.of_nat (length ds) - nd) - Z.of_nat (length (Float.drop_zeros ds)) + f)
    with (z - j + f) in Htf, HN by (unfold z, j; lia).
  rewrite Hval, <- HvDS in Hz.
  assert (Hv0 : 0 < val DS).
  { assert (0 < 10 ^ z) by (apply Z.pow_pos_nonneg; lia). nia. }
  assert (H10j : 0 < 10 ^ j) by (apply Z.pow_pos_nonneg; lia).
  assert (H10f : 0 < 10 ^ f) by (apply Z.pow_pos_nonneg; lia).
  assert (H10 : 0 < 10 ^ (z - j + f)) by (apply Z.pow_pos_nonneg; lia).
  assert (HNj : N * 10 ^ j = q * 10 ^ f).
  { rewrite HN, Hz, <- !Z.mul_assoc, <- !Z.pow_add_r by lia. do 2 f_equal. lia. }
  rewrite (of_ratio_exact N (10 ^ f) m e); [apply same_refl | nia | lia | exact Hb |].
  apply (Z.mul_reg_r _ _ (10 ^ j)); [lia|].
  replace (N * Float.denom e * 10 ^ j) with ((N * 10 ^ j) * Float.denom e) by lia.
  rewrite HNj.
  replace (q * 10 ^ f * Float.denom e) with ((q * Float.denom e) * 10 ^ f) by lia.
  rewrite Heq. lia.
Qed.

(** ** The digit search of [str] succeeds *)

Lemma candidate_reads_back x n d k nd num :
  Float.candidate x n d k nd = Some num -> Float.reads_back x num = true.
Proof.
  unfold Float.candidate. destruct (Float.neighbours n d k nd) as [c1 c2].
  destruct (Float.reads_back x (Float.numeral c1 nd k)) eqn:H1.
  - intros [= <-]. exact H1.
  - destruct (Float.reads_back x (Float.numeral c2 nd k)) eqn:H2; [|discriminate].
    intros [= <-]. exact H2.
Qed.

Lemma shortest_from_reads_back x n d k fuel : forall nd,
  (exists nd0, nd <= nd0 < nd + Z.of_nat fuel /\ Float.candidate x n d k nd0 <> None) ->
  Float.reads_back x (Float.shortest_from x n d k nd fuel) = true.
Proof.
  induction fuel as [|fuel IH]; intros nd (nd0 & Hrange & Hc).
  - simpl in Hrange. lia.
  - cbn [Float.shortest_from].
    destruct (Float.candidate x n d k nd) as [num|] eqn:Hnd.
    + eapply candidate_reads_back, Hnd.
    + apply IH. exists nd0. split; [|exact Hc].
      assert (nd0 <> nd) by (intros ->; congruence). lia.
Qed.

Lemma pow10_split a : 0 <= a -> 10 ^ a = 5 ^ a * 2 ^ a.
Proof. intros Ha. rewrite <- Z.pow_mul_l. reflexivity. Qed.

(** With enough digits the numeral next to the value is the value. *)
Lemma candidate_exact m e k :
  SpecFloat.bounded Float.prec Float.emax m e = true ->
  let nd := Z.max 1 (k + Z.max 0 (- e)) in
  Float.candidate (S754_finite false m e) (Float.numer m e) (Float.denom e) k nd <> None.
Proof.
  intros Hb nd.
  set (j := nd - k). assert (Hj : 0 <= j) by (unfold j, nd; lia).
  assert (Hje : 0 <= j + e \/ 0 <= e) by (unfold j, nd; lia).
  set (n := Float.numer m e). set (d := Float.denom e).
  assert (Hn : 0 < n).
  { unfold n, Float.numer. destruct (0 <=? e) eqn:H0; [|lia].
    apply Z.leb_le in H0. assert (0 < 2 ^ e) by (apply Z.pow_pos_nonneg; lia). nia. }
  assert (Hd : 0 < d).
  { unfold d, Float.denom. destruct (0 <=? e) eqn:H0; [lia|].
    apply Z.leb_gt in H0. apply Z.pow_pos_nonneg; lia. }
  assert (Hdiv : exists q, 0 < q /\ n * 10 ^ j = q * d).
  { assert (H10 : 0 < 10 ^ j) by (apply Z.pow_pos_nonneg; lia).
    unfold d, Float.denom. destruct (0 <=? e) eqn:H0.
    - exists (n * 10 ^ j). split; [nia | lia].
    - apply Z.leb_gt in H0. destruct Hje as [Hje | ?]; [|lia].
      exists (n * (10 ^ (j + e) * 5 ^ (- e))). split.
      + assert (0 < 10 ^ (j + e)) by (apply Z.pow_pos_nonneg; lia).
        assert (0 < 5 ^ (- e)) by (apply Z.pow_pos_nonneg; lia). nia.
      + replace j with ((j + e) + - e) at 1 by lia.
        rewrite Z.pow_add_r, (pow10_split (- e)) by lia. lia. }
  destruct Hdiv as (q & Hq & Hqd).
  unfold Float.candidate, Float.neighbours. fold j n d.
  replace (Z.max j 0) with j by lia. replace (Z.max (- j) 0) with 0 by lia.
  rewrite Z.pow_0_r, Z.mul_1_r, Hqd, Z.div_mul, Z.mod_mul by lia.
  replace (2 * 0 <? d) with true by (symmetry; apply Z.ltb_lt; lia).
  rewrite (numeral_reads_back_exact m e q nd k Hb Hq); [discriminate | fold j; lia |].
  fold j d n. lia.
Qed.

Lemma shortest_digits_reads_back m e :
  SpecFloat.bounded Float.prec Float.emax m e = true ->
  Float.reads_back (S754_finite false m e)
    (Float.shortest_digits (S754_finite false m e) m e) = true.
Proof.
  intros Hb. unfold Float.shortest_digits.
  set (k := Float.find_decpt _ _ _ _).
  apply shortest_from_reads_back.
  exists (Z.max 1 (k + Z.max 0 (- e))). split.
  - unfold Float.digits_bound. lia.
  - apply candidate_exact, Hb.
Qed.

(** [str(v)], when positional, reads back as [v]. *)
Lemma to_str_reads_back v :
  valid64 false v -> Float.positional v = true -> Float.of_str (Float.to_str v) = Ok v.
Proof.
  destruct v as [[]|[]| |[] m e]; cbn [Float.positional valid64]; try discriminate;
    try (intros [[=] _]; fail).
  - intros _ _. vm_compute. reflexivity.
  - intros [_ Hb] Hpos. cbn [Float.to_str].
    pose proof (shortest_digits_reads_back m e Hb) as Hr.
    destruct (Float.shortest_digits (S754_finite false m e) m e) as [ds dp].
    cbn [snd] in Hpos. apply negb_true_iff in Hpos. rewrite Hpos.
    cbn [Float.sign_chars app].
    unfold Float.reads_back in Hr. cbn [fst snd] in Hr.
    destruct (Float.of_str (Float.format_positional ds dp)) as [y|]; [|discriminate].
    apply same_eq in Hr. congruence.
Qed.

(** A value half way between two shortest numerals is printed with the
    even last digit. *)
Lemma to_str_empate :
  Float.to_str (dec 80000000000000375 3) = py "80000000000000.38"
  /\ Float.to_str (dec 80000000000000125 3) = py "80000000000000.12"
  /\ Float.to_str (dec 64450673972050175 2) = py "644506739720501.8".
Proof. repeat split; vm_compute; reflexivity. Qed.

Lemma normalizar_importe_valid x v :
  normalizar_importe x = Ok (Some v) -> valid64 false v.
Proof.
  unfold normalizar_importe.
  destruct (negb (truthy (of_opt_str x))); [discriminate|].
  destruct (limpiar x) as [s|]; cbn [mbind res_bind]; [|discriminate].
  unfold Float.of_str. destruct (Float.split_dot s) as [ip fp].
  destruct (_ && _ && _); cbn [mbind res_bind try_except]; [|discriminate].
  intros [= <-]. apply of_ratio_valid.
Qed.

End Binary64.

(** * The claims *)

(** C1. On the end-to-end scenario of the specification the record has
    invoice number "A123", date "01/02/2024", base 80.00, tax 16.80,
    total 96.80 and an empty customer, whatever the filename; the supplier
    identifier, however, comes out empty and not "B12345678": [patron_nif]
    wants the identifier immediately after "CIF", and only its "IVA:"
    alternative lets a colon and blanks through. *)
Theorem C1_escenario_completo (nombre_fichero : pystr) :
  let r := extraer_datos_factura_completo texto_escenario nombre_fichero in
  campo "numero_factura" r = Ok (Some (VStr (py "A123")))
  /\ campo "fecha_factura" r = Ok (Some (VStr (py "01/02/2024")))
  /\ campo "base_imponible" r = Ok (Some (VFloat (dec 8000 2)))
  /\ campo "iva" r = Ok (Some (VFloat (dec 1680 2)))
  /\ campo "total" r = Ok (Some (VFloat (dec 9680 2)))
  /\ campo "cliente" r = Ok (Some (VStr []))
  /\ campo "nombre_fichero" r = Ok (Some (VStr nombre_fichero))
  /\ campo "proveedor" r = Ok (Some (VStr []))
  /\ Re.search I_only patron_nif texto_escenario = None.
Proof. repeat split; vm_compute; reflexivity. Qed.

(** C2. When the label patterns leave a total [t] and no base, the base
    becomes the first of the candidate amounts of the window, in order of
    appearance, that lies between [0.7 * t] and [0.95 * t], and stays
    [None] when there is none; the total is kept, and the tax is what the
    patterns left in every case. With "Total: 100,00" and a bare "85,00"
    the base is 85.00; a bare "50,00" is never taken for a total of 100. *)
Theorem C2_fallback_base :
  (forall texto r t,
      aplicar_patrones (zona_resumen texto) = Ok r ->
      r !! "total" = Some (VFloat t) -> r !! "base_imponible" = Some VNone ->
      exists imps d,
        importes_normalizados texto = Ok imps
        /\ imps = flat_map (fun x => es_importe (valor_de (Some x)))
                    (Re.findall no_flags patron_importes (zona_resumen texto))
        /\ extraer_importes_universal texto = Ok d
        /\ d !! "base_imponible" = Some (of_opt_float (List.find (banda t) imps))
        /\ d !! "total" = Some (VFloat t))
  /\ (forall texto r d,
      aplicar_patrones (zona_resumen texto) = Ok r ->
      extraer_importes_universal texto = Ok d -> d !! "iva" = r !! "iva")
  /\ (forall texto r d,
      aplicar_patrones (zona_resumen texto) = Ok r ->
      r !! "total" = Some (VFloat (dec 10000 2)) -> r !! "base_imponible" = Some VNone ->
      extraer_importes_universal texto = Ok d ->
      d !! "base_imponible" <> Some (VFloat (dec 5000 2)))
  /\ campo "total" (extraer_importes_universal texto_total_85)
       = Ok (Some (VFloat (dec 10000 2)))
  /\ campo "base_imponible" (extraer_importes_universal texto_total_85)
       = Ok (Some (VFloat (dec 8500 2)))
  /\ campo "base_imponible" (extraer_importes_universal texto_total_50) = Ok (Some VNone).
Proof.
  assert (General : forall texto r t,
      aplicar_patrones (zona_resumen texto) = Ok r ->
      r !! "total" = Some (VFloat t) -> r !! "base_imponible" = Some VNone ->
      exists imps d,
        importes_normalizados texto = Ok imps
        /\ imps = flat_map (fun x => es_importe (valor_de (Some x)))
                    (Re.findall no_flags patron_importes (zona_resumen texto))
        /\ extraer_importes_universal texto = Ok d
        /\ d !! "base_imponible" = Some (of_opt_float (List.find (banda t) imps))
        /\ d !! "total" = Some (VFloat t)).
  { intros texto r t Er Ht Hb.
    destruct (aplicar_patrones_ok (zona_resumen texto)) as (r' & Er' & Hr).
    rewrite Er in Er'. injection Er' as <-.
    eexists; eexists. split; [apply importes_normalizados_ok|]. split; [reflexivity|].
    rewrite (extraer_importes_universal_eq _ _ _ (importes_normalizados_ok texto) Er).
    rewrite (fallback_base _ r t Hr Ht Hb).
    split; [reflexivity|].
    destruct (List.find (banda t) _) as [v|]; cbn [of_opt_float].
    - rewrite lookup_insert_eq, lookup_insert_ne by discriminate. auto.
    - auto. }
  split; [exact General|]. split; [|split; [|repeat split; vm_compute; reflexivity]].
  - intros texto r d Er Ed.
    destruct (aplicar_patrones_ok (zona_resumen texto)) as (r' & Er' & Hr).
    rewrite Er in Er'. injection Er' as <-.
    rewrite (extraer_importes_universal_eq _ _ _ (importes_normalizados_ok texto) Er) in Ed.
    match type of Ed with
    | fallback ?imps _ = _ =>
        destruct (fallback_ok imps r Hr) as (d' & Ed' & _ & _ & _ & Hother)
    end.
    rewrite Ed in Ed'. injection Ed' as <-.
    apply Hother. discriminate.
  - intros texto r d Er Ht Hb Ed.
    destruct (General texto r _ Er Ht Hb) as (imps & d' & _ & _ & Ed' & Hbase & _).
    rewrite Ed in Ed'. injection Ed' as <-. rewrite Hbase.
    destruct (List.find _ imps) as [v|] eqn:Hf; cbn [of_opt_float]; [|discriminate].
    apply List.find_some in Hf as [_ Hv]. intros [= ->].
    vm_compute in Hv. discriminate.
Qed.

Lemma C2_fallback_base_witness :
  exists imps d,
    importes_normalizados texto_total_85 = Ok imps
    /\ extraer_importes_universal texto_total_85 = Ok d
    /\ d !! "base_imponible" = Some (of_opt_float (List.find (banda (dec 10000 2)) imps))
    /\ d !! "total" = Some (VFloat (dec 10000 2)).
Proof.
  destruct C2_fallback_base as [H _].
  destruct (H texto_total_85 (<["total" := VFloat (dec 10000 2)]> resultado_inicial)
              (dec 10000 2))
    as (imps & d & H1 & _ & H2 & H3 & H4).
  - vm_compute. reflexivity.
  - vm_compute. reflexivity.
  - vm_compute. reflexivity.
  - exists imps, d. auto.
Defined.

(** C3. The patterns are applied in the order of the list, and an amount
    found by an earlier pattern survives every later pattern and the
    fallback. A window that starts with "Total: 100,00" and a line break
    has total 100.00 whatever follows, for instance "TOTAL: 200,00". *)
Theorem C3_primer_patron_gana :
  (forall texto l1 l2 r1 k v,
      patrones_universal = l1 ++ l2 ->
      for_each (paso (zona_resumen texto)) l1 resultado_inicial = Ok r1 ->
      r1 !! k = Some (VFloat v) ->
      exists r d,
        aplicar_patrones (zona_resumen texto) = Ok r /\ r !! k = Some (VFloat v)
        /\ extraer_importes_universal texto = Ok d /\ d !! k = Some (VFloat v))
  /\ (forall resto, length resto <= 2986 ->
      campo "total" (extraer_importes_universal (py "Total: 100,00" ++ nl ++ resto))
        = Ok (Some (VFloat (dec 10000 2))))
  /\ campo "total" (extraer_importes_universal texto_dos_totales)
       = Ok (Some (VFloat (dec 10000 2))).
Proof.
  assert (General : forall texto l1 l2 r1 k v,
      patrones_universal = l1 ++ l2 ->
      for_each (paso (zona_resumen texto)) l1 resultado_inicial = Ok r1 ->
      r1 !! k = Some (VFloat v) ->
      exists r d,
        aplicar_patrones (zona_resumen texto) = Ok r /\ r !! k = Some (VFloat v)
        /\ extraer_importes_universal texto = Ok d /\ d !! k = Some (VFloat v)).
  { intros texto l1 l2 r1 k v Hl E1 Hk.
    pose proof patrones_universal_validos as Hval. unfold campos_validos in Hval.
    rewrite Hl in Hval. apply Forall_app in Hval as [Hv1 Hv2].
    destruct (for_each_paso_ok (zona_resumen texto) l1 resultado_inicial
                resultado_inicial_bien_formado Hv1) as (r1' & E1' & Hr1 & _).
    rewrite E1 in E1'. injection E1' as <-.
    destruct (for_each_paso_ok (zona_resumen texto) l2 r1 Hr1 Hv2)
      as (r & E2 & Hr & Hkeep & _).
    assert (Er : aplicar_patrones (zona_resumen texto) = Ok r).
    { unfold aplicar_patrones. rewrite Hl, for_each_app, E1. exact E2. }
    destruct (fallback_ok (flat_map (fun x => es_importe (valor_de (Some x)))
                (Re.findall no_flags patron_importes (zona_resumen texto))) r Hr)
      as (d & Ed & _ & _ & Hkeep' & _).
    exists r, d. split; [exact Er|]. split; [apply Hkeep, Hk|].
    rewrite (extraer_importes_universal_eq _ _ _ (importes_normalizados_ok texto) Er).
    split; [exact Ed | apply Hkeep', Hkeep, Hk]. }
  split; [exact General|]. split; [|vm_compute; reflexivity].
  intros resto Hlen.
  set (texto := py "Total: 100,00" ++ nl ++ resto).
  assert (Hz : zona_resumen texto = texto).
  { unfold zona_resumen, Str.slice_last.
    replace (length texto - 3000) with 0; [reflexivity|].
    unfold texto. rewrite !length_app. simpl. lia. }
  destruct (General texto [List.hd (Empty, ""%string) patrones_universal]
              (List.tl patrones_universal)
              (<["total" := VFloat (dec 10000 2)]> resultado_inicial)
              "total"%string (dec 10000 2))
    as (r & d & _ & _ & Ed & Hd).
  - reflexivity.
  - rewrite Hz. unfold texto. vm_compute. reflexivity.
  - vm_compute. reflexivity.
  - unfold campo. rewrite Ed. cbn [mbind res_bind]. rewrite Hd. reflexivity.
Qed.

Lemma C3_primer_patron_gana_witness :
  exists r d,
    aplicar_patrones (zona_resumen texto_dos_totales) = Ok r
    /\ r !! "total" = Some (VFloat (dec 10000 2))
    /\ extraer_importes_universal texto_dos_totales = Ok d
    /\ d !! "total" = Some (VFloat (dec 10000 2)).
Proof.
  destruct C3_primer_patron_gana as [H _].
  apply (H texto_dos_totales [List.hd (Empty, ""%string) patrones_universal]
           (List.tl patrones_universal)
           (<["total" := VFloat (dec 10000 2)]> resultado_inicial)).
  - reflexivity.
  - vm_compute. reflexivity.
  - vm_compute. reflexivity.
Defined.


(** C4. Only the last 3000 characters are searched (the whole text when it
    is shorter): the window is a suffix of that length, and neither the
    candidate amounts, nor the labelled matches, nor the result depend on
    what comes before it. A labelled total and an amount placed before the
    window are not found; the same text inside the window is. *)
Theorem C4_solo_la_zona_final :
  (forall texto, exists antes,
      texto = antes ++ zona_resumen texto
      /\ length (zona_resumen texto) = Nat.min 3000 (length texto))
  /\ (forall texto, length texto <= 3000 -> zona_resumen texto = texto)
  /\ (forall antes zona, length zona = 3000 ->
      importes_normalizados (antes ++ zona) = importes_normalizados zona
      /\ aplicar_patrones (zona_resumen (antes ++ zona)) = aplicar_patrones zona
      /\ extraer_importes_universal (antes ++ zona) = extraer_importes_universal zona)
  /\ importes_normalizados texto_fuera_de_zona = Ok []
  /\ campo "total" (extraer_importes_universal texto_fuera_de_zona) = Ok (Some VNone)
  /\ campo "base_imponible" (extraer_importes_universal texto_fuera_de_zona) = Ok (Some VNone)
  /\ campo "total" (extraer_importes_universal texto_dentro_de_zona)
       = Ok (Some (VFloat (dec 10000 2)))
  /\ campo "base_imponible" (extraer_importes_universal texto_dentro_de_zona)
       = Ok (Some (VFloat (dec 8500 2))).
Proof.
  assert (Hsuf : forall antes zona, length zona = 3000 -> zona_resumen (antes ++ zona) = zona).
  { intros antes zona Hl. unfold zona_resumen, Str.slice_last.
    rewrite length_app, Hl.
    replace (length antes + 3000 - 3000) with (length antes) by lia.
    apply drop_app_length. }
  assert (Hshort : forall texto, length texto <= 3000 -> zona_resumen texto = texto).
  { intros texto Hl. unfold zona_resumen, Str.slice_last.
    replace (length texto - 3000) with 0 by lia. reflexivity. }
  split; [|split; [exact Hshort|split]].
  - intros texto. exists (take (length texto - 3000) texto).
    unfold zona_resumen, Str.slice_last. split.
    + symmetry. apply take_drop.
    + rewrite length_drop. lia.
  - intros antes zona Hl.
    assert (Hz : zona_resumen zona = zona) by (apply Hshort; lia).
    unfold extraer_importes_universal, importes_normalizados.
    rewrite (Hsuf antes zona Hl), Hz. auto.
  - repeat split; vm_compute; reflexivity.
Qed.

Lemma C4_solo_la_zona_final_witness :
  importes_normalizados (py "Total: 100,00 85,00" ++ repeat 32%Z 3000)
    = importes_normalizados (repeat 32%Z 3000)
  /\ extraer_importes_universal (py "Total: 100,00 85,00" ++ repeat 32%Z 3000)
    = extraer_importes_universal (repeat 32%Z 3000).
Proof.
  destruct C4_solo_la_zona_final as (_ & _ & H & _).
  destruct (H (py "Total: 100,00 85,00") (repeat 32%Z 3000)) as (H1 & _ & H3).
  - vm_compute. reflexivity.
  - split; [exact H1 | exact H3].
Defined.

(** C5, as amended. The record always carries the filename it was given
    under [nombre_fichero], and its [numero_factura] is not empty as soon
    as one of the three label patterns matches or the filename, once every
    ".pdf" is removed, is not empty. *)
Theorem C5_numero_y_nombre texto nombre_fichero :
  exists d numero,
    extraer_datos_factura_completo texto nombre_fichero = Ok d
    /\ d !! "numero_factura" = Some (VStr numero)
    /\ d !! "nombre_fichero" = Some (VStr nombre_fichero)
    /\ (numero_match texto <> None \/ Str.replace (py ".pdf") [] nombre_fichero <> [] ->
        numero <> []).
Proof.
  destruct (extraer_datos_factura_completo_ok texto nombre_fichero)
    as (numero & fecha & importes & proveedor & Hn & _ & Hd & ->).
  assert (Hfuera : forall k, k ∉ claves -> importes !! k = None).
  { intros k Hk. apply not_elem_of_dom. rewrite Hd. exact Hk. }
  eexists; exists numero. split; [reflexivity|]. split; [|split].
  - rewrite lookup_insert_ne by discriminate.
    rewrite lookup_union_r by (apply Hfuera, no_es_clave; reflexivity).
    rewrite lookup_insert_ne by discriminate. apply lookup_insert_eq.
  - rewrite lookup_insert_ne by discriminate.
    rewrite lookup_union_r by (apply Hfuera, no_es_clave; reflexivity).
    unfold datos_inicial. rewrite !lookup_insert_ne by discriminate.
    apply lookup_insert_eq.
  - unfold numero_de in Hn. intros Hcond.
    destruct (numero_match texto) as [m|] eqn:Hm.
    + destruct (numero_match_grupo texto m Hm) as (u & Hu & Hw & Hl).
      rewrite Hu in Hn. rewrite (normalizar_numero_word u Hw Hl) in Hn.
      injection Hn as <-.
      destruct u; [simpl in Hl; lia | discriminate].
    + injection Hn as <-. destruct Hcond as [Hc | Hc]; [congruence | exact Hc].
Qed.

Lemma C5_numero_y_nombre_witness :
  exists d numero,
    extraer_datos_factura_completo texto_sin_etiquetas (py "INV-2024-07.pdf") = Ok d
    /\ d !! "numero_factura" = Some (VStr numero)
    /\ d !! "nombre_fichero" = Some (VStr (py "INV-2024-07.pdf"))
    /\ numero <> [].
Proof.
  destruct (C5_numero_y_nombre texto_sin_etiquetas (py "INV-2024-07.pdf"))
    as (d & numero & H1 & H2 & H3 & H4).
  exists d, numero. repeat split; try assumption.
  apply H4. right. vm_compute. discriminate.
Defined.

(** C5 as stated fails: with no label in the text and the filename ".pdf"
    the invoice number is the empty string. *)
Lemma C5_contraejemplo :
  campo "numero_factura" (extraer_datos_factura_completo texto_sin_etiquetas (py ".pdf"))
    = Ok (Some (VStr []))
  /\ ~ (exists d numero,
         extraer_datos_factura_completo texto_sin_etiquetas (py ".pdf") = Ok d
         /\ d !! "numero_factura" = Some (VStr numero) /\ numero <> []).
Proof.
  assert (E : campo "numero_factura"
                (extraer_datos_factura_completo texto_sin_etiquetas (py ".pdf"))
              = Ok (Some (VStr []))) by (vm_compute; reflexivity).
  split; [exact E|].
  intros (d & numero & Hd & Hn & Hne).
  rewrite Hd in E. cbn [campo mbind res_bind] in E. rewrite Hn in E.
  injection E as ->. apply Hne. reflexivity.
Qed.

(** C6. The three normalisers return for every string and for [None];
    on [None] and on the empty string they give the empty string, the
    empty string and [None]. *)
Theorem C6_normalizadores_totales :
  (forall o, exists a b c,
      normalizar_numero o = Ok a /\ normalizar_fecha o = Ok b /\ normalizar_importe o = Ok c)
  /\ normalizar_numero None = Ok [] /\ normalizar_numero (Some []) = Ok []
  /\ normalizar_fecha None = Ok [] /\ normalizar_fecha (Some []) = Ok []
  /\ normalizar_importe None = Ok None /\ normalizar_importe (Some []) = Ok None.
Proof.
  split; [|repeat split].
  intros o.
  destruct (normalizar_numero_ok o) as [a Ha].
  destruct (normalizar_fecha_ok o) as [b Hb].
  exists a, b, (valor_de o). rewrite Ha, Hb, normalizar_importe_ok. auto.
Qed.

(** C7. [extraer_importes_universal] returns for every text a dictionary
    with exactly the keys total, base_imponible and iva, each bound to a
    number or [None]; [extraer_datos_factura_completo] returns for every
    text and filename a record with its eight keys. *)
Theorem C7_sin_excepciones :
  (forall texto, exists d,
      extraer_importes_universal texto = Ok d
      /\ dom d = {[ "total"; "base_imponible"; "iva" ]}
      /\ map_Forall (fun _ v => numero_o_none v) d)
  /\ (forall texto nombre_fichero, exists d,
      extraer_datos_factura_completo texto nombre_fichero = Ok d
      /\ dom d = claves_datos).
Proof.
  split.
  - intros texto. destruct (extraer_importes_universal_ok texto) as (d & Ed & Hd & Hty).
    exists d. split; [exact Ed|]. split; [exact Hd|].
    intros k v Hk. destruct (Hty k v Hk) as [-> | [x ->]]; exact I.
  - intros texto nombre_fichero.
    destruct (extraer_datos_factura_completo_ok texto nombre_fichero)
      as (numero & fecha & importes & proveedor & _ & _ & Hd & ->).
    eexists. split; [reflexivity|].
    rewrite dom_insert_L, dom_union_L, !dom_insert_L, Hd.
    unfold datos_inicial. rewrite !dom_insert_L, dom_empty_L.
    apply (proj1 (bool_decide_eq_true _)). vm_compute. reflexivity.
Qed.

(** C8, as amended. When [str(v)] of a normalised amount [v] is written
    in positional notation, that is without exponent ([v] is zero or the
    decimal point of its shortest numeral lies in positions -3 to 16),
    normalising it again gives [v]. *)
Theorem C8_idempotencia x v :
  normalizar_importe x = Ok (Some v) ->
  Float.positional v = true ->
  normalizar_importe (Some (Float.to_str v)) = Ok (Some v).
Proof.
  intros Hn Hp. apply normalizar_importe_cifras, to_str_reads_back; [|exact Hp].
  eapply normalizar_importe_valid, Hn.
Qed.

Lemma C8_idempotencia_witness :
  normalizar_importe (Some (Float.to_str (dec 9680 2))) = Ok (Some (dec 9680 2)).
Proof.
  apply (C8_idempotencia (Some (py "96,80 EUR")) (dec 9680 2)).
  - vm_compute. reflexivity.
  - vm_compute. reflexivity.
Defined.

(** C8 as stated fails: "0,00001" normalises to 1e-05, which [str]
    prints as "1e-05", and that normalises to 105.0; likewise
    "10000000000000000" gives 1e+16, printed "1e+16" and read as 116.0. *)
Lemma C8_contraejemplo :
  normalizar_importe (Some (py "0,00001")) = Ok (Some (dec 1 5))
  /\ Float.to_str (dec 1 5) = py "1e-05"
  /\ normalizar_importe (Some (Float.to_str (dec 1 5))) = Ok (Some (dec 105 0))
  /\ dec 105 0 <> dec 1 5
  /\ normalizar_importe (Some (py "10000000000000000")) = Ok (Some (dec 10000000000000000 0))
  /\ Float.to_str (dec 10000000000000000 0) = py "1e+16"
  /\ normalizar_importe (Some (Float.to_str (dec 10000000000000000 0)))
     = Ok (Some (dec 116 0)).
Proof. repeat split; try (vm_compute; reflexivity). vm_compute. discriminate. Qed.

(** C9. When none of the three label patterns matches the invoice number
    is the filename with every occurrence of ".pdf" deleted, which gives
    "INV-2024-07" for "INV-2024-07.pdf" but "factura" for
    "factura.pdf.pdf", whose name without extension is "factura.pdf". *)
Theorem C9_numero_desde_fichero :
  numero_match texto_sin_etiquetas = None
  /\ campo "numero_factura"
       (extraer_datos_factura_completo texto_sin_etiquetas (py "INV-2024-07.pdf"))
     = Ok (Some (VStr (py "INV-2024-07")))
  /\ sin_extension (py "INV-2024-07.pdf") = py "INV-2024-07"
  /\ campo "numero_factura"
       (extraer_datos_factura_completo texto_sin_etiquetas (py "factura.pdf.pdf"))
     = Ok (Some (VStr (py "factura")))
  /\ sin_extension (py "factura.pdf.pdf") = py "factura.pdf".
Proof. repeat split; vm_compute; reflexivity. Qed.

(** C10. An amount equal to 0.0 counts as absent: a pattern whose value
    normalises to zero leaves the dictionary as it was, tokens that
    normalise to zero are not among the candidates, and with a total of
    zero the fallback changes nothing. In "Total factura: 0,00 / Total:
    5,00" the first pattern finds 0,00 and the second then sets 5.00. *)
Theorem C10_cero_es_ausente :
  (forall zona resultado patron k m x,
      Re.search I_S patron zona = Some m ->
      normalizar_importe (group1 m) = Ok (Some x) -> Float.nonzero x = false ->
      is_Some (resultado !! k) ->
      paso zona resultado (patron, k) = Ok resultado)
  /\ (forall x xs z,
      normalizar_importe (Some x) = Ok (Some z) -> Float.nonzero z = false ->
      normalizar_todos (x :: xs) = normalizar_todos xs)
  /\ (forall texto imps,
      importes_normalizados texto = Ok imps -> Forall (fun x => Float.nonzero x = true) imps)
  /\ (forall imps resultado s,
      resultado !! "total" = Some (VFloat (S754_zero s)) ->
      fallback imps resultado = Ok resultado)
  /\ campo "total" (extraer_importes_universal texto_total_cero)
       = Ok (Some (VFloat (dec 500 2))).
Proof.
  split; [|split; [|split; [|split; [|vm_compute; reflexivity]]]].
  - intros zona resultado patron k m x Hs Hn Hx [v Hv].
    unfold paso, getitem. rewrite Hs, Hv. cbn [mbind res_bind].
    destruct (negb (truthy v)); [|reflexivity].
    rewrite Hn. cbn [mbind res_bind of_opt_float truthy]. rewrite Hx. reflexivity.
  - intros x xs z Hn Hz. cbn [normalizar_todos]. rewrite Hn.
    cbn [mbind res_bind of_opt_float truthy]. rewrite Hz. reflexivity.
  - intros texto imps. rewrite importes_normalizados_ok. intros [= <-].
    apply Forall_flat_map, Forall_forall. intros x _.
    unfold es_importe. destruct (valor_de (Some x)) as [v|]; [|constructor].
    destruct (Float.nonzero v) eqn:Hv; repeat constructor. exact Hv.
  - intros imps resultado s Ht. unfold fallback, getitem. rewrite Ht. reflexivity.
Qed.

Lemma C10_cero_es_ausente_witness :
  paso (py "Total factura: 0,00") resultado_inicial
    (List.hd (Empty, ""%string) patrones_universal) = Ok resultado_inicial.
Proof.
  destruct C10_cero_es_ausente as [H _].
  refine (H (py "Total factura: 0,00") resultado_inicial _ "total"%string
            {| group0 := py "Total factura: 0,00"; group1 := Some (py "0,00"); rest := [] |}
            (S754_zero false) _ _ _ _).
  - vm_compute. reflexivity.
  - vm_compute. reflexivity.
  - reflexivity.
  - exists VNone. vm_compute. reflexivity.
Defined.

(** * Further properties of the code *)

(** ** The clean-up of [normalizar_importe], character by character *)

Lemma lstrip_split s :
  exists l, s = l ++ Str.lstrip s /\ Forall (fun c => Unicode.is_space c = true) l.
Proof.
  induction s as [|c s (l & Hs & Hl)].
  - exists []. split; [reflexivity | constructor].
  - cbn [Str.lstrip]. destruct (Unicode.is_space c) eqn:Hc.
    + exists (c :: l). split; [cbn [app]; congruence | constructor; assumption].
    + exists []. split; [reflexivity | constructor].
Qed.

Lemma strip_split s :
  exists l r, s = l ++ Str.strip s ++ r
    /\ Forall (fun c => Unicode.is_space c = true) l
    /\ Forall (fun c => Unicode.is_space c = true) r.
Proof.
  destruct (lstrip_split s) as (l & Hs & Hl).
  destruct (lstrip_split (rev (Str.lstrip s))) as (r & Hr & Hrs).
  exists l, (rev r). unfold Str.strip, Str.rstrip. split; [|split].
  - rewrite Hs at 1. f_equal.
    rewrite <- (rev_involutive (Str.lstrip s)) at 1. rewrite Hr at 1.
    apply rev_app_distr.
  - exact Hl.
  - apply Forall_rev, Hrs.
Qed.

Lemma replace_from_char a new s :
  Str.replace_from [a] new s 0 = flat_map (fun c => if (a =? c)%Z then new else [c]) s.
Proof.
  induction s as [|c s IH]; [reflexivity|].
  cbn [Str.replace_from Str.startswith flat_map length Nat.pred].
  rewrite andb_true_r. destruct (a =? c)%Z; rewrite IH; reflexivity.
Qed.

Lemma flat_map_flat_map {A B C : Type} (f : A -> list B) (g : B -> list C) l :
  flat_map g (flat_map f l) = flat_map (fun a => flat_map g (f a)) l.
Proof.
  induction l as [|a l IH]; [reflexivity|].
  cbn [flat_map]. rewrite flat_map_app, IH. reflexivity.
Qed.

Lemma guarda_space c : Unicode.is_space c = true -> guarda c = [].
Proof.
  intros Hs. unfold guarda.
  assert (H44 : (c =? 44)%Z = false).
  { apply Z.eqb_neq. intros ->. vm_compute in Hs. discriminate. }
  assert (H46 : (c =? 46)%Z = false).
  { apply Z.eqb_neq. intros ->. vm_compute in Hs. discriminate. }
  rewrite H44, H46, (space_not_decimal c Hs). reflexivity.
Qed.

Lemma limpio_spaces l : Forall (fun c => Unicode.is_space c = true) l -> limpio l = [].
Proof.
  unfold limpio. induction 1 as [|c l Hc _ IH]; [reflexivity|].
  cbn [flat_map]. rewrite (guarda_space c Hc), IH. reflexivity.
Qed.

(** One character through the two substitutions and the replacement. *)
Lemma guarda_paso c :
  flat_map (fun x => if atom_match no_flags
                         (Set_ true [IDigit; IChar (chr "."); IChar (chr ",")]) x
                     then [] else [x])
    (flat_map (fun x => if (44 =? x)%Z then [46%Z] else [x])
       (if atom_match no_flags
             (Set_ false [IChar 8364%Z; IChar (chr "E"); IChar (chr "U");
                          IChar (chr "R"); ISpace; IChar 8364%Z]) c
        then [] else [c]))
  = guarda c.
Proof.
  cbn [atom_match existsb item_match no_flags IGNORECASE xorb].
  change (chr "E") with 69%Z. change (chr "U") with 85%Z. change (chr "R") with 82%Z.
  change (chr ".") with 46%Z. change (chr ",") with 44%Z.
  unfold guarda. rewrite (Z.eqb_sym c 44), (Z.eqb_sym c 46).
  destruct (8364 =? c)%Z eqn:H1; [apply Z.eqb_eq in H1; subst c; vm_compute; reflexivity|].
  destruct (69 =? c)%Z eqn:H2; [apply Z.eqb_eq in H2; subst c; vm_compute; reflexivity|].
  destruct (85 =? c)%Z eqn:H3; [apply Z.eqb_eq in H3; subst c; vm_compute; reflexivity|].
  destruct (82 =? c)%Z eqn:H4; [apply Z.eqb_eq in H4; subst c; vm_compute; reflexivity|].
  destruct (44 =? c)%Z eqn:H5; [apply Z.eqb_eq in H5; subst c; vm_compute; reflexivity|].
  destruct (46 =? c)%Z eqn:H6; [apply Z.eqb_eq in H6; subst c; vm_compute; reflexivity|].
  cbn [orb]. rewrite !orb_false_r.
  destruct (Unicode.is_space c) eqn:Hs.
  - cbn [flat_map]. rewrite (space_not_decimal c Hs). reflexivity.
  - cbn [flat_map app]. rewrite H5. cbn [flat_map app]. rewrite H5, H6, !orb_false_r.
    destruct (Unicode.is_decimal c); reflexivity.
Qed.

(** The clean-up keeps the digits, dots and commas of the text, in
    order, with every comma turned into a dot; [strip] and the first
    substitution take away nothing that the second would have kept. *)
Lemma limpiar_limpio (s : pystr) : limpiar (Some s) = Ok (limpio s).
Proof.
  unfold limpiar. cbn [str_of re_sub mbind res_bind]. f_equal.
  unfold Str.replace. cbn [py list_ascii_of_string List.map].
  change (Z.of_N (N_of_ascii ",")) with 44%Z. change (Z.of_N (N_of_ascii ".")) with 46%Z.
  rewrite replace_from_char. unfold Re.sub.
  rewrite !flat_map_flat_map.
  destruct (strip_split s) as (l & r & Hs & Hl & Hr).
  rewrite Hs at 2. unfold limpio. rewrite !flat_map_app.
  fold (limpio l). fold (limpio r). rewrite (limpio_spaces l Hl), (limpio_spaces r Hr).
  rewrite app_nil_r. cbn [app].
  apply flat_map_ext. intros c. rewrite <- guarda_paso.
  rewrite flat_map_flat_map. reflexivity.
Qed.

Lemma normalizar_importe_limpio (s : pystr) :
  normalizar_importe (Some s)
  = Ok (match Float.of_str (limpio s) with Ok x => Some x | Raise _ => None end).
Proof.
  unfold normalizar_importe. cbn [of_opt_str truthy].
  destruct s as [|c s]; [reflexivity|]. cbn [length Nat.eqb negb].
  rewrite limpiar_limpio. cbn [mbind res_bind].
  destruct (Float.of_str (limpio (c :: s))); reflexivity.
Qed.

Lemma binary_round_aux_sign sx mx ex lx :
  match binary_round_aux Float.prec Float.emax sx mx ex lx with
  | S754_zero s | S754_infinity s | S754_finite s _ _ => s = sx
  | S754_nan => True
  end.
Proof.
  unfold binary_round_aux.
  destruct (shr_fexp Float.prec Float.emax mx ex lx) as [mrs1 e1].
  destruct (shr_fexp Float.prec Float.emax _ e1 loc_Exact) as [mrs2 e2].
  destruct (shr_m mrs2); [reflexivity | | exact I].
  destruct (e2 <=? Float.emax - Float.prec)%Z; reflexivity.
Qed.

(** A float that is not NaN and has no minus sign. *)
Lemma of_ratio_no_negativo n d :
  match Float.of_ratio n d with
  | S754_zero s | S754_infinity s | S754_finite s _ _ => s = false
  | S754_nan => False
  end.
Proof.
  pose proof (of_ratio_valid n d) as Hv. revert Hv.
  unfold Float.of_ratio. destruct n as [|n|n]; [reflexivity | | reflexivity].
  destruct d as [|d|d]; [reflexivity | | reflexivity].
  cbn [SFdiv].
  destruct (SFdiv_core_binary Float.prec Float.emax (Z.pos n) 0 (Z.pos d) 0) as [[q e'] l].
  cbn [xorb]. pose proof (binary_round_aux_sign false q e' l) as Hs.
  destruct (binary_round_aux Float.prec Float.emax false q e' l); cbn [valid64]; auto.
Qed.

Lemma of_str_of_ratio s y : Float.of_str s = Ok y -> exists n d, y = Float.of_ratio n d.
Proof.
  unfold Float.of_str. destruct (Float.split_dot s) as [ip fp].
  destruct (_ && _ && _); [|discriminate].
  intros [= <-]. unfold Float.of_decimal. eauto.
Qed.

(** Dots of an accepted numeral. *)
Lemma split_dot_count s ip fp :
  Float.split_dot s = (ip, fp) ->
  Forall (fun c => Unicode.is_decimal c = true) ip ->
  Forall (fun c => Unicode.is_decimal c = true) (default [] fp) ->
  (length (List.filter (fun c => (c =? 46)%Z) s) <= 1)%nat.
Proof.
  assert (Hnone : forall l, Forall (fun c => Unicode.is_decimal c = true) l ->
                            List.filter (fun c => (c =? 46)%Z) l = []).
  { induction 1 as [|c l Hc _ IH]; [reflexivity|]. cbn [List.filter].
    replace (c =? 46)%Z with false; [exact IH|].
    symmetry. apply Z.eqb_neq. intros ->. vm_compute in Hc. discriminate. }
  revert ip fp. induction s as [|c s IH]; intros ip fp Hs Hip Hfp; [simpl; lia|].
  cbn [Float.split_dot] in Hs. cbn [List.filter]. destruct (c =? 46)%Z eqn:Hc.
  - injection Hs as <- <-. cbn [default from_option id] in Hfp.
    rewrite (Hnone s Hfp). simpl. lia.
  - destruct (Float.split_dot s) as [a b]. injection Hs as <- <-.
    inversion Hip; subst. eapply IH; [reflexivity | assumption | assumption].
Qed.

Lemma of_str_one_dot s y :
  Float.of_str s = Ok y -> (length (List.filter (fun c => (c =? 46)%Z) s) <= 1)%nat.
Proof.
  unfold Float.of_str. destruct (Float.split_dot s) as [ip fp] eqn:Hs.
  destruct (forallb Unicode.is_decimal ip && forallb Unicode.is_decimal (default [] fp)
            && negb (Nat.eqb (length (ip ++ default [] fp)) 0)) eqn:Hc; [|discriminate].
  intros _. apply andb_prop in Hc as [Hc _]. apply andb_prop in Hc as [Hip Hfp].
  eapply split_dot_count; [exact Hs | |]; apply forallb_Forall_true; assumption.
Qed.

Lemma limpio_dots s :
  length (List.filter (fun c => (c =? 46)%Z) (limpio s)) = separadores s.
Proof.
  unfold limpio, separadores, pystr, codepoint in *.
  induction s as [|c s IH]; [reflexivity|].
  cbn [flat_map List.filter]. rewrite List.filter_app, length_app, IH.
  unfold guarda. destruct (c =? 44)%Z eqn:H44.
  - cbn [orb List.filter length]. reflexivity.
  - cbn [orb]. destruct (c =? 46)%Z eqn:H46.
    + rewrite orb_true_r. cbn [List.filter]. rewrite H46. reflexivity.
    + rewrite orb_false_r. destruct (Unicode.is_decimal c); cbn [List.filter];
        rewrite ?H46; reflexivity.
Qed.

(** X1. [normalizar_importe] reads only the digits, dots and commas of
    its argument: it is [float] of what [limpio] keeps, or [None] when
    that is no numeral. A minus sign in front is therefore dropped, and the
    result is never negative and never NaN. *)
Theorem X1_importe_solo_cifras :
  (forall s : pystr,
      normalizar_importe (Some s)
      = Ok (match Float.of_str (limpio s) with Ok x => Some x | Raise _ => None end))
  /\ (forall s s' : pystr,
      limpio s = limpio s' -> normalizar_importe (Some s) = normalizar_importe (Some s'))
  /\ (forall s : pystr,
      normalizar_importe (Some (45%Z :: s)) = normalizar_importe (Some s))
  /\ (forall o, match normalizar_importe o with
                | Ok (Some (S754_zero sg)) | Ok (Some (S754_infinity sg))
                | Ok (Some (S754_finite sg _ _)) => sg = false
                | Ok (Some S754_nan) => False
                | Ok None => True
                | Raise _ => False
                end).
Proof.
  split; [exact normalizar_importe_limpio|]. split; [|split].
  - intros s s' H. rewrite !normalizar_importe_limpio, H. reflexivity.
  - intros s. rewrite !normalizar_importe_limpio. reflexivity.
  - intros [s|]; [|reflexivity]. rewrite normalizar_importe_limpio.
    destruct (Float.of_str (limpio s)) as [y|] eqn:Hy; [|exact I].
    destruct (of_str_of_ratio _ _ Hy) as (n & d & ->).
    apply of_ratio_no_negativo.
Qed.

Lemma X1_importe_solo_cifras_witness :
  normalizar_importe (Some (py "96,80 EUR")) = normalizar_importe (Some (py "=96.80"))
  /\ normalizar_importe (Some (py "-96,80")) = normalizar_importe (Some (py "96,80")).
Proof.
  destruct X1_importe_solo_cifras as (_ & H & Hminus & _). split.
  - apply H. vm_compute. reflexivity.
  - apply (Hminus (py "96,80")).
Defined.

(** X2. A text with two or more dots or commas, such as an amount
    written with a thousands separator, normalises to [None]; a window
    that starts with "Total: 1.234,56" therefore has no total, whatever
    follows. *)
Theorem X2_separador_de_miles :
  (forall s : pystr, 2 <= separadores s -> normalizar_importe (Some s) = Ok None)
  /\ (forall resto, length resto <= 2984 ->
      campo "total" (extraer_importes_universal (py "Total: 1.234,56" ++ nl ++ resto))
      = Ok (Some VNone)).
Proof.
  split.
  - intros s Hs. rewrite normalizar_importe_limpio.
    destruct (Float.of_str (limpio s)) as [y|] eqn:Hy; [|reflexivity].
    apply of_str_one_dot in Hy. rewrite limpio_dots in Hy. lia.
  - intros resto Hlen.
    set (texto := py "Total: 1.234,56" ++ nl ++ resto).
    assert (Hz : zona_resumen texto = texto).
    { unfold zona_resumen, Str.slice_last.
      replace (length texto - 3000) with 0; [reflexivity|].
      unfold texto. rewrite !length_app. simpl. lia. }
    assert (Hsplit : patrones_universal
                     = firstn 2 patrones_universal ++ skipn 2 patrones_universal)
      by reflexivity.
    assert (E1 : for_each (paso texto) (firstn 2 patrones_universal) resultado_inicial
                 = Ok resultado_inicial).
    { unfold texto. vm_compute. reflexivity. }
    pose proof patrones_universal_validos as Hval. unfold campos_validos in Hval.
    rewrite Hsplit in Hval. apply Forall_app in Hval as [_ Hv2].
    destruct (for_each_paso_ok texto (skipn 2 patrones_universal) resultado_inicial
                resultado_inicial_bien_formado Hv2) as (r & E2 & Hr & _ & Hother).
    assert (Er : aplicar_patrones (zona_resumen texto) = Ok r).
    { rewrite Hz. unfold aplicar_patrones. rewrite Hsplit, for_each_app, E1. exact E2. }
    assert (Ht : r !! "total" = Some VNone).
    { rewrite (Hother "total"%string); [reflexivity|].
      cbn [skipn patrones_universal]. repeat constructor; discriminate. }
    unfold campo.
    rewrite (extraer_importes_universal_eq _ _ _ (importes_normalizados_ok texto) Er).
    unfold fallback, getitem. rewrite Ht. cbn [mbind res_bind truthy].
    rewrite Ht. reflexivity.
Qed.

Lemma X2_separador_de_miles_witness :
  normalizar_importe (Some (py "1.234,56")) = Ok None.
Proof.
  destruct X2_separador_de_miles as [H _]. apply H. vm_compute. lia.
Defined.

(** ** The identifier and date normalisers *)

Lemma sub_keeps fl a s :
  Forall (fun c => atom_match fl a c = false) (Re.sub fl a [] s).
Proof.
  unfold Re.sub. induction s as [|c s IH]; [constructor|].
  cbn [flat_map]. destruct (atom_match fl a c) eqn:Hc; [exact IH|].
  constructor; assumption.
Qed.

Lemma de_numero_keep c :
  atom_match no_flags (Set_ true [IWord; IChar (chr "-")]) c = false <-> de_numero c.
Proof.
  cbn [atom_match existsb item_match no_flags IGNORECASE]. change (chr "-") with 45%Z.
  unfold de_numero. rewrite orb_false_r.
  destruct (Unicode.is_word c); cbn [orb xorb].
  - split; [left; reflexivity | reflexivity].
  - destruct (45 =? c)%Z eqn:H.
    + apply Z.eqb_eq in H. split; [right; congruence | reflexivity].
    + apply Z.eqb_neq in H. split; [discriminate | intros [? | ?]; congruence].
Qed.

Lemma de_fecha_keep c :
  atom_match no_flags
    (Set_ true [IDigit; IChar (chr "/"); IChar (chr "."); IChar (chr "-")]) c = false
  <-> de_fecha c.
Proof.
  cbn [atom_match existsb item_match no_flags IGNORECASE].
  change (chr "-") with 45%Z. change (chr "/") with 47%Z. change (chr ".") with 46%Z.
  unfold de_fecha. rewrite orb_false_r.
  destruct (Unicode.is_decimal c); cbn [orb xorb].
  { split; [left; reflexivity | reflexivity]. }
  destruct (47 =? c)%Z eqn:H1; cbn [orb xorb].
  { apply Z.eqb_eq in H1. split; [right; left; congruence | reflexivity]. }
  destruct (46 =? c)%Z eqn:H2; cbn [orb xorb].
  { apply Z.eqb_eq in H2. split; [right; right; left; congruence | reflexivity]. }
  destruct (45 =? c)%Z eqn:H3; cbn [orb xorb].
  { apply Z.eqb_eq in H3. split; [right; right; right; congruence | reflexivity]. }
  apply Z.eqb_neq in H1, H2, H3.
  split; [discriminate | intros [? | [? | [? | ?]]]; congruence].
Qed.

Lemma de_numero_not_space c : de_numero c -> Unicode.is_space c = false.
Proof.
  intros [Hw | ->]; [|vm_compute; reflexivity].
  destruct (Unicode.is_space c) eqn:Hs; [|reflexivity].
  apply space_not_word in Hs. congruence.
Qed.

(** X3. [normalizar_numero] returns only word characters and hyphens,
    and normalising its result again changes nothing. *)
Theorem X3_numero_idempotente (o : option pystr) :
  exists r, normalizar_numero o = Ok r /\ Forall de_numero r
            /\ normalizar_numero (Some r) = Ok r.
Proof.
  assert (Hid : forall r : pystr, Forall de_numero r -> normalizar_numero (Some r) = Ok r).
  { intros r Hr. unfold normalizar_numero. cbn [of_opt_str truthy str_of].
    destruct r as [|c r]; [reflexivity|]. cbn [length Nat.eqb negb re_sub].
    rewrite strip_id by (eapply Forall_impl; [exact Hr | apply de_numero_not_space]).
    rewrite sub_id; [reflexivity|].
    eapply Forall_impl; [exact Hr|]. intros x Hx. apply de_numero_keep, Hx. }
  unfold normalizar_numero at 1. destruct (truthy (of_opt_str o)).
  - cbn [re_sub]. eexists. split; [reflexivity|].
    assert (Hr : Forall de_numero
                   (Re.sub no_flags (Set_ true [IWord; IChar (chr "-")]) []
                      (Str.strip (str_of o)))).
    { eapply Forall_impl; [apply sub_keeps|]. intros x Hx. apply de_numero_keep, Hx. }
    split; [exact Hr | apply Hid, Hr].
  - exists []. split; [reflexivity|]. split; [constructor | reflexivity].
Qed.

(** X4. [normalizar_fecha] returns at most 10 characters, each a digit,
    a slash, a dot or a hyphen, and normalising its result again changes
    nothing. *)
Theorem X4_fecha_idempotente (o : option pystr) :
  exists r, normalizar_fecha o = Ok r /\ length r <= 10 /\ Forall de_fecha r
            /\ normalizar_fecha (Some r) = Ok r.
Proof.
  assert (Hid : forall r : pystr, length r <= 10 -> Forall de_fecha r ->
                                  normalizar_fecha (Some r) = Ok r).
  { intros r Hl Hr. unfold normalizar_fecha. cbn [of_opt_str truthy].
    destruct r as [|c r]; [reflexivity|]. cbn [length Nat.eqb negb re_sub mbind res_bind].
    rewrite sub_id by (eapply Forall_impl; [exact Hr|]; intros x Hx; apply de_fecha_keep, Hx).
    unfold Str.slice_first. rewrite take_ge by exact Hl. reflexivity. }
  unfold normalizar_fecha at 1. destruct (negb (truthy (of_opt_str o))) eqn:Ht.
  - exists []. split; [reflexivity|]. split; [simpl; lia|]. split; [constructor | reflexivity].
  - destruct o as [s|]; [|discriminate]. cbn [re_sub mbind res_bind].
    eexists. split; [reflexivity|].
    assert (Hl : length (Str.slice_first 10
                   (Re.sub no_flags
                      (Set_ true [IDigit; IChar (chr "/"); IChar (chr "."); IChar (chr "-")])
                      [] s)) <= 10).
    { unfold Str.slice_first. rewrite length_take. lia. }
    assert (Hr : Forall de_fecha (Str.slice_first 10
                   (Re.sub no_flags
                      (Set_ true [IDigit; IChar (chr "/"); IChar (chr "."); IChar (chr "-")])
                      [] s))).
    { unfold Str.slice_first. apply Forall_take.
      eapply Forall_impl; [apply sub_keeps|]. intros x Hx. apply de_fecha_keep, Hx. }
    split; [exact Hl|]. split; [exact Hr | apply Hid; assumption].
Qed.

(** ** Where a captured group comes from *)

Lemma trozo_refl (u : pystr) : trozo u u.
Proof. exists [], []. rewrite app_nil_r. reflexivity. Qed.

Lemma trozo_app_l (u s t : pystr) : trozo u s -> trozo u (s ++ t).
Proof. intros (a & b & ->). exists a, (b ++ t). rewrite <- !app_assoc. reflexivity. Qed.

Lemma trozo_app_r (u s t : pystr) : trozo u s -> trozo u (t ++ s).
Proof. intros (a & b & ->). exists (t ++ a), b. rewrite <- !app_assoc. reflexivity. Qed.

Lemma trozo_trans (u v s : pystr) : trozo u v -> trozo v s -> trozo u s.
Proof.
  intros (a & b & ->) (a' & b' & ->). exists (a' ++ a), (b ++ b').
  rewrite <- !app_assoc. reflexivity.
Qed.

(** The group after a match is the group before it, or a piece of the
    matched text. *)
Lemma matches_group_trozo fl r g t g' :
  matches fl r g t g' -> g' = g \/ exists u, g' = Some u /\ trozo u t.
Proof.
  induction 1 as [g|a c g Hc|r1 r2 g g1 g2 t1 t2 _ IH1 _ IH2|r1 r2 g t g' _ IH
                  |r1 r2 g t g' _ IH|r g t g' _ IH|r g|a lo hi gr t g Ht Hlo Hhi
                  |r g t g' _ IH]; auto.
  - destruct IH2 as [-> | (u & -> & Hu)].
    + destruct IH1 as [-> | (u & -> & Hu)]; [auto|].
      right. exists u. split; [reflexivity | apply trozo_app_l, Hu].
    + right. exists u. split; [reflexivity | apply trozo_app_r, Hu].
  - right. exists t. split; [reflexivity | apply trozo_refl].
Qed.

Lemma search_group_trozo fl r s m u :
  Re.search fl r s = Some m -> group1 m = Some u -> trozo u s.
Proof.
  intros Hs Hu. apply search_sound in Hs as (pre & g & M & Hg & ->).
  apply matches_group_trozo in M as [-> | (u' & -> & Hu')]; [congruence|].
  rewrite Hg in Hu. injection Hu as <-.
  apply (trozo_app_r u' (group0 m ++ rest m) pre), trozo_app_l, Hu'.
Qed.

(** ** Shape of the text fields of the record *)

Lemma patron_fecha_grupo : ends_in_group no_flags forma_fecha patron_fecha.
Proof.
  repeat apply E_Cat. apply E_Grp. intros g t g' M. inversion M; subst.
  split; [cbn [within] in *; lia|].
  eapply Forall_impl; [eassumption|]. intros x Hx. apply de_fecha_keep.
  cbn [atom_match existsb item_match no_flags IGNORECASE xorb] in *.
  destruct (_ || _); [reflexivity | discriminate].
Qed.

Lemma normalizar_fecha_forma (u : pystr) : forma_fecha u -> normalizar_fecha (Some u) = Ok u.
Proof.
  intros [Hl Hu]. unfold normalizar_fecha. cbn [of_opt_str truthy].
  destruct u as [|c u]; [simpl in Hl; lia|]. cbn [length Nat.eqb negb re_sub mbind res_bind].
  rewrite sub_id by (eapply Forall_impl; [exact Hu|]; intros x Hx; apply de_fecha_keep, Hx).
  unfold Str.slice_first. rewrite take_ge by (simpl in *; lia). reflexivity.
Qed.

Lemma patron_nif_forma : ends_in_group I_only forma_nif patron_nif.
Proof.
  repeat apply E_Cat. apply E_Grp. intros g t g' M.
  cbn [cat] in M. inversion M as [| |r1 r2 g0 g1 g2 t1 t2 M1 M2| | | | | |]; subst.
  inversion M1; subst.
  inversion M2 as [| |r1' r2' g0' g1' g2' t3 t4 M3 M4| | | | | |]; subst.
  inversion M3; subst.
  exists c, t3, t4. split; [reflexivity|]. split; [cbn [within] in *; lia|]. split.
  - eapply Forall_impl; [eassumption|]. intros x. unfold Re.d.
    cbn [atom_match existsb item_match].
    destruct (Unicode.is_decimal x); [reflexivity | intros Hx; exact Hx].
  - inversion M4 as [| | | | |r0 g3 t5 g4 M5|r0 g3| |]; subst; [|simpl; lia].
    inversion M5; subst. simpl. lia.
Qed.

Lemma forma_nif_length u : forma_nif u -> 9 <= length u <= 10.
Proof.
  intros (c & ds & cola & -> & Hds & _ & Hcola).
  cbn [length]. rewrite length_app. lia.
Qed.

(** The record, field by field. *)
Lemma datos_campos texto nombre_fichero :
  exists d numero fecha importes proveedor,
    extraer_datos_factura_completo texto nombre_fichero = Ok d
    /\ numero_de texto nombre_fichero = Ok numero
    /\ match Re.search no_flags patron_fecha texto with
       | Some m => normalizar_fecha (group1 m)
       | None => Ok []
       end = Ok fecha
    /\ extraer_importes_universal texto = Ok importes
    /\ match Re.search I_only patron_nif texto with
       | Some m => slice_first_opt 50 (group1 m)
       | None => Ok []
       end = Ok proveedor
    /\ d !! "numero_factura" = Some (VStr numero)
    /\ d !! "fecha_factura" = Some (VStr fecha)
    /\ d !! "proveedor" = Some (VStr proveedor)
    /\ d !! "cliente" = Some (VStr [])
    /\ d !! "nombre_fichero" = Some (VStr nombre_fichero)
    /\ (forall k, k ∈ claves -> d !! k = importes !! k).
Proof.
  unfold extraer_datos_factura_completo. fold (numero_de texto nombre_fichero).
  assert (Hn : exists numero, numero_de texto nombre_fichero = Ok numero).
  { unfold numero_de. destruct (numero_match texto); [apply normalizar_numero_ok | eauto]. }
  destruct Hn as [numero Hn]. rewrite Hn. cbn [mbind res_bind].
  assert (Hf : exists fecha,
    match Re.search no_flags patron_fecha texto with
    | Some m => normalizar_fecha (group1 m)
    | None => Ok []
    end = Ok fecha).
  { destruct (Re.search no_flags patron_fecha texto); [apply normalizar_fecha_ok | eauto]. }
  destruct Hf as [fecha Hf]. rewrite Hf. cbn [mbind res_bind].
  destruct (extraer_importes_universal_ok texto) as (importes & Hi & Hd & _).
  rewrite Hi. cbn [mbind res_bind].
  assert (Hp : exists proveedor,
    match Re.search I_only patron_nif texto with
    | Some m => slice_first_opt 50 (group1 m)
    | None => Ok []
    end = Ok proveedor).
  { destruct (Re.search I_only patron_nif texto) as [m|] eqn:Hs; [|eauto].
    destruct (search_group _ _ _ _ _ patron_nif_grupo Hs) as (u & -> & _).
    simpl. eauto. }
  destruct Hp as [proveedor Hp]. rewrite Hp. cbn [mbind res_bind].
  assert (Hfuera : forall k, k ∉ claves -> importes !! k = None).
  { intros k Hk. apply not_elem_of_dom. rewrite Hd. exact Hk. }
  eexists; exists numero, fecha, importes, proveedor.
  split; [reflexivity|]. do 4 (split; [reflexivity|]).
  split; [|split; [|split; [|split; [|split]]]].
  - rewrite lookup_insert_ne by discriminate.
    rewrite lookup_union_r by (apply Hfuera, no_es_clave; reflexivity).
    rewrite lookup_insert_ne by discriminate. apply lookup_insert_eq.
  - rewrite lookup_insert_ne by discriminate.
    rewrite lookup_union_r by (apply Hfuera, no_es_clave; reflexivity).
    apply lookup_insert_eq.
  - apply lookup_insert_eq.
  - rewrite lookup_insert_ne by discriminate.
    rewrite lookup_union_r by (apply Hfuera, no_es_clave; reflexivity).
    unfold datos_inicial. rewrite !lookup_insert_ne by discriminate.
    apply lookup_insert_eq.
  - rewrite lookup_insert_ne by discriminate.
    rewrite lookup_union_r by (apply Hfuera, no_es_clave; reflexivity).
    unfold datos_inicial. rewrite !lookup_insert_ne by discriminate.
    apply lookup_insert_eq.
  - intros k Hk.
    assert (Hk' : is_Some (importes !! k)) by (apply elem_of_dom; rewrite Hd; exact Hk).
    destruct Hk' as [v Hv].
    rewrite lookup_insert_ne.
    + rewrite Hv. apply lookup_union_Some_l, Hv.
    + intros <-. apply (no_es_clave "proveedor"); [reflexivity | exact Hk].
Qed.

(** X5. The date of the record is empty when the date pattern has no
    match; otherwise it is the captured text as it stands, a piece of the
    document of 8 to 10 characters, each a digit, a slash, a dot or a
    hyphen. Nothing checks that it is a date. *)
Theorem X5_fecha_del_registro texto nombre_fichero :
  exists d fecha,
    extraer_datos_factura_completo texto nombre_fichero = Ok d
    /\ d !! "fecha_factura" = Some (VStr fecha)
    /\ match Re.search no_flags patron_fecha texto with
       | None => fecha = []
       | Some m => group1 m = Some fecha /\ 8 <= length fecha <= 10
                   /\ Forall de_fecha fecha /\ trozo fecha texto
       end.
Proof.
  destruct (datos_campos texto nombre_fichero)
    as (d & numero & fecha & importes & proveedor & Hd & _ & Hf & _ & _ & _ & Hl & _).
  exists d, fecha. split; [exact Hd|]. split; [exact Hl|].
  destruct (Re.search no_flags patron_fecha texto) as [m|] eqn:Hs; [|congruence].
  destruct (search_group _ _ _ _ _ patron_fecha_grupo Hs) as (u & Hu & Hforma).
  rewrite Hu, (normalizar_fecha_forma u Hforma) in Hf. injection Hf as <-.
  destruct Hforma as [Hlen Hchars].
  split; [exact Hu|]. split; [exact Hlen|]. split; [exact Hchars|].
  eapply search_group_trozo; eassumption.
Qed.

(** X6. The supplier identifier of the record is empty when the NIF
    pattern has no match; otherwise it is the whole captured text, a piece
    of the document made of one character, eight decimal digits and at most
    one more character: with 9 or 10 characters the cut at 50 never removes
    anything. *)
Theorem X6_proveedor_del_registro texto nombre_fichero :
  exists d proveedor,
    extraer_datos_factura_completo texto nombre_fichero = Ok d
    /\ d !! "proveedor" = Some (VStr proveedor)
    /\ match Re.search I_only patron_nif texto with
       | None => proveedor = []
       | Some m => group1 m = Some proveedor /\ forma_nif proveedor
                   /\ 9 <= length proveedor <= 10 /\ trozo proveedor texto
       end.
Proof.
  destruct (datos_campos texto nombre_fichero)
    as (d & numero & fecha & importes & proveedor & Hd & _ & _ & _ & Hp & _ & _ & Hl & _).
  exists d, proveedor. split; [exact Hd|]. split; [exact Hl|].
  destruct (Re.search I_only patron_nif texto) as [m|] eqn:Hs; [|congruence].
  destruct (search_group _ _ _ _ _ patron_nif_forma Hs) as (u & Hu & Hforma).
  pose proof (forma_nif_length u Hforma) as Hlen.
  rewrite Hu in Hp. cbn [slice_first_opt] in Hp. unfold Str.slice_first in Hp.
  rewrite take_ge in Hp by lia. injection Hp as <-.
  split; [exact Hu|]. split; [exact Hforma|]. split; [exact Hlen|].
  eapply search_group_trozo; eassumption.
Qed.

(** X7. When a label pattern matches, the invoice number of the record is
    the captured run of word characters, unchanged by [normalizar_numero]:
    a piece of the document that holds no hyphen, slash or blank, so that
    an identifier such as INV-2024 is cut at its first hyphen. Without a
    match it is the filename with every ".pdf" removed. *)
Theorem X7_numero_del_registro texto nombre_fichero :
  exists d numero,
    extraer_datos_factura_completo texto nombre_fichero = Ok d
    /\ d !! "numero_factura" = Some (VStr numero)
    /\ match numero_match texto with
       | None => numero = Str.replace (py ".pdf") [] nombre_fichero
       | Some m => group1 m = Some numero /\ palabra numero /\ trozo numero texto
       end.
Proof.
  destruct (datos_campos texto nombre_fichero)
    as (d & numero & fecha & importes & proveedor & Hd & Hn & _ & _ & _ & Hl & _).
  exists d, numero. split; [exact Hd|]. split; [exact Hl|].
  unfold numero_de in Hn.
  destruct (numero_match texto) as [m|] eqn:Hm; [|congruence].
  destruct (numero_match_grupo texto m Hm) as (u & Hu & Hw & Hlen).
  rewrite Hu in Hn. rewrite (normalizar_numero_word u Hw Hlen) in Hn. injection Hn as <-.
  split; [exact Hu|]. split; [split; assumption|].
  unfold numero_match, or_else in Hm.
  destruct (Re.search no_flags patron_numero_1 texto) eqn:H1.
  { injection Hm as ->. eapply search_group_trozo; eassumption. }
  destruct (Re.search no_flags patron_numero_2 texto) eqn:H2.
  { injection Hm as ->. eapply search_group_trozo; eassumption. }
  eapply search_group_trozo; eassumption.
Qed.

(** X8. The three amounts of the record are those that
    [extraer_importes_universal] returns for the same text, the later
    assignment of the supplier leaves them alone, and the customer is
    always the empty string. *)
Theorem X8_importes_del_registro texto nombre_fichero :
  exists d importes,
    extraer_datos_factura_completo texto nombre_fichero = Ok d
    /\ extraer_importes_universal texto = Ok importes
    /\ d !! "total" = importes !! "total"
    /\ d !! "base_imponible" = importes !! "base_imponible"
    /\ d !! "iva" = importes !! "iva"
    /\ d !! "cliente" = Some (VStr []).
Proof.
  destruct (datos_campos texto nombre_fichero)
    as (d & numero & fecha & importes & proveedor & Hd & _ & _ & Hi & _ & _ & _ & _ & Hc & _ & Hk).
  exists d, importes. split; [exact Hd|]. split; [exact Hi|].
  split; [apply Hk, claves_total|]. split; [apply Hk, claves_base|].
  split; [apply Hk, claves_iva | exact Hc].
Qed.

(** ** Where the amounts come from *)

Lemma same_char_no_letra x c :
  (x < 65)%Z -> Unicode.same_char_ignorecase x c = true -> c = x.
Proof.
  intros Hx. unfold Unicode.same_char_ignorecase, Unicode.ascii_variants.
  cbn [existsb]. destruct (x =? c)%Z eqn:E; [apply Z.eqb_eq in E; auto|]. cbn [orb].
  destruct ((65 <=? c)%Z && (c <=? 90)%Z) eqn:H1.
  { cbn [existsb]. rewrite orb_false_r. intros H. apply Z.eqb_eq in H.
    apply andb_prop in H1. lia. }
  destruct ((97 <=? c)%Z && (c <=? 122)%Z) eqn:H2.
  { cbn [existsb]. rewrite orb_false_r. intros H. apply Z.eqb_eq in H.
    apply andb_prop in H2. lia. }
  destruct ((c =? 304)%Z || (c =? 305)%Z);
    [|destruct (c =? 383)%Z; [|destruct (c =? 8490)%Z]];
    cbn [existsb]; rewrite ?orb_false_r; intros H;
    repeat (apply orb_prop in H as [H | H]); try discriminate;
    apply Z.eqb_eq in H; lia.
Qed.

Lemma set_num_de_importe fl c : atom_match fl set_num c = true -> de_importe c.
Proof.
  unfold set_num. cbn [atom_match existsb item_match xorb].
  change (chr ".") with 46%Z. change (chr ",") with 44%Z. rewrite orb_false_r.
  unfold de_importe. destruct (Unicode.is_decimal c); [auto|]. cbn [orb].
  destruct (IGNORECASE fl).
  - intros H. apply orb_prop in H as [H | H]; apply same_char_no_letra in H; auto; lia.
  - intros H. apply orb_prop in H as [H | H]; apply Z.eqb_eq in H; auto.
Qed.

Lemma grupo_importe fl g t g' : matches fl (plus set_num) g t g' -> Forall de_importe t.
Proof.
  intros M. inversion M; subst.
  eapply Forall_impl; [eassumption|]. intros x. apply set_num_de_importe.
Qed.

Lemma patrones_universal_grupos :
  Forall (fun pc => ends_in_group I_S (Forall de_importe) (fst pc)) patrones_universal.
Proof.
  unfold patrones_universal.
  repeat (constructor;
          [cbn [fst]; repeat apply E_Cat; apply E_Grp; intros g t g'; apply grupo_importe|]).
  constructor.
Qed.

Lemma patron_importes_chars fl g t g' :
  matches fl patron_importes g t g' -> Forall de_importe t.
Proof.
  unfold patron_importes. cbn [cat]. intros M.
  inversion M as [| |r1 r2 g0 g1 g2 t1 t2 M1 M2| | | | | |]; subst.
  apply Forall_app. split.
  - inversion M1; subst. eapply Forall_impl; [eassumption|].
    intros x. apply set_num_de_importe.
  - inversion M2 as [| | | | |r0 g3 t5 g4 M5|r0 g3| |]; subst; [|constructor].
    inversion M5 as [| |r1' r2' g0' g1' g2' t3 t4 M3 M4| | | | | |]; subst.
    apply Forall_app. split.
    + inversion M3; subst. constructor; [|constructor].
      apply (set_num_de_importe fl).
      unfold set_num. cbn [atom_match existsb item_match xorb] in *.
      match goal with H : (_ || _) = true |- _ => rewrite H end.
      apply orb_true_r.
    + inversion M4; subst. eapply Forall_impl; [eassumption|].
      intros x Hx. left. unfold Re.d in Hx. cbn [atom_match existsb item_match xorb] in Hx.
      destruct (Unicode.is_decimal x); [reflexivity | discriminate].
Qed.

(** Every text [findall] returns is a piece of the subject that the
    pattern matches. *)
Lemma findall_from_sound fl r (s : pystr) : forall skip,
  Forall (fun u => trozo u s /\ exists g, matches fl r None u g) (findall_from fl r s skip).
Proof.
  induction s as [|c s IH]; intros skip.
  - destruct skip; cbn [findall_from]; [|constructor].
    destruct (match_at fl r []) as [m|] eqn:Hm; [|constructor].
    apply match_at_sound in Hm as (g & M & _ & Hs).
    constructor; [|constructor]. split; [|eauto].
    rewrite Hs. apply trozo_app_l, trozo_refl.
  - assert (Hw : forall k, Forall (fun u => trozo u (c :: s) /\ exists g, matches fl r None u g)
                             (findall_from fl r s k)).
    { intros k. eapply Forall_impl; [apply IH|]. intros u [Hu Hm]. split; [|exact Hm].
      apply (trozo_app_r u s [c]), Hu. }
    destruct skip; cbn [findall_from]; [|apply Hw].
    destruct (match_at fl r (c :: s)) as [m|] eqn:Hm; [|apply Hw].
    apply match_at_sound in Hm as (g & M & _ & Hs).
    constructor; [|apply Hw]. split; [|eauto].
    rewrite Hs. apply trozo_app_l, trozo_refl.
Qed.

Lemma importes_normalizados_leidos texto imps x :
  importes_normalizados texto = Ok imps -> In x imps -> leido_de (zona_resumen texto) x.
Proof.
  rewrite importes_normalizados_ok. intros [= <-] Hx.
  apply in_flat_map in Hx as (u & Hu & Hx).
  pose proof (findall_from_sound no_flags patron_importes (zona_resumen texto) 0) as Hall.
  rewrite List.Forall_forall in Hall. destruct (Hall u Hu) as (Ht & g & M).
  unfold es_importe in Hx.
  destruct (valor_de (Some u)) as [y|] eqn:Hy; [|destruct Hx].
  destruct (Float.nonzero y) eqn:Hnz; [|destruct Hx].
  destruct Hx as [<- | []]. split; [exact Hnz|].
  exists u. split; [exact Ht|]. split; [eapply patron_importes_chars, M|].
  rewrite normalizar_importe_ok, Hy. reflexivity.
Qed.

Lemma leidos_insert zona r k x :
  leidos zona r -> leido_de zona x -> leidos zona (<[k := VFloat x]> r).
Proof.
  intros Hr Hx k' y. rewrite lookup_insert. case_decide; [intros [= <-]; exact Hx | apply Hr].
Qed.

Lemma paso_leidos zona r patron campo r' :
  ends_in_group I_S (Forall de_importe) patron ->
  leidos zona r -> paso zona r (patron, campo) = Ok r' -> leidos zona r'.
Proof.
  intros E Hr. unfold paso.
  destruct (Re.search I_S patron zona) as [m|] eqn:Hs; [|intros [= <-]; exact Hr].
  destruct (getitem r campo) as [v|]; cbn [mbind res_bind]; [|discriminate].
  destruct (truthy v); cbn [negb]; [intros [= <-]; exact Hr|].
  rewrite normalizar_importe_ok. cbn [mbind res_bind].
  destruct (valor_de (group1 m)) as [x|] eqn:Hv; cbn [of_opt_float truthy];
    [|intros [= <-]; exact Hr].
  destruct (Float.nonzero x) eqn:Hnz; intros [= <-]; [|exact Hr].
  apply leidos_insert; [exact Hr|]. split; [exact Hnz|].
  destruct (search_group _ _ _ _ _ E Hs) as (u & Hu & Hchars).
  exists u. split; [eapply search_group_trozo; eassumption|]. split; [exact Hchars|].
  rewrite <- Hu, normalizar_importe_ok, Hv. reflexivity.
Qed.

Lemma for_each_paso_leidos zona l : forall r r',
  Forall (fun pc => ends_in_group I_S (Forall de_importe) (fst pc)) l ->
  leidos zona r -> for_each (paso zona) l r = Ok r' -> leidos zona r'.
Proof.
  induction l as [|[patron campo] l IH]; intros r r' Hl Hr; cbn [for_each].
  - intros [= <-]. exact Hr.
  - inversion Hl; subst.
    destruct (paso zona r (patron, campo)) as [r1|] eqn:E1; cbn [mbind res_bind];
      [|discriminate].
    apply IH; [assumption|]. eapply paso_leidos; eassumption.
Qed.

Lemma resultado_inicial_leidos zona : leidos zona resultado_inicial.
Proof.
  intros k x. unfold resultado_inicial.
  rewrite !lookup_insert. repeat case_decide; rewrite ?lookup_empty; discriminate.
Qed.

Lemma buscar_base_leidos zona imps r d :
  (forall x, In x imps -> leido_de zona x) -> leidos zona r ->
  buscar_base imps r = Ok d -> leidos zona d.
Proof.
  intros Himps Hr. induction imps as [|imp imps IH]; cbn [buscar_base].
  - intros [= <-]. exact Hr.
  - destruct (en_banda r imp) as [b|]; cbn [mbind res_bind]; [|discriminate].
    destruct b.
    + intros [= <-]. apply leidos_insert; [exact Hr|]. apply Himps. left. reflexivity.
    + apply IH. intros x Hx. apply Himps. right. exact Hx.
Qed.

Lemma fallback_leidos zona imps r d :
  (forall x, In x imps -> leido_de zona x) -> leidos zona r ->
  fallback imps r = Ok d -> leidos zona d.
Proof.
  intros Himps Hr. unfold fallback.
  destruct (getitem r "total") as [vt|]; cbn [mbind res_bind]; [|discriminate].
  destruct (truthy vt); [|intros [= <-]; exact Hr].
  destruct (getitem r "base_imponible") as [vb|]; cbn [mbind res_bind]; [|discriminate].
  destruct (truthy vb); cbn [negb]; [intros [= <-]; exact Hr|].
  apply buscar_base_leidos; assumption.
Qed.

Lemma extraer_importes_universal_leidos texto :
  exists d, extraer_importes_universal texto = Ok d /\ dom d = claves
    /\ (forall k v, d !! k = Some v -> v = VNone \/ exists x, v = VFloat x)
    /\ leidos (zona_resumen texto) d.
Proof.
  destruct (extraer_importes_universal_ok texto) as (d & Hd & Hdom & Hty).
  exists d. split; [exact Hd|]. split; [exact Hdom|]. split; [exact Hty|].
  destruct (aplicar_patrones_ok (zona_resumen texto)) as (r & Er & _).
  rewrite (extraer_importes_universal_eq _ _ _ (importes_normalizados_ok texto) Er) in Hd.
  eapply fallback_leidos; [| |exact Hd].
  - intros x Hx. eapply importes_normalizados_leidos; [apply importes_normalizados_ok | exact Hx].
  - eapply for_each_paso_leidos;
      [apply patrones_universal_grupos | apply resultado_inicial_leidos | exact Er].
Qed.

(** X9. Every amount [extraer_importes_universal] returns is non-zero and
    was read by [normalizar_importe] from a contiguous run of digits, dots
    and commas of the last 3000 characters of the text: no amount is
    computed, combined or taken from elsewhere. *)
Theorem X9_procedencia_de_los_importes texto :
  exists d, extraer_importes_universal texto = Ok d
    /\ forall k x, d !! k = Some (VFloat x) ->
         Float.nonzero x = true
         /\ exists u : pystr, trozo u (Str.slice_last 3000 texto) /\ Forall de_importe u
              /\ normalizar_importe (Some u) = Ok (Some x).
Proof.
  destruct (extraer_importes_universal_leidos texto) as (d & Hd & _ & _ & Hle).
  exists d. split; [exact Hd | exact Hle].
Qed.

Lemma X9_procedencia_de_los_importes_witness :
  exists u : pystr,
    trozo u (Str.slice_last 3000 (py "Total: 96,80")) /\ Forall de_importe u
    /\ normalizar_importe (Some u) = Ok (Some (dec 9680 2)).
Proof.
  destruct (X9_procedencia_de_los_importes (py "Total: 96,80")) as (d & Hd & H).
  assert (E : campo "total" (extraer_importes_universal (py "Total: 96,80"))
              = Ok (Some (VFloat (dec 9680 2)))) by (vm_compute; reflexivity).
  unfold campo in E. rewrite Hd in E. cbn [mbind res_bind] in E. injection E as E.
  exact (proj2 (H _ _ E)).
Defined.

Lemma trozo_Forall (P : codepoint -> Prop) (u s : pystr) :
  trozo u s -> Forall P s -> Forall P u.
Proof.
  intros (a & b & ->) H. apply Forall_app in H as [_ H]. apply Forall_app in H as [H _].
  exact H.
Qed.

Lemma limpio_sin_cifras (u : pystr) :
  Forall (fun c => Unicode.is_decimal c = false) u ->
  Forall (fun c => c = 46%Z) (limpio u).
Proof.
  unfold limpio. induction 1 as [|c u Hc _ IH]; [constructor|].
  cbn [flat_map]. apply Forall_app. split; [|exact IH].
  unfold guarda. rewrite Hc. cbn [orb].
  destruct (c =? 44)%Z; [repeat constructor|].
  destruct (c =? 46)%Z eqn:H; [|constructor].
  apply Z.eqb_eq in H. repeat constructor. exact H.
Qed.

Lemma of_str_puntos (s : pystr) :
  Forall (fun c => c = 46%Z) s -> Float.of_str s = Raise ValueError.
Proof.
  intros H. unfold Float.of_str. destruct H as [|c s -> Hs]; [reflexivity|].
  cbn [Float.split_dot]. change (46 =? 46)%Z with true. cbn [default from_option id app].
  destruct Hs as [|c s -> _]; [reflexivity|].
  cbn [forallb]. replace (Unicode.is_decimal 46%Z) with false by (vm_compute; reflexivity).
  reflexivity.
Qed.

(** X10. A text whose last 3000 characters hold no decimal digit has no
    amounts: the three fields are [None], whatever labels it carries. *)
Theorem X10_sin_cifras_no_hay_importes texto :
  Forall (fun c => Unicode.is_decimal c = false) (Str.slice_last 3000 texto) ->
  exists d, extraer_importes_universal texto = Ok d
    /\ d !! "total" = Some VNone /\ d !! "base_imponible" = Some VNone
    /\ d !! "iva" = Some VNone.
Proof.
  intros Hz.
  destruct (extraer_importes_universal_leidos texto) as (d & Hd & Hdom & Hty & Hle).
  exists d. split; [exact Hd|].
  assert (Hk : forall k, k ∈ claves -> d !! k = Some VNone).
  { intros k Hk. rewrite <- Hdom in Hk. apply elem_of_dom in Hk as [v Hv].
    destruct (Hty k v Hv) as [-> | [x ->]]; [exact Hv|].
    exfalso. destruct (Hle k x Hv) as (_ & u & Hu & _ & Hn).
    rewrite normalizar_importe_limpio in Hn.
    rewrite of_str_puntos in Hn; [discriminate|].
    apply limpio_sin_cifras. eapply trozo_Forall; [exact Hu | exact Hz]. }
  split; [apply Hk, claves_total|]. split; [apply Hk, claves_base | apply Hk, claves_iva].
Qed.

Lemma X10_sin_cifras_no_hay_importes_witness :
  exists d, extraer_importes_universal (py "Total: pendiente de pago") = Ok d
    /\ d !! "total" = Some VNone /\ d !! "base_imponible" = Some VNone
    /\ d !! "iva" = Some VNone.
Proof.
  apply (X10_sin_cifras_no_hay_importes (py "Total: pendiente de pago")).
  match goal with
  | |- Forall ?P ?l => let l' := eval vm_compute in l in change (Forall P l')
  end.
  repeat constructor.
Defined.

(** ** The identifier taken from the filename *)

Lemma replace_pdf_final (stem : pystr) :
  (forall a b, stem <> a ++ py ".pdf" ++ b) ->
  Str.replace (py ".pdf") [] (stem ++ py ".pdf") = stem.
Proof.
  change (Str.replace (py ".pdf") [] (stem ++ py ".pdf"))
    with (Str.replace_from (py ".pdf") [] (stem ++ py ".pdf") 0).
  induction stem as [|c stem IH]; intros Hno; [reflexivity|].
  cbn [app Str.replace_from].
  assert (Hs : Str.startswith (py ".pdf") (c :: stem ++ py ".pdf") = false).
  { change (py ".pdf") with [46; 112; 100; 102]%Z.
    destruct (Str.startswith [46; 112; 100; 102]%Z (c :: stem ++ [46; 112; 100; 102]%Z))
      eqn:E; [|reflexivity].
    exfalso.
    destruct stem as [|x [|y [|z resto]]]; cbn [app Str.startswith] in E;
      repeat (apply andb_prop in E as [?%Z.eqb_eq E]); try discriminate; subst.
    apply (Hno [] resto). reflexivity. }
  rewrite Hs. f_equal. apply IH.
  intros a b ->. apply (Hno (c :: a) b). reflexivity.
Qed.

Lemma sin_extension_pdf (stem : pystr) :
  1 <= length stem -> sin_extension (stem ++ py ".pdf") = stem.
Proof.
  intros Hl. unfold sin_extension. rewrite rev_app_distr.
  change (tras_punto (rev (py ".pdf") ++ rev stem)) with (Some (rev stem)).
  destruct (rev stem) as [|c r] eqn:Hr.
  - apply (f_equal (@length _)) in Hr. rewrite length_rev in Hr. simpl in Hr. lia.
  - rewrite <- Hr. apply rev_involutive.
Qed.

(** X11. For a filename that ends in ".pdf" and has no other ".pdf" in
    it, and a text without invoice-number label, the invoice number is
    the name before that ending, which is then also the name without its
    extension. *)
Theorem X11_numero_sin_extension texto (stem : pystr) :
  numero_match texto = None ->
  1 <= length stem ->
  (forall a b, stem <> a ++ py ".pdf" ++ b) ->
  exists d,
    extraer_datos_factura_completo texto (stem ++ py ".pdf") = Ok d
    /\ d !! "numero_factura" = Some (VStr stem)
    /\ sin_extension (stem ++ py ".pdf") = stem.
Proof.
  intros Hm Hl Hno.
  destruct (datos_campos texto (stem ++ py ".pdf"))
    as (d & numero & fecha & importes & proveedor & Hd & Hn & _ & _ & _ & Hk & _).
  exists d. split; [exact Hd|].
  rewrite (numero_de_sin_patron _ _ Hm), (replace_pdf_final stem Hno) in Hn.
  injection Hn as <-. split; [exact Hk | apply sin_extension_pdf, Hl].
Qed.

Lemma X11_numero_sin_extension_witness :
  exists d,
    extraer_datos_factura_completo (py "sin etiquetas") (py "2024.03-digi" ++ py ".pdf") = Ok d
    /\ d !! "numero_factura" = Some (VStr (py "2024.03-digi"))
    /\ sin_extension (py "2024.03-digi" ++ py ".pdf") = py "2024.03-digi".
Proof.
  apply (X11_numero_sin_extension (py "sin etiquetas") (py "2024.03-digi")).
  - vm_compute. reflexivity.
  - vm_compute. lia.
  - intros a b H.
    assert (Hlen : length a + length b = 8).
    { apply (f_equal (@length _)) in H. rewrite !length_app in H. simpl in H. lia. }
    do 9 (destruct a as [|? a]; [cbn in H; discriminate H|]).
    simpl in Hlen. lia.
Defined.

(** ** Reading the text of a document *)

Lemma leer_ok (textos : list pystr) : forall acc,
  leer (List.map Ok textos) acc = Ok (acc ++ flat_map (fun t => t ++ nl) textos).
Proof.
  induction textos as [|t textos IH]; intros acc; cbn [List.map leer flat_map].
  - rewrite app_nil_r. reflexivity.
  - cbn [mbind res_bind]. rewrite IH. unfold nl. rewrite <- !app_assoc. reflexivity.
Qed.

Lemma leer_raise (ps : list (res pystr)) e : forall acc,
  In (Raise e) ps -> exists e', leer ps acc = Raise e'.
Proof.
  induction ps as [|p ps IH]; intros acc Hin; [destruct Hin|].
  cbn [leer]. destruct Hin as [-> | Hin]; [eauto|].
  destruct p as [t|e0]; cbn [mbind res_bind]; [apply IH, Hin | eauto].
Qed.

Lemma extraer_texto_completo_ok disponible abrir :
  exists texto, extraer_texto_completo disponible abrir = Ok texto.
Proof.
  unfold extraer_texto_completo, try_except. destruct (negb disponible); [eauto|].
  destruct (_ ← abrir; _); eauto.
Qed.

Lemma lstrip_en_blanco (t : pystr) : en_blanco t -> Str.lstrip t = [].
Proof.
  induction 1 as [|c t Hc _ IH]; [reflexivity|]. cbn [Str.lstrip]. rewrite Hc. exact IH.
Qed.

Lemma strip_en_blanco (t : pystr) : en_blanco t -> Str.strip t = [].
Proof. intros H. unfold Str.strip. rewrite (lstrip_en_blanco t H). reflexivity. Qed.

Lemma paginas_en_blanco (textos : list pystr) :
  Forall en_blanco textos -> en_blanco (flat_map (fun t => t ++ nl) textos).
Proof.
  induction 1 as [|t textos Ht _ IH]; [constructor|].
  cbn [flat_map]. unfold en_blanco. rewrite !Forall_app. split; [split|]; [exact Ht| |exact IH].
  repeat constructor.
Qed.

(** X12. [extraer_texto_completo] is all or nothing and never raises:
    when the document opens, every page gives its text and the document
    closes, the result is the page texts in order, each followed by a line
    break; when PyMuPDF is missing, or opening, any one page or closing
    fails, it is the empty string, and the text of the pages already read
    is dropped. *)
Theorem X12_texto_todo_o_nada :
  (forall disponible abrir, exists texto, extraer_texto_completo disponible abrir = Ok texto)
  /\ (forall textos cierre,
      extraer_texto_completo true
        (Ok {| paginas := List.map Ok textos; close := Ok cierre |})
      = Ok (flat_map (fun t => t ++ nl) textos))
  /\ (forall abrir, extraer_texto_completo false abrir = Ok [])
  /\ (forall e, extraer_texto_completo true (Raise e) = Ok [])
  /\ (forall doc e, In (Raise e) (paginas doc) ->
      extraer_texto_completo true (Ok doc) = Ok [])
  /\ (forall doc e, close doc = Raise e -> extraer_texto_completo true (Ok doc) = Ok []).
Proof.
  split; [exact extraer_texto_completo_ok|]. split; [|split; [|split; [|split]]].
  - intros textos cierre. unfold extraer_texto_completo. cbn [negb mbind res_bind paginas close].
    rewrite leer_ok. reflexivity.
  - reflexivity.
  - reflexivity.
  - intros doc e Hin. unfold extraer_texto_completo. cbn [negb mbind res_bind].
    destruct (leer_raise (paginas doc) e [] Hin) as [e' ->]. reflexivity.
  - intros doc e Hc. unfold extraer_texto_completo. cbn [negb mbind res_bind].
    destruct (leer (paginas doc) []); cbn [mbind res_bind]; [|reflexivity].
    rewrite Hc. reflexivity.
Qed.

Lemma X12_texto_todo_o_nada_witness :
  extraer_texto_completo true
    (Ok {| paginas := [Ok (py "Total: 96,80"); Raise ValueError]; close := Ok tt |})
  = Ok [].
Proof.
  destruct X12_texto_todo_o_nada as (_ & _ & _ & _ & H & _).
  apply (H {| paginas := [Ok (py "Total: 96,80"); Raise ValueError]; close := Ok tt |}
           ValueError).
  right. left. reflexivity.
Defined.

(** ** The loop of [main] *)

Lemma registro_ok disponible pdf : fila_de disponible pdf (registro disponible pdf).
Proof.
  unfold fila_de, registro.
  destruct (datos_campos (texto_de disponible pdf) (name pdf))
    as (d & numero & fecha & importes & proveedor & Hd & _ & _ & _ & _ & _ & _ & _ & _ & Hn & _).
  rewrite Hd. auto.
Qed.

Lemma filas_de_cons disponible pdf pdfs :
  filas_de disponible (pdf :: pdfs)
  = (if con_texto disponible pdf then [registro disponible pdf] else [])
    ++ filas_de disponible pdfs.
Proof.
  unfold filas_de. cbn [List.filter]. destruct (con_texto disponible pdf); reflexivity.
Qed.

(** One turn of the loop prints its two messages, counts the file and adds
    its row, or raises what the console raises. *)
Lemma vuelta_eq e filas procesados impreso pdf :
  vuelta e (filas, procesados, impreso) pdf
  = (impreso1 ← print e impreso (mensaje_fichero (name pdf));
     impreso2 ← print e impreso1
                  (if con_texto (PYMUPDF_AVAILABLE e) pdf then mensaje_leido
                   else mensaje_vacio);
     Ok (filas ++ (if con_texto (PYMUPDF_AVAILABLE e) pdf
                   then [registro (PYMUPDF_AVAILABLE e) pdf] else []),
         S procesados, impreso2)).
Proof.
  unfold vuelta.
  destruct (print e impreso (mensaje_fichero (name pdf))) as [impreso1|];
    cbn [mbind res_bind]; [|reflexivity].
  replace (procesados + 1) with (S procesados) by lia.
  pose proof (registro_ok (PYMUPDF_AVAILABLE e) pdf) as [Hr _]. revert Hr.
  unfold con_texto, registro, texto_de.
  destruct (extraer_texto_completo_ok (PYMUPDF_AVAILABLE e) (fitz_open pdf)) as [texto ->].
  cbn [mbind res_bind]. intros Hr.
  destruct (truthy (VStr (Str.strip texto))); cbn [negb].
  - destruct (print e impreso1 mensaje_leido); cbn [mbind res_bind]; [|reflexivity].
    destruct (extraer_datos_factura_completo texto (name pdf)); [reflexivity | discriminate].
  - destruct (print e impreso1 mensaje_vacio); cbn [mbind res_bind]; [|reflexivity].
    rewrite app_nil_r. reflexivity.
Qed.

Lemma bucle_eq e pdfs : forall filas procesados impreso,
  for_each (vuelta e) pdfs (filas, procesados, impreso)
  = (impreso' ← for_each (print e) (mensajes (PYMUPDF_AVAILABLE e) pdfs) impreso;
     Ok (filas ++ filas_de (PYMUPDF_AVAILABLE e) pdfs, procesados + length pdfs, impreso')).
Proof.
  induction pdfs as [|pdf pdfs IH]; intros filas procesados impreso.
  - cbn [for_each mensajes flat_map length mbind res_bind]. unfold filas_de. cbn [List.filter List.map].
    rewrite app_nil_r, Nat.add_0_r. reflexivity.
  - cbn [for_each mensajes flat_map app length]. rewrite vuelta_eq, filas_de_cons.
    destruct (print e impreso (mensaje_fichero (name pdf))) as [impreso1|];
      cbn [mbind res_bind]; [|reflexivity].
    destruct (print e impreso1 _) as [impreso2|]; cbn [mbind res_bind]; [|reflexivity].
    rewrite IH. fold (mensajes (PYMUPDF_AVAILABLE e) pdfs).
    destruct (for_each (print e) (mensajes (PYMUPDF_AVAILABLE e) pdfs) impreso2);
      cbn [mbind res_bind]; [|reflexivity].
    rewrite <- app_assoc. do 3 f_equal. lia.
Qed.

Lemma filas_de_fila disponible pdfs :
  Forall2 (fila_de disponible) (List.filter (con_texto disponible) pdfs)
          (filas_de disponible pdfs).
Proof.
  unfold filas_de. induction (List.filter (con_texto disponible) pdfs) as [|pdf l IH];
    cbn [List.map]; constructor; [apply registro_ok | exact IH].
Qed.

Lemma filas_de_nil disponible pdfs :
  filas_de disponible pdfs = [] <-> Forall (fun pdf => con_texto disponible pdf = false) pdfs.
Proof.
  induction pdfs as [|pdf pdfs IH]; [split; [constructor | reflexivity]|].
  rewrite filas_de_cons. split.
  - destruct (con_texto disponible pdf) eqn:Hc; [discriminate|]. cbn [app].
    intros H. constructor; [exact Hc | apply IH, H].
  - intros H. inversion H as [|? ? Hc Hrest]; subst. rewrite Hc. apply IH, Hrest.
Qed.

Lemma print_admite e impreso texto :
  admite_todo e -> print e impreso texto = Ok (impreso ++ [texto]).
Proof. intros H. unfold print. rewrite H. reflexivity. Qed.

Lemma print_todos_admite e textos : forall impreso,
  admite_todo e -> for_each (print e) textos impreso = Ok (impreso ++ textos).
Proof.
  induction textos as [|t textos IH]; intros impreso H; cbn [for_each].
  - rewrite app_nil_r. reflexivity.
  - rewrite (print_admite e impreso t H). cbn [mbind res_bind].
    rewrite (IH _ H), <- app_assoc. reflexivity.
Qed.

(** X13. The loop of [main] prints two messages for each file, its name
    and its mark, and raises exactly when the console refuses one of them,
    with the exception of the first refusal. Otherwise it ends having
    counted every file of the folder and with one row, in the order of the
    folder, for each file whose text is not blank: the record
    [extraer_datos_factura_completo] returns for that text and the name of
    the file, which the row carries under [nombre_fichero]. *)
Theorem X13_una_fila_por_documento e pdfs impreso :
  for_each (vuelta e) pdfs ([], 0, impreso)
  = (impreso' ← for_each (print e) (mensajes (PYMUPDF_AVAILABLE e) pdfs) impreso;
     Ok (filas_de (PYMUPDF_AVAILABLE e) pdfs, length pdfs, impreso'))
  /\ Forall2 (fun pdf d =>
                extraer_datos_factura_completo (texto_de (PYMUPDF_AVAILABLE e) pdf) (name pdf)
                  = Ok d
                /\ d !! "nombre_fichero" = Some (VStr (name pdf)))
             (List.filter (con_texto (PYMUPDF_AVAILABLE e)) pdfs)
             (filas_de (PYMUPDF_AVAILABLE e) pdfs)
  /\ length (filas_de (PYMUPDF_AVAILABLE e) pdfs) <= length pdfs
  /\ length (mensajes (PYMUPDF_AVAILABLE e) pdfs) = 2 * length pdfs.
Proof.
  split; [apply (bucle_eq e pdfs [] 0 impreso)|]. split; [apply filas_de_fila|]. split.
  - unfold filas_de. rewrite length_map. apply List.filter_length_le.
  - unfold mensajes. induction pdfs as [|pdf pdfs IH]; [reflexivity|].
    cbn [flat_map app length]. rewrite IH. lia.
Qed.

Lemma sin_pymupdf pdf : con_texto false pdf = false.
Proof. reflexivity. Qed.

Lemma documento_en_blanco (textos : list pystr) nombre cierre :
  Forall en_blanco textos ->
  con_texto true {| name := nombre;
                    fitz_open := Ok {| paginas := List.map Ok textos; close := Ok cierre |} |}
  = false.
Proof.
  intros H. unfold con_texto, texto_de. cbn [fitz_open].
  unfold extraer_texto_completo. cbn [negb mbind res_bind paginas close].
  rewrite leer_ok. cbn [try_except mbind res_bind app].
  unfold pystr in *. rewrite (strip_en_blanco _ (paginas_en_blanco textos H)). reflexivity.
Qed.

(** [main], once the command line is parsed and the folder listed. *)
Lemma main_eq e args pdfs :
  parse_args e = Ok args -> glob e (carpeta_pdf args) = Ok pdfs ->
  main e
  = (impreso ← print e [] mensaje_inicio;
     impreso ← for_each (print e) (mensajes (PYMUPDF_AVAILABLE e) pdfs) impreso;
     match filas_de (PYMUPDF_AVAILABLE e) pdfs with
     | [] => _ ← print e impreso mensaje_sin_validos; Ok 1%Z
     | filas => _ ← exportar e args filas (length pdfs) impreso; Ok 0%Z
     end).
Proof.
  intros Ha Hg. unfold main. rewrite Ha. cbn [mbind res_bind].
  destruct (print e [] mensaje_inicio) as [impreso|]; cbn [mbind res_bind]; [|reflexivity].
  rewrite Hg. cbn [mbind res_bind]. rewrite (bucle_eq e pdfs [] 0 impreso).
  destruct (for_each (print e) _ impreso) as [impreso'|]; cbn [mbind res_bind app Nat.add];
    [|reflexivity].
  destruct (filas_de (PYMUPDF_AVAILABLE e) pdfs); reflexivity.
Qed.

(** X14. Exit status of [main]. Once the command line is parsed and the
    folder listed, [main] prints its first message and the messages of
    the loop, then either prints that no file is valid and returns 1, when
    no file has a text that is not blank, or hands the rows and the number
    of files to pandas and returns 0; it raises what [parse_args], the
    console, the folder or pandas raise, for instance when the console
    cannot take the name of a file. So a status of 1 means that no file
    had text and a status of 0 that some file had. With a console that
    takes every text, [main] returns 1 for an empty folder, whenever
    PyMuPDF is missing, and for documents whose pages hold only white
    space. *)
Theorem X14_estado_de_salida :
  (forall e args pdfs,
      parse_args e = Ok args -> glob e (carpeta_pdf args) = Ok pdfs ->
      main e
      = (impreso ← print e [] mensaje_inicio;
         impreso ← for_each (print e) (mensajes (PYMUPDF_AVAILABLE e) pdfs) impreso;
         match filas_de (PYMUPDF_AVAILABLE e) pdfs with
         | [] => _ ← print e impreso mensaje_sin_validos; Ok 1%Z
         | filas => _ ← exportar e args filas (length pdfs) impreso; Ok 0%Z
         end))
  /\ (forall e x, parse_args e = Raise x -> main e = Raise x)
  /\ (forall e args x,
      parse_args e = Ok args -> consola e [] mensaje_inicio = Ok tt ->
      glob e (carpeta_pdf args) = Raise x -> main e = Raise x)
  /\ (forall e args pdf pdfs x,
      parse_args e = Ok args -> glob e (carpeta_pdf args) = Ok (pdf :: pdfs) ->
      consola e [] mensaje_inicio = Ok tt ->
      consola e [mensaje_inicio] (mensaje_fichero (name pdf)) = Raise x ->
      main e = Raise x)
  /\ (forall e z,
      main e = Ok z ->
      exists args pdfs,
        parse_args e = Ok args /\ glob e (carpeta_pdf args) = Ok pdfs
        /\ ((z = 1%Z /\ Forall (fun pdf => con_texto (PYMUPDF_AVAILABLE e) pdf = false) pdfs)
            \/ (z = 0%Z
                /\ Exists (fun pdf => con_texto (PYMUPDF_AVAILABLE e) pdf = true) pdfs)))
  /\ (forall e args pdfs,
      parse_args e = Ok args -> glob e (carpeta_pdf args) = Ok pdfs -> admite_todo e ->
      Forall (fun pdf => con_texto (PYMUPDF_AVAILABLE e) pdf = false) pdfs ->
      main e = Ok 1%Z)
  /\ (forall e args pdfs,
      parse_args e = Ok args -> glob e (carpeta_pdf args) = Ok pdfs -> admite_todo e ->
      Exists (fun pdf => con_texto (PYMUPDF_AVAILABLE e) pdf = true) pdfs ->
      filas_de (PYMUPDF_AVAILABLE e) pdfs <> []
      /\ main e
         = (_ ← exportar e args (filas_de (PYMUPDF_AVAILABLE e) pdfs) (length pdfs)
                  (mensaje_inicio :: mensajes (PYMUPDF_AVAILABLE e) pdfs);
            Ok 0%Z))
  /\ (forall pdf, con_texto false pdf = false)
  /\ (forall textos nombre cierre,
      Forall en_blanco textos ->
      con_texto true
        {| name := nombre;
           fitz_open := Ok {| paginas := List.map Ok textos; close := Ok cierre |} |}
      = false).
Proof.
  split; [exact main_eq|]. split; [|split; [|split; [|split; [|split; [|split; [|split]]]]]].
  - intros e x Ha. unfold main. rewrite Ha. reflexivity.
  - intros e args x Ha Hc Hg. unfold main, print. rewrite Ha. cbn [mbind res_bind].
    rewrite Hc. cbn [mbind res_bind]. rewrite Hg. reflexivity.
  - intros e args pdf pdfs x Ha Hg Hc Hn. rewrite (main_eq e args _ Ha Hg).
    assert (H1 : print e [] mensaje_inicio = Ok [mensaje_inicio])
      by (unfold print; rewrite Hc; reflexivity).
    assert (H2 : print e [mensaje_inicio] (mensaje_fichero (name pdf)) = Raise x)
      by (unfold print; rewrite Hn; reflexivity).
    rewrite H1. cbn [mbind res_bind mensajes flat_map app for_each]. rewrite H2. reflexivity.
  - intros e z Hz. unfold main in Hz.
    destruct (parse_args e) as [args|] eqn:Ha; cbn [mbind res_bind] in Hz; [|discriminate].
    destruct (print e [] mensaje_inicio) as [impreso|]; cbn [mbind res_bind] in Hz;
      [|discriminate].
    destruct (glob e (carpeta_pdf args)) as [pdfs|] eqn:Hg; cbn [mbind res_bind] in Hz;
      [|discriminate].
    exists args, pdfs. split; [reflexivity|]. split; [exact Hg|].
    rewrite (bucle_eq e pdfs [] 0 impreso) in Hz.
    destruct (for_each (print e) _ impreso) as [impreso'|]; cbn [mbind res_bind app] in Hz;
      [|discriminate].
    destruct (filas_de (PYMUPDF_AVAILABLE e) pdfs) as [|d filas] eqn:Hf.
    + left. destruct (print e impreso' mensaje_sin_validos); cbn [mbind res_bind] in Hz;
        [|discriminate].
      injection Hz as <-. split; [reflexivity | apply filas_de_nil, Hf].
    + right. destruct (exportar e args _ _ _); cbn [mbind res_bind] in Hz; [|discriminate].
      injection Hz as <-. split; [reflexivity|].
      apply List.Exists_exists.
      assert (Hin : exists pdf, In pdf (List.filter (con_texto (PYMUPDF_AVAILABLE e)) pdfs)).
      { unfold filas_de in Hf.
        destruct (List.filter (con_texto (PYMUPDF_AVAILABLE e)) pdfs) as [|pdf l];
          [discriminate | exists pdf; left; reflexivity]. }
      destruct Hin as [pdf Hin]. apply List.filter_In in Hin as [Hin Hc]. eauto.
  - intros e args pdfs Ha Hg Hadm Hall. rewrite (main_eq e args pdfs Ha Hg).
    rewrite (print_admite _ _ _ Hadm). cbn [mbind res_bind].
    rewrite (print_todos_admite _ _ _ Hadm). cbn [mbind res_bind].
    rewrite (proj2 (filas_de_nil _ _) Hall), (print_admite _ _ _ Hadm). reflexivity.
  - intros e args pdfs Ha Hg Hadm Hex.
    assert (Hne : filas_de (PYMUPDF_AVAILABLE e) pdfs <> []).
    { intros Hnil. apply filas_de_nil in Hnil.
      apply List.Exists_exists in Hex as (pdf & Hin & Hc).
      rewrite List.Forall_forall in Hnil. rewrite (Hnil pdf Hin) in Hc. discriminate. }
    split; [exact Hne|]. rewrite (main_eq e args pdfs Ha Hg).
    rewrite (print_admite _ _ _ Hadm). cbn [mbind res_bind].
    rewrite (print_todos_admite _ _ _ Hadm). cbn [mbind res_bind app].
    destruct (filas_de (PYMUPDF_AVAILABLE e) pdfs); [congruence | reflexivity].
  - exact sin_pymupdf.
  - exact documento_en_blanco.
Qed.

Lemma X14_estado_de_salida_witness :
  main {| PYMUPDF_AVAILABLE := true;
          parse_args := Ok {| carpeta_pdf := py "facturas"; output := None |};
          consola := fun _ _ => Ok tt;
          glob := fun _ =>
            Ok [{| name := py "escaneada.pdf";
                   fitz_open := Ok {| paginas := [Ok (py "  "); Ok []]; close := Ok tt |} |}];
          exportar := fun _ _ _ _ => Ok tt |}
  = Ok 1%Z.
Proof.
  destruct X14_estado_de_salida as (_ & _ & _ & _ & _ & H & _).
  eapply H.
  - reflexivity.
  - reflexivity.
  - intros impreso texto. reflexivity.
  - repeat constructor.
Defined.

(** ** Labels inside longer words *)

(** An amount the first patterns of the list have set is in the result. *)
Lemma importe_fijado texto l1 l2 r1 k v :
  patrones_universal = l1 ++ l2 ->
  for_each (paso (zona_resumen texto)) l1 resultado_inicial = Ok r1 ->
  r1 !! k = Some (VFloat v) ->
  exists d, extraer_importes_universal texto = Ok d /\ d !! k = Some (VFloat v).
Proof.
  intros Hl E1 Hk.
  pose proof patrones_universal_validos as Hval. unfold campos_validos in Hval.
  rewrite Hl in Hval. apply Forall_app in Hval as [Hv1 Hv2].
  destruct (for_each_paso_ok (zona_resumen texto) l1 resultado_inicial
              resultado_inicial_bien_formado Hv1) as (r1' & E1' & Hr1 & _).
  rewrite E1 in E1'. injection E1' as <-.
  destruct (for_each_paso_ok (zona_resumen texto) l2 r1 Hr1 Hv2)
    as (r & E2 & Hr & Hkeep & _).
  assert (Er : aplicar_patrones (zona_resumen texto) = Ok r).
  { unfold aplicar_patrones. rewrite Hl, for_each_app, E1. exact E2. }
  destruct (fallback_ok (flat_map (fun x => es_importe (valor_de (Some x)))
              (Re.findall no_flags patron_importes (zona_resumen texto))) r Hr)
    as (d & Ed & _ & _ & Hkeep' & _).
  exists d. rewrite (extraer_importes_universal_eq _ _ _ (importes_normalizados_ok texto) Er).
  split; [exact Ed | apply Hkeep', Hkeep, Hk].
Qed.

(** X15. The label "Total" is looked for without regard to case and
    without word boundary, so it is found inside "Subtotal": a window that
    starts with the line "Subtotal: 80,00" has total 80.00 as well as base
    80.00, whatever follows, a line "Total: 96,80" included. *)
Theorem X15_subtotal_es_total :
  forall resto, length resto <= 2984 ->
    campo "total" (extraer_importes_universal (py "Subtotal: 80,00" ++ nl ++ resto))
      = Ok (Some (VFloat (dec 8000 2)))
    /\ campo "base_imponible"
         (extraer_importes_universal (py "Subtotal: 80,00" ++ nl ++ resto))
      = Ok (Some (VFloat (dec 8000 2))).
Proof.
  intros resto Hlen.
  set (texto := py "Subtotal: 80,00" ++ nl ++ resto).
  assert (Hz : zona_resumen texto = texto).
  { unfold zona_resumen, Str.slice_last.
    replace (length texto - 3000) with 0; [reflexivity|].
    unfold texto. rewrite !length_app. simpl. lia. }
  assert (E : for_each (paso (zona_resumen texto)) (firstn 3 patrones_universal)
                resultado_inicial
              = Ok (<["base_imponible" := VFloat (dec 8000 2)]>
                      (<["total" := VFloat (dec 8000 2)]> resultado_inicial))).
  { rewrite Hz. unfold texto. vm_compute. reflexivity. }
  assert (Hsplit : patrones_universal
                   = firstn 3 patrones_universal ++ skipn 3 patrones_universal)
    by reflexivity.
  split.
  - destruct (importe_fijado texto _ _ _ "total"%string (dec 8000 2) Hsplit E)
      as (d & Ed & Hd); [vm_compute; reflexivity|].
    unfold campo. rewrite Ed. cbn [mbind res_bind]. rewrite Hd. reflexivity.
  - destruct (importe_fijado texto _ _ _ "base_imponible"%string (dec 8000 2) Hsplit E)
      as (d & Ed & Hd); [vm_compute; reflexivity|].
    unfold campo. rewrite Ed. cbn [mbind res_bind]. rewrite Hd. reflexivity.
Qed.

Lemma X15_subtotal_es_total_witness :
  campo "total"
    (extraer_importes_universal (py "Subtotal: 80,00" ++ nl ++ py "Total: 96,80"))
  = Ok (Some (VFloat (dec 8000 2))).
Proof.
  apply (X15_subtotal_es_total (py "Total: 96,80")). vm_compute. lia.
Defined.
